(** * Tensai: review-summary store, review reducer and card store

    A shallow embedding of the review-scheduling core of the flashcard
    application:

    - [ReviewStore]: the conflict-resolution callback of
      [ReviewStore.onSyncChange];
    - [Review]: the review reducer [review] and [updateNextCard], over an
      explicit object store so that JavaScript object identity ([===],
      [indexOf]) and the sharing of [progress] objects between a card and
      its spread copy are visible;
    - [CardStore]: [putCard], [getCard], [deleteCard] over a document
      store with revisions, and the overdueness score;
    - [Sagas]: what [updateHeap] loads and which card [updateProgress]
      saves;
    - [ReviewSummary]: reading, writing and finishing the stored review;
    - [CardChanges], [CardQueries]: the card store's change
      notifications and its new-card query.

    JavaScript numbers are modelled as exact numbers: timestamps and
    counters as [Z], levels as [Q].  The overdueness score, which needs
    [exp], is a real number or an infinity: [Math.exp] overflows. *)

From Stdlib Require Import ZArith QArith Qround Qminmax Qreals Reals Lra Lia.
From Stdlib Require Import Sorted.
From stdpp Require Import gmap strings list.

Local Open Scope Z_scope.

(** ** Review summary store *)

Module ReviewStore.

(** [ProgressContent] as embedded in a history item. *)
Record ProgressContent := {
  level : Q;
  due : Z;
}.

Record HistoryItem := {
  id : string;
  failed : option bool;
  previousProgress : option ProgressContent;
}.

(** [ReviewContent]: the stored review-summary document. *)
Record ReviewContent := {
  maxCards : Z;
  maxNewCards : Z;
  history : list HistoryItem;
  finished : bool;
  modified : Z;
}.

(** JavaScript truthiness of [xs.length]. *)
Definition has_length {A} (xs : list A) : bool :=
  negb (Nat.eqb (length xs) 0).

(** The callback handed to [db.resolveConflicts] in [onSyncChange]:
    given the two diverged revisions it returns the winner. *)
Definition resolve (a b : ReviewContent) : ReviewContent :=
  (* If either review is finished, use the other. *)
  if finished b then a
  else if finished a then b
  (* If either review has yet to make any progress, use the other. *)
  else if negb (has_length (history b)) && has_length (history a) then a
  else if negb (has_length (history a)) && has_length (history b) then b
  (* Otherwise, just use the most recently touched one. *)
  else if modified a >=? modified b then a else b.

End ReviewStore.

(** ** Review session reducer *)

Module Review.

Definition MS_PER_DAY : Z := 1000 * 60 * 60 * 24.

(** *** Object store

    Cards are JavaScript objects: the reducer compares them by identity
    ([indexOf], [===]) and copies them with a spread, which shares the
    nested [progress] object.  A card is therefore a reference into
    [cards], its progress a reference into [progresses]; allocation
    appends. *)

Abbreviation cardref := nat.
Abbreviation progref := nat.

Record Progress := {
  level : Q;
  reviewed : option Z;   (* Date | null, as epoch milliseconds *)
}.

Record Card := {
  _id : string;
  question : string;
  answer : string;
  progress : progref;
}.

Record Store := {
  cards : list Card;
  progresses : list Progress;
}.

(** A value of type [Card | null]; [JUndefined] is what indexing an
    array out of range yields. *)
Inductive jsval :=
| JNull
| JUndefined
| JCard (c : cardref).

#[global] Instance jsval_eq_dec : EqDecision jsval.
Proof. solve_decision. Defined.

Definition truthy (v : jsval) : bool :=
  match v with JCard _ => true | _ => false end.

(** [{ ...card }]: a fresh object with the same fields. *)
Definition spread (σ : Store) (card : Card) : cardref * Store :=
  (length (cards σ),
   {| cards := cards σ ++ [card]; progresses := progresses σ |}).

Definition set_level (σ : Store) (p : progref) (l : Q) : Store :=
  {| cards := cards σ;
     progresses := alter (fun pr => {| level := l; reviewed := reviewed pr |})
                         p (progresses σ) |}.

Definition set_reviewed (σ : Store) (p : progref) (r : option Z) : Store :=
  {| cards := cards σ;
     progresses := alter (fun pr => {| level := level pr; reviewed := r |})
                         p (progresses σ) |}.

Definition progressOf (σ : Store) (c : cardref) : option Progress :=
  card ← cards σ !! c; progresses σ !! progress card.

Definition idOf (σ : Store) (c : cardref) : option string :=
  _id <$> cards σ !! c.

(** [card._id === id] *)
Definition hasId (σ : Store) (id : string) (c : cardref) : bool :=
  bool_decide (idOf σ c = Some id).

(** [a._id === b._id] *)
Definition sameId (σ : Store) (a b : cardref) : bool :=
  match idOf σ b with
  | Some id => hasId σ id a
  | None => false
  end.

(** *** Arrays *)

(** [xs.indexOf(c)]; [None] stands for [-1]. *)
Fixpoint indexOf (xs : list cardref) (c : cardref) : option nat :=
  match xs with
  | [] => None
  | x :: xs' => if decide (x = c) then Some 0%nat else S <$> indexOf xs' c
  end.

(** [xs.findIndex(f)] *)
Fixpoint findIndex (f : cardref -> bool) (xs : list cardref) : option nat :=
  match xs with
  | [] => None
  | x :: xs' => if f x then Some 0%nat else S <$> findIndex f xs'
  end.

(** [ys = xs.slice(); if (i !== -1) ys.splice(i, 1)] *)
Definition spliceAt (i : option nat) (xs : list cardref) : list cardref :=
  match i with
  | Some i => delete i xs
  | None => xs
  end.

(** [xs[i]] for a numeric index. *)
Definition at_index (xs : list cardref) (i : Z) : jsval :=
  if i <? 0 then JUndefined
  else match xs !! Z.to_nat i with
       | Some c => JCard c
       | None => JUndefined
       end.

Definition len (xs : list cardref) : Z := Z.of_nat (length xs).

(** *** State *)

Inductive ReviewPhase := IDLE | LOADING | QUESTION | ANSWER | COMPLETE.

#[global] Instance ReviewPhase_eq_dec : EqDecision ReviewPhase.
Proof. solve_decision. Defined.

Record AvailableCards := {
  newCards : Z;
  overdueCards : Z;
}.

Record ReviewState := {
  phase : ReviewPhase;
  reviewTime : Z;
  maxCards : Z;
  maxNewCards : Z;
  completed : Z;
  newCardsInPlay : Z;
  heap : list cardref;
  failedCardsLevel1 : list cardref;
  failedCardsLevel2 : list cardref;
  history : list cardref;
  currentCard : jsval;
  nextCard : jsval;
  availableCards : option AvailableCards;
  savingProgress : bool;
  loadingAvailableCards : bool;
}.

(** [initialState]; [now] is the value of [new Date()] at load time. *)
Definition initialState (now : Z) : ReviewState := {|
  phase := IDLE;
  reviewTime := now;
  maxCards := 0;
  maxNewCards := 0;
  completed := 0;
  newCardsInPlay := 0;
  heap := [];
  failedCardsLevel1 := [];
  failedCardsLevel2 := [];
  history := [];
  currentCard := JNull;
  nextCard := JNull;
  availableCards := None;
  savingProgress := false;
  loadingAvailableCards := false;
|}.

(** Object spreads with overrides, one per group of fields that the
    reducer overrides together. *)

Definition with_phase (ph : ReviewPhase) (s : ReviewState) : ReviewState :=
  {| phase := ph; reviewTime := reviewTime s; maxCards := maxCards s;
     maxNewCards := maxNewCards s; completed := completed s;
     newCardsInPlay := newCardsInPlay s; heap := heap s;
     failedCardsLevel1 := failedCardsLevel1 s;
     failedCardsLevel2 := failedCardsLevel2 s; history := history s;
     currentCard := currentCard s; nextCard := nextCard s;
     availableCards := availableCards s;
     savingProgress := savingProgress s;
     loadingAvailableCards := loadingAvailableCards s |}.

Definition with_limits (ph : ReviewPhase) (mc mnc : Z) (s : ReviewState)
  : ReviewState :=
  {| phase := ph; reviewTime := reviewTime s; maxCards := mc;
     maxNewCards := mnc; completed := completed s;
     newCardsInPlay := newCardsInPlay s; heap := heap s;
     failedCardsLevel1 := failedCardsLevel1 s;
     failedCardsLevel2 := failedCardsLevel2 s; history := history s;
     currentCard := currentCard s; nextCard := nextCard s;
     availableCards := availableCards s;
     savingProgress := savingProgress s;
     loadingAvailableCards := loadingAvailableCards s |}.

Definition with_reviewTime (t : Z) (s : ReviewState) : ReviewState :=
  {| phase := phase s; reviewTime := t; maxCards := maxCards s;
     maxNewCards := maxNewCards s; completed := completed s;
     newCardsInPlay := newCardsInPlay s; heap := heap s;
     failedCardsLevel1 := failedCardsLevel1 s;
     failedCardsLevel2 := failedCardsLevel2 s; history := history s;
     currentCard := currentCard s; nextCard := nextCard s;
     availableCards := availableCards s;
     savingProgress := savingProgress s;
     loadingAvailableCards := loadingAvailableCards s |}.

(** The card-holding fields. *)
Definition with_cards (hp f1 f2 hist : list cardref) (cur next : jsval)
    (s : ReviewState) : ReviewState :=
  {| phase := phase s; reviewTime := reviewTime s; maxCards := maxCards s;
     maxNewCards := maxNewCards s; completed := completed s;
     newCardsInPlay := newCardsInPlay s; heap := hp;
     failedCardsLevel1 := f1; failedCardsLevel2 := f2; history := hist;
     currentCard := cur; nextCard := next;
     availableCards := availableCards s;
     savingProgress := savingProgress s;
     loadingAvailableCards := loadingAvailableCards s |}.

Definition with_counters (c n : Z) (s : ReviewState) : ReviewState :=
  {| phase := phase s; reviewTime := reviewTime s; maxCards := maxCards s;
     maxNewCards := maxNewCards s; completed := c;
     newCardsInPlay := n; heap := heap s;
     failedCardsLevel1 := failedCardsLevel1 s;
     failedCardsLevel2 := failedCardsLevel2 s; history := history s;
     currentCard := currentCard s; nextCard := nextCard s;
     availableCards := availableCards s;
     savingProgress := savingProgress s;
     loadingAvailableCards := loadingAvailableCards s |}.

Definition with_savingProgress (b : bool) (s : ReviewState) : ReviewState :=
  {| phase := phase s; reviewTime := reviewTime s; maxCards := maxCards s;
     maxNewCards := maxNewCards s; completed := completed s;
     newCardsInPlay := newCardsInPlay s; heap := heap s;
     failedCardsLevel1 := failedCardsLevel1 s;
     failedCardsLevel2 := failedCardsLevel2 s; history := history s;
     currentCard := currentCard s; nextCard := nextCard s;
     availableCards := availableCards s;
     savingProgress := b;
     loadingAvailableCards := loadingAvailableCards s |}.

Definition with_available (a : option AvailableCards) (loading : bool)
    (s : ReviewState) : ReviewState :=
  {| phase := phase s; reviewTime := reviewTime s; maxCards := maxCards s;
     maxNewCards := maxNewCards s; completed := completed s;
     newCardsInPlay := newCardsInPlay s; heap := heap s;
     failedCardsLevel1 := failedCardsLevel1 s;
     failedCardsLevel2 := failedCardsLevel2 s; history := history s;
     currentCard := currentCard s; nextCard := nextCard s;
     availableCards := a;
     savingProgress := savingProgress s;
     loadingAvailableCards := loading |}.

(** *** Actions *)

Inductive ReviewAction :=
| NEW_REVIEW (maxCards maxNewCards : Z)
| SET_REVIEW_LIMIT (maxCards maxNewCards : Z)
| SET_REVIEW_TIME (reviewTime : Z)
| REVIEW_LOADED (cards : list cardref)
    (history failedCardsLevel1 failedCardsLevel2 : option (list cardref))
    (nextCardSeed currentCardSeed : Q) (initialReview : bool)
| PASS_CARD (nextCardSeed : Q)
| SHOW_ANSWER
| FAIL_CARD (nextCardSeed : Q)
| FINISH_UPDATE_PROGRESS
| QUERY_AVAILABLE_CARDS
| UPDATE_AVAILABLE_CARDS (availableCards : AvailableCards)
| UPDATE_REVIEW_CARD (card : cardref)
| DELETE_REVIEW_CARD (id : string) (nextCardSeed : Q)
| LOAD_REVIEW (maxCards maxNewCards completed newCardsCompleted : Z)
| CANCEL_REVIEW
| OTHER_ACTION.

Inductive UpdateMode := UpdateCurrentCard | ReplaceNextCard.

#[global] Instance UpdateMode_eq_dec : EqDecision UpdateMode.
Proof. solve_decision. Defined.

(** *** [updateNextCard] *)

(** [progress && progress.level === 0 && progress.reviewed === null] *)
Definition isNewCard (σ : Store) (c : cardref) : bool :=
  match progressOf σ c with
  | Some pr => Qeq_bool (level pr) 0 && bool_decide (reviewed pr = None)
  | None => false
  end.

(** [getCardAtIndex]: indexes the concatenation of the two failed queues
    of [state] and the (local) [heap]. *)
Definition getCardAtIndex (state : ReviewState) (heap : list cardref)
    (cardIndex : Z) : jsval :=
  let level1Start := len (failedCardsLevel2 state) in
  let heapStart :=
    len (failedCardsLevel2 state) + len (failedCardsLevel1 state) in
  if cardIndex <? level1Start then
    at_index (failedCardsLevel2 state) cardIndex
  else if cardIndex <? heapStart then
    at_index (failedCardsLevel1 state) (cardIndex - level1Start)
  else at_index heap (cardIndex - heapStart).

(** The "Update current card" block: yields the local variables
    [currentCard], [heap], [cardsAvailable], [newCardsInPlay]. *)
Definition takeCurrentCard (σ : Store) (state : ReviewState)
    (updateMode : UpdateMode) (cardsAvailable : Z)
  : jsval * list cardref * Z * Z :=
  match updateMode with
  | UpdateCurrentCard =>
      let currentCard := nextCard state in
      let heapIndex :=
        match currentCard with
        | JCard c => indexOf (heap state) c
        | _ => None
        end in
      match currentCard, heapIndex with
      | JCard c, Some i =>
          (currentCard, delete i (heap state), cardsAvailable - 1,
           if isNewCard σ c then newCardsInPlay state + 1
           else newCardsInPlay state)
      | _, _ =>
          (currentCard, heap state, cardsAvailable, newCardsInPlay state)
      end
  | ReplaceNextCard =>
      (currentCard state, heap state, cardsAvailable, newCardsInPlay state)
  end.

(** The "Find next card" block. *)
Definition findNextCard (state : ReviewState) (heap : list cardref)
    (currentCard : jsval) (cardsAvailable : Z) (seed : Q) : jsval :=
  if cardsAvailable =? 0 then JNull
  else
    let cardIndex := Qfloor (seed * inject_Z cardsAvailable) in
    let nextCard := getCardAtIndex state heap cardIndex in
    if decide (nextCard = currentCard) then
      if cardsAvailable =? 1 then JNull
      else
        getCardAtIndex state heap
          (if cardIndex <? cardsAvailable - 1 then cardIndex + 1
           else cardIndex - 1)
    else nextCard.

Definition updateNextCard (σ : Store) (state : ReviewState) (seed : Q)
    (updateMode : UpdateMode) : ReviewState :=
  let cardsAvailable :=
    len (failedCardsLevel2 state) + len (failedCardsLevel1 state)
    + len (heap state) in
  if cardsAvailable =? 0 then
    if bool_decide (updateMode = UpdateCurrentCard)
       || negb (truthy (currentCard state)) then
      with_phase COMPLETE
        (with_cards (heap state) (failedCardsLevel1 state)
           (failedCardsLevel2 state) (history state) JNull JNull state)
    else
      with_cards (heap state) (failedCardsLevel1 state)
        (failedCardsLevel2 state) (history state) (currentCard state)
        JNull state
  else
    let '(currentCard0, heap', cardsAvailable', newCardsInPlay') :=
      takeCurrentCard σ state updateMode cardsAvailable in
    let nextCard0 :=
      findNextCard state heap' currentCard0 cardsAvailable' seed in
    (* If the current card went null, but we have a next card then we
       must have just failed the last card and should revisit it. *)
    let '(currentCard1, nextCard1) :=
      if negb (truthy currentCard0) && truthy (currentCard state)
         && truthy nextCard0
      then (nextCard0, JNull)
      else (currentCard0, nextCard0) in
    (* Drop current card from history *)
    let history' :=
      match currentCard1 with
      | JCard c => spliceAt (indexOf (history state) c) (history state)
      | _ => history state
      end in
    with_counters (completed state) newCardsInPlay'
      (with_cards heap' (failedCardsLevel1 state) (failedCardsLevel2 state)
         history' currentCard1 nextCard1 state).

(** *** The reducer

    [review σ state action] returns the new state together with the
    object store after the call; [None] stands for a thrown [TypeError]
    (PASS_CARD / FAIL_CARD dereference [state.currentCard.progress]). *)

Definition reviewing (state : ReviewState) : bool :=
  bool_decide (phase state = ANSWER) || bool_decide (phase state = QUESTION).

(** [Math.max(a, b, c)] *)
Definition max3 (a b c : Q) : Q := Qmax (Qmax a b) c.

(** The level assigned by PASS_CARD to a card leaving the review. *)
Definition passedLevel (reviewTime : Z) (pr : Progress) : Q :=
  match reviewed pr with
  | Some r =>
      if negb (Qeq_bool (level pr) 0) then
        let intervalInDays :=
          (inject_Z (reviewTime - r) / inject_Z MS_PER_DAY)%Q in
        max3 (intervalInDays * 2)%Q (level pr) (1 # 2)%Q
      else (1 # 2)%Q
  | None => (1 # 2)%Q
  end.

(** The "Update the passed card" block of PASS_CARD: the writes through
    [updatedCard.progress]. *)
Definition updatePassedCard (σ : Store) (reviewTime : Z) (card : Card)
    (pr : Progress) (finished : bool) : Store :=
  if finished then
    set_reviewed
      (set_level σ (progress card) (passedLevel reviewTime pr))
      (progress card) (Some reviewTime)
  else
    (* force the progress to zero *)
    set_level σ (progress card) 0%Q.

Definition passCard (σ : Store) (state : ReviewState) (nextCardSeed : Q)
  : option (Store * ReviewState) :=
  match currentCard state with
  | JCard passedCard =>
      card ← cards σ !! passedCard;
      let '(updatedCard, σ1) := spread σ card in
      (* Update failed queues *)
      let '(finished, failedCardsLevel1', failedCardsLevel2') :=
        match indexOf (failedCardsLevel2 state) passedCard with
        | Some failedIndex =>
            (false,
             failedCardsLevel1 state ++ [updatedCard],
             delete failedIndex (failedCardsLevel2 state))
        | None =>
            (true,
             spliceAt (indexOf (failedCardsLevel1 state) passedCard)
               (failedCardsLevel1 state),
             failedCardsLevel2 state)
        end in
      (* Update the passed card *)
      pr ← progresses σ1 !! progress card;
      let σ2 := updatePassedCard σ1 (reviewTime state) card pr finished in
      let completed' :=
        if finished then completed state + 1 else completed state in
      let history' := history state ++ [updatedCard] in
      let intermediateState :=
        with_savingProgress true
          (with_phase QUESTION
             (with_counters completed' (newCardsInPlay state)
                (with_cards (heap state) failedCardsLevel1'
                   failedCardsLevel2' history' (JCard updatedCard)
                   (nextCard state) state))) in
      Some (σ2, updateNextCard σ2 intermediateState nextCardSeed
                  UpdateCurrentCard)
  | _ => None
  end.

Definition failCard (σ : Store) (state : ReviewState) (nextCardSeed : Q)
  : option (Store * ReviewState) :=
  match currentCard state with
  | JCard failedCard =>
      card ← cards σ !! failedCard;
      let '(updatedCard, σ1) := spread σ card in
      (* Remove from queue one if it's there *)
      let failedIndex := indexOf (failedCardsLevel1 state) failedCard in
      let failedCardsLevel1' := spliceAt failedIndex (failedCardsLevel1 state) in
      (* Append to queue 2 but remove it first if it's already there *)
      let failedCardsLevel2' :=
        match failedIndex with
        | None =>
            spliceAt (indexOf (failedCardsLevel2 state) failedCard)
              (failedCardsLevel2 state)
        | Some _ => failedCardsLevel2 state
        end ++ [updatedCard] in
      (* Update the failed card *)
      _ ← progresses σ1 !! progress card;
      let σ2 :=
        set_reviewed (set_level σ1 (progress card) 0%Q)
          (progress card) (Some (reviewTime state)) in
      let history' := history state ++ [updatedCard] in
      let intermediateState :=
        with_savingProgress true
          (with_phase QUESTION
             (with_cards (heap state) failedCardsLevel1'
                failedCardsLevel2' history' (JCard updatedCard)
                (nextCard state) state)) in
      Some (σ2, updateNextCard σ2 intermediateState nextCardSeed
                  UpdateCurrentCard)
  | _ => None
  end.

(** UPDATE_REVIEW_CARD replaces, in every card-holding field, the cards
    whose [_id] is that of [action.card].  (Whether a field goes through
    [update] or is kept is not visible on values: an unchanged array is
    equal to its [map].) *)
Definition replaceCard (σ : Store) (card : cardref) (c : cardref) : cardref :=
  if sameId σ c card then card else c.

Definition replaceValue (σ : Store) (card : cardref) (v : jsval) : jsval :=
  match v with
  | JCard c => JCard (replaceCard σ card c)
  | _ => v
  end.

Definition updateReviewCard (σ : Store) (state : ReviewState)
    (card : cardref) : ReviewState :=
  with_cards
    (replaceCard σ card <$> heap state)
    (replaceCard σ card <$> failedCardsLevel1 state)
    (replaceCard σ card <$> failedCardsLevel2 state)
    (replaceCard σ card <$> history state)
    (replaceValue σ card (currentCard state))
    (replaceValue σ card (nextCard state))
    state.

(** [value && value._id === id] *)
Definition valueHasId (σ : Store) (id : string) (v : jsval) : bool :=
  match v with
  | JCard c => hasId σ id c
  | _ => false
  end.

Definition deleteReviewCard (σ : Store) (state : ReviewState)
    (id : string) (nextCardSeed : Q) : ReviewState :=
  let drop (xs : list cardref) := spliceAt (findIndex (hasId σ id) xs) xs in
  (* { ...state, ...update } *)
  let updated (cur : jsval) :=
    with_cards (drop (heap state)) (drop (failedCardsLevel1 state))
      (drop (failedCardsLevel2 state)) (drop (history state))
      cur (nextCard state) state in
  if valueHasId σ id (nextCard state) then
    updateNextCard σ (updated (currentCard state)) nextCardSeed
      ReplaceNextCard
  else if valueHasId σ id (currentCard state) then
    updateNextCard σ (updated JNull) nextCardSeed UpdateCurrentCard
  else updated (currentCard state).

Definition reviewLoaded (σ : Store) (state : ReviewState)
    (cards : list cardref)
    (history' failedCardsLevel1' failedCardsLevel2' : option (list cardref))
    (nextCardSeed currentCardSeed : Q) (initialReview : bool)
  : ReviewState :=
  (* heap := action.cards, and the extra fields when they are defined *)
  let updatedState :=
    with_cards cards
      (default (failedCardsLevel1 state) failedCardsLevel1')
      (default (failedCardsLevel2 state) failedCardsLevel2')
      (default (history state) history')
      (currentCard state) (nextCard state) state in
  (* Update the next card *)
  let updatedState :=
    updateNextCard σ updatedState nextCardSeed ReplaceNextCard in
  let updatedState :=
    if truthy (nextCard updatedState)
       && negb (truthy (currentCard updatedState))
    then updateNextCard σ updatedState currentCardSeed UpdateCurrentCard
    else updatedState in
  (* If we were complete but now have cards we need to go back to the
     question state. *)
  let updatedState :=
    if (bool_decide (phase updatedState = COMPLETE)
        || bool_decide (phase updatedState = LOADING))
       && truthy (currentCard updatedState)
    then with_phase QUESTION updatedState
    else updatedState in
  (* If we are complete but this is the initial load, then it makes more
     sense to show the user the idle state. *)
  if bool_decide (phase updatedState = COMPLETE) && initialReview
  then with_phase IDLE updatedState
  else updatedState.

Definition review (σ : Store) (state : ReviewState) (action : ReviewAction)
  : option (Store * ReviewState) :=
  match action with
  | NEW_REVIEW maxCards maxNewCards =>
      Some (σ, with_limits LOADING maxCards maxNewCards
                 (initialState (reviewTime state)))
  | SET_REVIEW_LIMIT maxCards maxNewCards =>
      Some (σ, with_limits LOADING maxCards maxNewCards state)
  | SET_REVIEW_TIME reviewTime =>
      Some (σ, with_reviewTime reviewTime state)
  | REVIEW_LOADED cards history failedCardsLevel1 failedCardsLevel2
      nextCardSeed currentCardSeed initialReview =>
      Some (σ, reviewLoaded σ state cards history failedCardsLevel1
                 failedCardsLevel2 nextCardSeed currentCardSeed
                 initialReview)
  | PASS_CARD nextCardSeed =>
      if reviewing state then passCard σ state nextCardSeed
      else Some (σ, state)
  | SHOW_ANSWER =>
      if bool_decide (phase state = QUESTION)
      then Some (σ, with_phase ANSWER state)
      else Some (σ, state)
  | FAIL_CARD nextCardSeed =>
      if reviewing state then failCard σ state nextCardSeed
      else Some (σ, state)
  | FINISH_UPDATE_PROGRESS =>
      if savingProgress state
      then Some (σ, with_savingProgress false state)
      else Some (σ, state)
  | QUERY_AVAILABLE_CARDS =>
      Some (σ, with_available (availableCards state) true state)
  | UPDATE_AVAILABLE_CARDS availableCards =>
      if bool_decide (phase state = IDLE)
         || bool_decide (phase state = COMPLETE)
      then Some (σ, with_available (Some availableCards) false state)
      else Some (σ, with_available None false state)
  | UPDATE_REVIEW_CARD card => Some (σ, updateReviewCard σ state card)
  | DELETE_REVIEW_CARD id nextCardSeed =>
      Some (σ, deleteReviewCard σ state id nextCardSeed)
  | LOAD_REVIEW maxCards maxNewCards completed newCardsCompleted =>
      Some (σ,
            with_counters completed newCardsCompleted
              (with_limits LOADING maxCards maxNewCards
                 (with_cards (heap state) (failedCardsLevel1 state)
                    (failedCardsLevel2 state) (history state)
                    JNull JNull state)))
  | CANCEL_REVIEW =>
      if bool_decide (phase state = IDLE)
         || bool_decide (phase state = COMPLETE)
      then Some (σ, state)
      else
        Some (σ,
              with_counters 0 0
                (with_limits IDLE 0 0
                   (with_cards [] [] [] [] JNull JNull state)))
  | OTHER_ACTION => Some (σ, state)
  end.

(** Running a list of actions from a state. *)
Fixpoint run (σ : Store) (state : ReviewState) (actions : list ReviewAction)
  : option (Store * ReviewState) :=
  match actions with
  | [] => Some (σ, state)
  | a :: rest =>
      '(σ', state') ← review σ state a;
      run σ' state' rest
  end.

End Review.

(** ** Replicating document store *)

Module DocStore.

(** [CardContent] and [ProgressContent]: the bodies of the two kinds of
    stored documents. *)
Record CardContent := {
  front : string;
  back : string;
  keywords : option (list string);
  tags : option (list string);
  starred : option bool;
  created : Z;
  modified : Z;
}.

Record ProgressContent := {
  level : Q;
  due : Z;
}.

Inductive Content :=
| CardDoc (c : CardContent)
| ProgressDoc (p : ProgressContent).

(** A stored document: its current revision, the tombstone flag and the
    body. *)
Record Entry := {
  rev : nat;
  deleted : bool;
  content : Content;
}.

Abbreviation DB := (gmap string Entry).

Inductive PouchError :=
| NotFoundMissing     (* status 404, reason "missing" *)
| NotFoundDeleted     (* status 404, reason "deleted" *)
| Conflict.           (* status 409 *)

Definition status (e : PouchError) : Z :=
  match e with
  | NotFoundMissing | NotFoundDeleted => 404
  | Conflict => 409
  end.

Inductive result (A : Type) :=
| Ok (a : A)
| Err (e : PouchError).
Arguments Ok {A} a.
Arguments Err {A} e.

(** Modelled from the spec: the replicating document store is an
    external collaborator (PouchDB), not part of the repository.  Section
    6 asks of it get/put/delete-by-id with revision conflict detection
    (409 on a stale write) and an upsert primitive; this is a
    single-client store with exactly that. *)
Definition db_get (db : DB) (id : string) : result Entry :=
  match db !! id with
  | None => Err NotFoundMissing
  | Some e => if deleted e then Err NotFoundDeleted else Ok e
  end.

(** Whether [db.get(id)] finds a document. *)
Definition live (db : DB) (id : string) : bool :=
  match db_get db id with
  | Ok _ => true
  | Err _ => false
  end.

(** Modelled from the spec: [db.put(doc)]; [r] is the [_rev] of [doc],
    [None] when [doc] carries none.  Returns the new revision. *)
Definition db_put (db : DB) (id : string) (r : option nat) (c : Content)
  : result nat * DB :=
  match db !! id with
  | None =>
      match r with
      | None =>
          (Ok 1%nat, <[id := {| rev := 1; deleted := false; content := c |}]> db)
      | Some _ => (Err Conflict, db)
      end
  | Some e =>
      if deleted e || bool_decide (r = Some (rev e)) then
        (Ok (S (rev e)),
         <[id := {| rev := S (rev e); deleted := false; content := c |}]> db)
      else (Err Conflict, db)
  end.

(** Modelled from the spec: [db.remove({_id, _rev})] leaves a tombstone. *)
Definition db_remove (db : DB) (id : string) (r : nat) : result nat * DB :=
  match db !! id with
  | None => (Err NotFoundMissing, db)
  | Some e =>
      if deleted e then (Err NotFoundDeleted, db)
      else if bool_decide (r = rev e) then
        (Ok (S (rev e)),
         <[id := {| rev := S (rev e); deleted := true;
                    content := content e |}]> db)
      else (Err Conflict, db)
  end.

(** Modelled from the spec: [db.upsert(id, diffFun)].  [diffFun] gets the
    current document, or [None] (the empty object) on a 404, and answers
    with what it captured and the document to write, [None] for
    [false].  With a single client the write never conflicts. *)
Definition upsert {A} (db : DB) (id : string)
    (diffFun : option Content -> A * option Content) : A * DB :=
  match db_get db id with
  | Ok e =>
      let '(a, newDoc) := diffFun (Some (content e)) in
      match newDoc with
      | Some c => (a, snd (db_put db id (Some (rev e)) c))
      | None => (a, db)
      end
  | Err _ =>
      let '(a, newDoc) := diffFun None in
      match newDoc with
      | Some c => (a, snd (db_put db id None c))
      | None => (a, db)
      end
  end.

(** Modelled from the spec: [stubbornDelete(id, db)] of [store/utils],
    whose source is not available; sections 2 and 3 describe it as a
    removal that is retried on a revision conflict, and section 4.1 says
    deleting a nonexistent id succeeds silently.  [fuel] bounds the
    retries. *)
Fixpoint stubbornDelete (fuel : nat) (id : string) (db : DB)
  : option (result unit * DB) :=
  match fuel with
  | O => None
  | S fuel' =>
      match db_get db id with
      | Err e =>
          if status e =? 404 then Some (Ok tt, db) else Some (Err e, db)
      | Ok doc =>
          match db_remove db id (rev doc) with
          | (Ok _, db') => Some (Ok tt, db')
          | (Err e, db') =>
              if status e =? 409 then stubbornDelete fuel' id db'
              else Some (Err e, db')
          end
      end
  end.

End DocStore.

(** ** Card/progress store *)

Module CardStore.

Import DocStore.

Definition CARD_PREFIX : string := "card-".
Definition PROGRESS_PREFIX : string := "progress-".

(** The logical card handed to callers. *)
Module Model.
Record Progress := {
  level : Q;
  due : option Z;     (* Date | null *)
}.

Record Card := {
  id : string;
  front : string;
  back : string;
  keywords : list string;
  tags : list string;
  starred : bool;
  created : Z;
  modified : Z;
  progress : Progress;
}.
End Model.

(** [Partial<Card>]: the argument of [putCard]; [None] is an absent
    key. *)
Module Partial.
Record Progress := {
  level : option Q;
  due : option (option Z);
}.

Record Card := {
  id : option string;
  front : option string;
  back : option string;
  keywords : option (list string);
  tags : option (list string);
  starred : option bool;
  created : option Z;
  modified : option Z;
  progress : option Progress;
}.
End Partial.

(** Whether a key is present. *)
Definition present {A} (o : option A) : bool :=
  match o with Some _ => true | None => false end.

(** [Object.keys(stripFields(card, ['id', 'progress'])).length] is not
    zero. *)
Definition hasContentKeys (u : Partial.Card) : bool :=
  present (Partial.front u) || present (Partial.back u)
  || present (Partial.keywords u) || present (Partial.tags u)
  || present (Partial.starred u) || present (Partial.created u)
  || present (Partial.modified u).

(** A [CardContent] seen as an update (every key present but the
    optional ones). *)
Definition asUpdate (c : CardContent) : Partial.Card := {|
  Partial.id := None;
  Partial.front := Some (front c);
  Partial.back := Some (back c);
  Partial.keywords := keywords c;
  Partial.tags := tags c;
  Partial.starred := starred c;
  Partial.created := Some (created c);
  Partial.modified := Some (modified c);
  Partial.progress := None;
|}.

Definition parseCard (_id : string) (card : CardContent)
    (progress : Model.Progress) : Model.Card := {|
  Model.id := _id;
  Model.front := front card;
  Model.back := back card;
  Model.keywords := default [] (keywords card);
  Model.tags := default [] (tags card);
  Model.starred := default false (starred card);
  Model.created := created card;
  Model.modified := modified card;
  Model.progress := progress;
|}.

Definition parseProgress (progress : ProgressContent) : Model.Progress := {|
  Model.level := level progress;
  Model.due := if due progress =? 0 then None else Some (due progress);
|}.

(** [mergeDocs]; [id] is the card document's [_id] with the prefix
    stripped. *)
Definition mergeDocs (id : string) (card : CardContent)
    (progress : ProgressContent) : Model.Card :=
  parseCard id card (parseProgress progress).

Section WithNormalize.

(** [String.prototype.normalize()]: Unicode NFC normalisation. *)
Variable normalize : string -> string.

Definition normalizeCardForDB (cardContent : CardContent)
    (update : Partial.Card) : CardContent :=
  let dropEmpty (u : option (list string)) (v : option (list string)) :=
    match u with
    | Some [] => None
    | _ => v
    end in
  {| front := normalize (front cardContent);
     back := normalize (back cardContent);
     keywords :=
       map normalize
         <$> dropEmpty (Partial.keywords update) (keywords cardContent);
     tags :=
       map normalize
         <$> dropEmpty (Partial.tags update) (tags cardContent);
     starred :=
       match Partial.starred update with
       | Some false => None
       | _ => starred cardContent
       end;
     created := created cardContent;
     modified := modified cardContent |}.

(** [tryPutNewCard]; [more] is what further calls of
    [generateUniqueTimestampId] return, [None] is an exhausted
    supply. *)
Fixpoint tryPutNewCard (card : CardContent) (progress : ProgressContent)
    (db : DB) (id : string) (more : list string)
  : option (result Model.Card * DB) :=
  match db_put db (CARD_PREFIX +:+ id) None (CardDoc card) with
  | (Err err, db1) =>
      if negb (status err =? 409) then Some (Err err, db1)
      else
        (* If we put the card and there was a conflict, it must mean we
           chose an overlapping ID. Just keep trying until it succeeds. *)
        match more with
        | id' :: more' => tryPutNewCard card progress db1 id' more'
        | [] => None
        end
  | (Ok putCardResponse_rev, db1) =>
      match db_put db1 (PROGRESS_PREFIX +:+ id) None (ProgressDoc progress)
      with
      | (Err err, db2) =>
          match db_remove db2 (CARD_PREFIX +:+ id) putCardResponse_rev with
          | (Err err', db3) => Some (Err err', db3)
          | (Ok _, db3) => Some (Err err, db3)
          end
      | (Ok _, db2) => Some (Ok (mergeDocs id card progress), db2)
      end
  end.

Definition _putNewCard (db : DB) (card : Partial.Card) (now : Z)
    (id : string) (more : list string)
  : option (result Model.Card * DB) :=
  let cardContent := {|
    front := default "" (Partial.front card);
    back := default "" (Partial.back card);
    keywords := Partial.keywords card;
    tags := Partial.tags card;
    starred := Partial.starred card;
    created := now;
    modified := now;
  |} in
  let cardContent := normalizeCardForDB cardContent (asUpdate cardContent) in
  let progressContent := {|
    level := default 0%Q (Partial.progress card ≫= Partial.level);
    due :=
      match Partial.progress card ≫= Partial.due with
      | Some (Some d) => d
      | _ => 0
      end;
  |} in
  tryPutNewCard cardContent progressContent db id more.

(** [{ ...doc, ...update }] on the card fields. *)
Definition applyUpdate (doc : CardContent) (update : Partial.Card)
  : CardContent := {|
  front := default (front doc) (Partial.front update);
  back := default (back doc) (Partial.back update);
  keywords :=
    match Partial.keywords update with Some k => Some k | None => keywords doc end;
  tags :=
    match Partial.tags update with Some k => Some k | None => tags doc end;
  starred :=
    match Partial.starred update with Some b => Some b | None => starred doc end;
  created := default (created doc) (Partial.created update);
  modified := default (modified doc) (Partial.modified update);
|}.

Definition with_modified (t : Z) (c : CardContent) : CardContent :=
  {| front := front c; back := back c; keywords := keywords c;
     tags := tags c; starred := starred c; created := created c;
     modified := t |}.

Definition _updateCard (db : DB) (id : string) (update : Partial.Card)
    (now : Z) : result CardContent * DB :=
  let '(card, db') :=
    upsert db (CARD_PREFIX +:+ id) (fun doc =>
      match doc with
      | Some (CardDoc doc) =>
          let card := applyUpdate doc update in
          if negb (hasContentKeys update) then (Some card, None)
          else
            let card :=
              with_modified now (normalizeCardForDB card update) in
            (Some card, Some (CardDoc card))
      | _ =>
          (* Doc was not found -- must have been deleted *)
          (None, None)
      end) in
  match card with
  | Some card => (Ok card, db')
  | None => (Err NotFoundMissing, db')
  end.

Definition _updateProgress (db : DB) (id : string)
    (update : Partial.Progress) : result ProgressContent * DB :=
  let '(progress, db') :=
    upsert db (PROGRESS_PREFIX +:+ id) (fun doc =>
      match doc with
      | Some (ProgressDoc progress) =>
          (* update.due instanceof Date
             && progress.due !== update.due.getTime() *)
          let dueChange :=
            match Partial.due update with
            | Some (Some d) =>
                if due progress =? d then None else Some d
            | _ => None
            end in
          (* typeof update.level === 'number'
             && progress.level !== update.level *)
          let levelChange :=
            match Partial.level update with
            | Some l =>
                if Qeq_bool (level progress) l then None else Some l
            | None => None
            end in
          let progress' :=
            {| level := default (level progress) levelChange;
               due := default (due progress) dueChange |} in
          let hasChange := present dueChange || present levelChange in
          if hasChange then (Some progress', Some (ProgressDoc progress'))
          else (Some progress', None)
      | _ => (None, None)
      end) in
  match progress with
  | Some progress => (Ok progress, db')
  | None => (Err NotFoundMissing, db')
  end.

(** The value of [card] once the function given to [upsert] in
    [_updateCard] has run on [doc], and of [progress] in
    [_updateProgress]. *)
Definition updatedCardDoc (doc : CardContent) (update : Partial.Card)
    (now : Z) : CardContent :=
  let card := applyUpdate doc update in
  if negb (hasContentKeys update) then card
  else with_modified now (normalizeCardForDB card update).

Definition updatedProgressDoc (progress : ProgressContent)
    (update : Partial.Progress) : ProgressContent :=
  {| level :=
       match Partial.level update with
       | Some l => if Qeq_bool (level progress) l then level progress else l
       | None => level progress
       end;
     due :=
       match Partial.due update with
       | Some (Some d) => if due progress =? d then due progress else d
       | _ => due progress
       end |}.

(** [putCard]; [id] and [more] are the ids [generateUniqueTimestampId]
    hands out, used only when a new card is created. *)
Definition putCard (db : DB) (card : Partial.Card) (now : Z)
    (id : string) (more : list string)
  : option (result Model.Card * DB) :=
  match Partial.id card with
  | Some cardId =>
      if bool_decide (cardId = "") then _putNewCard db card now id more
      else
        match _updateCard db cardId card now with
        | (Err e, db1) => Some (Err e, db1)
        | (Ok cardDoc, db1) =>
            let progressUpdate :=
              default {| Partial.level := None; Partial.due := None |}
                (Partial.progress card) in
            match _updateProgress db1 cardId progressUpdate with
            | (Err e, db2) => Some (Err e, db2)
            | (Ok progressDoc, db2) =>
                Some (Ok (mergeDocs cardId cardDoc progressDoc), db2)
            end
        end
  | None => _putNewCard db card now id more
  end.

End WithNormalize.

Definition getCard (db : DB) (id : string) : result Model.Card :=
  match db_get db (CARD_PREFIX +:+ id) with
  | Err e => Err e
  | Ok card =>
      match db_get db (PROGRESS_PREFIX +:+ id) with
      | Err e => Err e
      | Ok progress =>
          match content card, content progress with
          | CardDoc c, ProgressDoc p => Ok (mergeDocs id c p)
          | _, _ => Err NotFoundMissing
          end
      end
  end.

Definition deleteCard (fuel : nat) (db : DB) (id : string)
  : option (result unit * DB) :=
  match stubbornDelete fuel (CARD_PREFIX +:+ id) db with
  | Some (Ok _, db1) => stubbornDelete fuel (PROGRESS_PREFIX +:+ id) db1
  | other => other
  end.

(** *** Overdueness

    The score is a JavaScript number, and [Math.exp] overflows: the
    arithmetic is modelled exactly inside the range of binary64 and with
    its overflow beyond it.  A result whose magnitude reaches
    [2^1024 - 2^970] (what rounds past [Number.MAX_VALUE]) is an
    infinity.  Rounding inside the range is not modelled, nor are signed
    zeros (a zero is [+0]). *)

Inductive number :=
| Num (x : R)
| PosInfinity
| NegInfinity
| NaN.

Definition OVERFLOW : R := IZR (2 ^ 1024 - 2 ^ 970).

Definition overflow (x : R) : number :=
  if Rle_dec OVERFLOW x then PosInfinity
  else if Rle_dec x (- OVERFLOW) then NegInfinity
  else Num x.

(** The infinity with the sign of [x]; [NaN] for zero. *)
Definition signed_infinity (x : R) : number :=
  if Rlt_dec 0 x then PosInfinity
  else if Rlt_dec x 0 then NegInfinity
  else NaN.

Definition num_neg (a : number) : number :=
  match a with
  | Num x => Num (- x)
  | PosInfinity => NegInfinity
  | NegInfinity => PosInfinity
  | NaN => NaN
  end.

(** [a + b] *)
Definition num_add (a b : number) : number :=
  match a, b with
  | NaN, _ | _, NaN => NaN
  | PosInfinity, NegInfinity | NegInfinity, PosInfinity => NaN
  | PosInfinity, _ | _, PosInfinity => PosInfinity
  | NegInfinity, _ | _, NegInfinity => NegInfinity
  | Num x, Num y => overflow (x + y)
  end.

(** [a - b] *)
Definition num_sub (a b : number) : number := num_add a (num_neg b).

(** [a * b] *)
Definition num_mul (a b : number) : number :=
  match a, b with
  | NaN, _ | _, NaN => NaN
  | Num x, Num y => overflow (x * y)
  | Num x, PosInfinity | PosInfinity, Num x => signed_infinity x
  | Num x, NegInfinity | NegInfinity, Num x => signed_infinity (- x)
  | PosInfinity, PosInfinity | NegInfinity, NegInfinity => PosInfinity
  | PosInfinity, NegInfinity | NegInfinity, PosInfinity => NegInfinity
  end.

(** [a / b] *)
Definition num_div (a b : number) : number :=
  match a, b with
  | NaN, _ | _, NaN => NaN
  | Num x, Num y =>
      if Req_dec_T y 0 then signed_infinity x else overflow (x / y)
  | Num _, _ => Num 0
  | PosInfinity, Num y => if Rlt_dec y 0 then NegInfinity else PosInfinity
  | NegInfinity, Num y => if Rlt_dec y 0 then PosInfinity else NegInfinity
  | _, _ => NaN
  end.

(** [Math.exp(a)] *)
Definition Math_exp (a : number) : number :=
  match a with
  | Num x => overflow (exp x)
  | PosInfinity => PosInfinity
  | NegInfinity => Num 0
  | NaN => NaN
  end.

(** [a < b] *)
Definition num_lt (a b : number) : Prop :=
  match a, b with
  | NaN, _ | _, NaN => False
  | _, NegInfinity | PosInfinity, _ => False
  | NegInfinity, _ | _, PosInfinity => True
  | Num x, Num y => (x < y)%R
  end.

Definition MS_PER_DAY : Z := 1000 * 60 * 60 * 24.

Definition EXP_FACTOR : R := (225 / 100000)%R.

Definition getOverdueness (doc : ProgressContent) (reviewTimeAsNumber : Z)
  : number :=
  let daysOverdue :=
    num_div (Num (IZR (reviewTimeAsNumber - due doc)))
      (Num (IZR MS_PER_DAY)) in
  let linearComponent := num_div daysOverdue (Num (Q2R (level doc))) in
  let expComponent :=
    num_sub (Math_exp (num_mul (Num EXP_FACTOR) daysOverdue)) (Num 1) in
  num_add linearComponent expComponent.

End CardStore.

(** ** Review sagas *)

Module Sagas.

Import Review.

(** [updateHeap]: the number of cards the review can still take in, and
    how many of them may be new cards. *)
Definition freeSlots (reviewInfo : ReviewState) : Z :=
  Z.max 0
    (maxCards reviewInfo - completed reviewInfo
     - len (failedCardsLevel1 reviewInfo)
     - len (failedCardsLevel2 reviewInfo)
     - (if truthy (currentCard reviewInfo) then 1 else 0)).

Definition newCardSlots (reviewInfo : ReviewState) : Z :=
  Z.max
    (Z.min (maxNewCards reviewInfo - newCardsInPlay reviewInfo)
       (freeSlots reviewInfo))
    0.

Inductive CardType := NewCards | OverdueCards.

(** [updateHeap], from the state it selects to the cards it puts in
    REVIEW_LOADED ([None]: it returns without loading).
    [getCards limit type skipFailedCards] stands for the call of
    [cardStore.getCards], [idle] for
    [reviewInfo.reviewState === ReviewState.IDLE]. *)
Definition updateHeap_cards
    (getCards : Z -> CardType -> bool -> list cardref)
    (idle : bool) (reviewInfo : ReviewState) (action : ReviewAction)
  : option (list cardref) :=
  (* Don't update if we're idle. *)
  if idle then None
  else
    let freeSlots0 := freeSlots reviewInfo in
    let newCardSlots := newCardSlots reviewInfo in
    (* First fill up with the maximum number of new cards *)
    let cards :=
      if newCardSlots =? 0 then []
      else getCards newCardSlots NewCards false in
    let freeSlots1 :=
      if newCardSlots =? 0 then freeSlots0 else freeSlots0 - len cards in
    (* Now fill up the overdue slots *)
    if freeSlots1 =? 0 then Some cards
    else
      let skipFailedCards :=
        match action with
        | SET_REVIEW_LIMIT _ _ | SET_REVIEW_TIME _ => true
        | _ => false
        end in
      Some (cards ++ getCards freeSlots1 OverdueCards skipFailedCards).

(** [updateProgress]: the card whose progress is written to the store
    after a PASS_CARD or FAIL_CARD, read from the state the reducer
    left. *)
Definition updateProgress_card (reviewInfo : ReviewState)
    (action : ReviewAction) : jsval :=
  let isLastCard := bool_decide (nextCard reviewInfo = JNull) in
  if isLastCard
     && match action with FAIL_CARD _ => true | _ => false end
  then currentCard reviewInfo
  else at_index (history reviewInfo) (len (history reviewInfo) - 1).

End Sagas.

(** ** References held by a review state *)

Module ReviewRefs.

Import Review.

Definition allocated_value (σ : Store) (v : jsval) : bool :=
  match v with
  | JCard c => (c <? length (cards σ))%nat
  | _ => true
  end.

(** Every card the state refers to is an object of the store (in
    JavaScript a reference cannot be anything else). *)
Definition allocated (σ : Store) (state : ReviewState) : bool :=
  forallb (fun c => (c <? length (cards σ))%nat)
    (heap state ++ failedCardsLevel1 state ++ failedCardsLevel2 state
     ++ history state)
  && allocated_value σ (currentCard state)
  && allocated_value σ (nextCard state).

End ReviewRefs.

(** ** Review summary store: reading and writing the summary *)

Module ReviewSummary.

Definition REVIEW_ID : string := "review-default".

(** Modelled from the spec: [ReviewCardStatus] and [Review] of
    [../model], whose source is not available.  Section 3 gives the
    outcome of a history entry as Pass or Fail; the fields are the ones
    [parseReview] and [toReviewContent] read and write. *)
Inductive ReviewCardStatus := Passed | Failed.

Record PreviousProgress := {
  level : Q;
  due : option Z;     (* Date | null *)
}.

Record ReviewHistoryItem := {
  id : string;
  status : ReviewCardStatus;
  previousProgress : option PreviousProgress;
}.

Record Review := {
  maxCards : Z;
  maxNewCards : Z;
  history : list ReviewHistoryItem;
}.

Definition parseReview (review : ReviewStore.ReviewContent) : Review :=
  let history :=
    map (fun item =>
           {| id := ReviewStore.id item;
              status :=
                if default false (ReviewStore.failed item) then Failed
                else Passed;
              previousProgress :=
                (fun p =>
                   {| level := ReviewStore.level p;
                      due :=
                        if ReviewStore.due p =? 0 then None
                        else Some (ReviewStore.due p) |})
                <$> ReviewStore.previousProgress item |})
        (ReviewStore.history review) in
  {| maxCards := ReviewStore.maxCards review;
     maxNewCards := ReviewStore.maxNewCards review;
     history := history |}.

(** [toReviewContent]; [now] is [Date.now()]. *)
Definition toReviewContent (review : Review) (finished : bool) (now : Z)
  : ReviewStore.ReviewContent :=
  let history :=
    map (fun item =>
           {| ReviewStore.id := id item;
              ReviewStore.failed :=
                Some (match status item with Failed => true | Passed => false end);
              ReviewStore.previousProgress := None |})
        (history review) in
  {| ReviewStore.maxCards := maxCards review;
     ReviewStore.maxNewCards := maxNewCards review;
     ReviewStore.history := history;
     ReviewStore.finished := finished;
     ReviewStore.modified := now |}.

(** The document stored under [REVIEW_ID], if there ever was one: its
    revision, the tombstone flag and the body. *)
Record ReviewEntry := {
  rev : nat;
  deleted : bool;
  doc : ReviewStore.ReviewContent;
}.

Abbreviation ReviewDB := (option ReviewEntry).

(** [getReviewDoc]: [db.get] throws on a missing or deleted document,
    which is caught and turned into [null]. *)
Definition getReviewDoc (db : ReviewDB) : option ReviewStore.ReviewContent :=
  match db with
  | Some e => if deleted e then None else Some (doc e)
  | None => None
  end.

(** Modelled from the spec: [db.upsert(REVIEW_ID, diffFun)] of the
    external document store, for a single client.  [diffFun] gets the
    current document, or [None] (the empty object) when there is none,
    and answers with the document to write, [None] for [false]. *)
Definition upsert (db : ReviewDB)
    (diffFun : option ReviewStore.ReviewContent
               -> option ReviewStore.ReviewContent) : ReviewDB :=
  match diffFun (getReviewDoc db) with
  | None => db
  | Some newDoc =>
      Some {| rev := match db with Some e => S (rev e) | None => 1 end;
              deleted := false;
              doc := newDoc |}
  end.

Definition getReview (db : ReviewDB) : option Review :=
  match getReviewDoc db with
  | Some review =>
      if negb (ReviewStore.finished review) then Some (parseReview review)
      else None
  | None => None
  end.

Definition putReview (now : Z) (review : Review) (db : ReviewDB) : ReviewDB :=
  upsert db (fun _ => Some (toReviewContent review false now)).

Definition finishReview (now : Z) (db : ReviewDB) : ReviewDB :=
  upsert db (fun doc =>
    match doc with
    | None => None      (* !doc.hasOwnProperty('finished') *)
    | Some doc =>
        if ReviewStore.finished doc then None
        else
          Some {| ReviewStore.maxCards := ReviewStore.maxCards doc;
                  ReviewStore.maxNewCards := ReviewStore.maxNewCards doc;
                  ReviewStore.history := ReviewStore.history doc;
                  ReviewStore.finished := true;
                  ReviewStore.modified := now |}
    end).

(** [onChange]: what is emitted as 'review' for a change of document
    [_id]; [None] when nothing is emitted. *)
Definition onChange (_id : string) (_deleted : bool)
    (changeDoc : ReviewStore.ReviewContent) : option (option Review) :=
  if negb (String.eqb _id REVIEW_ID) then None
  else if _deleted || ReviewStore.finished changeDoc then Some None
  else Some (Some (parseReview changeDoc)).

End ReviewSummary.

(** ** What the card store keeps in stored card documents *)

Module StoredCards.

Import DocStore CardStore.

(** A card document without the fields [normalizeCardForDB] deletes: no
    empty [keywords] or [tags] array and no [starred: false]. *)
Definition compact (c : CardContent) : Prop :=
  keywords c <> Some [] /\ tags c <> Some [] /\ starred c <> Some false.

Definition all_compact (db : DB) : Prop :=
  forall k e c, db !! k = Some e -> content e = CardDoc c -> compact c.

End StoredCards.

(** ** Card store: change notifications and the new-card query *)

Module CardChanges.

Import DocStore CardStore.

(** [s.startsWith(p)] and [s.substr(n)]. *)
Fixpoint startsWith (p s : string) : bool :=
  match p, s with
  | EmptyString, _ => true
  | String a p', String b s' => Ascii.eqb a b && startsWith p' s'
  | String _ _, EmptyString => false
  end.

Fixpoint substr (n : nat) (s : string) : string :=
  match n, s with
  | O, _ => s
  | S n', String _ s' => substr n' s'
  | S _, EmptyString => EmptyString
  end.

Definition stripCardPrefix (id : string) : string :=
  substr (String.length CARD_PREFIX) id.

Definition stripProgressPrefix (id : string) : string :=
  substr (String.length PROGRESS_PREFIX) id.

(** [change.doc]: a changed document as the changes feed reports it. *)
Record ChangeDoc := {
  _id : string;
  _rev : nat;
  _deleted : bool;
  body : Content;
}.

Record Change := {
  doc : option ChangeDoc;
  deleted : bool;
}.

(** [this.returnedCards]: per card id, [cardRev] and [progressRev]
    ([None] is null). *)
Abbreviation ReturnedCards := (gmap string (nat * option nat)).

(** What is emitted as 'card': the card merged with its progress, or
    [parseCard(change.doc)] alone, with the [deleted] flag of the
    result. *)
Inductive CardChange :=
| MergedCard (card : Model.Card) (deleted : bool)
| CardOnly (changeDoc : ChangeDoc) (deleted : bool).

Definition alreadyReturnedCard (returnedCards : ReturnedCards)
    (doc : ChangeDoc) : bool :=
  if startsWith CARD_PREFIX (_id doc) then
    match returnedCards !! stripCardPrefix (_id doc) with
    | Some (cardRev, _) => bool_decide (cardRev = _rev doc)
    | None => false
    end
  else if startsWith PROGRESS_PREFIX (_id doc) then
    match returnedCards !! stripProgressPrefix (_id doc) with
    | Some (_, progressRev) => bool_decide (progressRev = Some (_rev doc))
    | None => false
    end
  else false.

(** [onChange]: the emitted card change, if any, or the error thrown,
    and [returnedCards] afterwards.  A document under a card id is taken
    to be a card document, one under a progress id a progress
    document. *)
Definition onChange (db : DB) (returnedCards : ReturnedCards)
    (change : Change) : result (option CardChange) * ReturnedCards :=
  match doc change with
  | None => (Ok None, returnedCards)
  | Some changeDoc =>
      if startsWith CARD_PREFIX (_id changeDoc) then
        let id := stripCardPrefix (_id changeDoc) in
        (* [Ok (Some None)]: progress is left undefined;
           [Ok None]: return; [Err e]: throw e *)
        let progress :=
          if negb (_deleted changeDoc) then
            match db_get db (PROGRESS_PREFIX +:+ id) with
            | Ok progress => Ok (Some (Some progress))
            | Err e =>
                if status e =? 404 then
                  match e with
                  | NotFoundDeleted => Ok (Some None)
                  | _ => Ok None
                  end
                else Err e
            end
          else Ok (Some None) in
        match progress with
        | Err e => (Err e, returnedCards)
        | Ok None => (Ok None, returnedCards)
        | Ok (Some progress) =>
            if alreadyReturnedCard returnedCards changeDoc
            then (Ok None, returnedCards)
            else
              let returnedCards' :=
                <[id := (_rev changeDoc, rev <$> progress)]> returnedCards in
              let result :=
                match progress, body changeDoc with
                | Some {| content := ProgressDoc p |}, CardDoc c =>
                    MergedCard (mergeDocs id c p) (deleted change)
                | _, _ => CardOnly changeDoc (deleted change)
                end in
              (Ok (Some result), returnedCards')
        end
      else if startsWith PROGRESS_PREFIX (_id changeDoc) then
        (* If the progress has been deleted, we'll report the deletion
           when the corresponding card is dropped. *)
        if _deleted changeDoc then (Ok None, returnedCards)
        else
          let id := stripProgressPrefix (_id changeDoc) in
          match db_get db (CARD_PREFIX +:+ id) with
          | Err e =>
              (* If the card was deleted, just ignore. *)
              if (status e =? 404)
                 && match e with NotFoundDeleted => true | _ => false end
              then (Ok None, returnedCards)
              else (Err e, returnedCards)
          | Ok card =>
              if alreadyReturnedCard returnedCards changeDoc
              then (Ok None, returnedCards)
              else
                let returnedCards' :=
                  <[id := (rev card, Some (_rev changeDoc))]> returnedCards in
                match content card, body changeDoc with
                | CardDoc c, ProgressDoc p =>
                    (Ok (Some (MergedCard (mergeDocs id c p) false)),
                     returnedCards')
                | _, _ => (Err NotFoundMissing, returnedCards')
                end
          end
      else (Ok None, returnedCards)
  end.

(** The change the feed reports for the stored document [k]. *)
Definition changeOf (k : string) (e : Entry) : Change :=
  {| doc := Some {| _id := k; _rev := rev e; _deleted := DocStore.deleted e;
                    body := content e |};
     deleted := DocStore.deleted e |}.

End CardChanges.

Module CardQueries.

Import DocStore CardStore CardChanges.

(** [s.replace(pat, rep)] for a string pattern: the first occurrence is
    replaced. *)
Fixpoint replace (pat rep s : string) : string :=
  if startsWith pat s then rep +:+ substr (String.length pat) s
  else
    match s with
    | EmptyString => EmptyString
    | String a s' => String a (replace pat rep s')
    end.

(** [getCardsFromProgressDocs]; a progress document is given by its
    [_id] and its content.  [db.allDocs({ keys })] answers with one row
    per key, so the row count always matches; a row without document
    (not found, or deleted) is skipped. *)
Definition getCardsFromProgressDocs (db : DB)
    (progressDocs : list (string * ProgressContent)) : list Model.Card :=
  omap (fun progressDoc =>
          let key := replace "progress-" "card-" progressDoc.1 in
          match db_get db key with
          | Ok cardDoc =>
              match content cardDoc with
              | CardDoc c =>
                  Some (parseCard (stripCardPrefix key) c
                          (parseProgress progressDoc.2))
              | ProgressDoc _ => None
              end
          | Err _ => None
          end)
       progressDocs.

(** [cards.sort((a, b) => a.created - b.created)]: a stable sort in
    ascending order of [created]. *)
Fixpoint insertByCreated (a : Model.Card) (cards : list Model.Card)
  : list Model.Card :=
  match cards with
  | [] => [a]
  | b :: cards' =>
      if Model.created a <=? Model.created b then a :: cards
      else b :: insertByCreated a cards'
  end.

Definition sortByCreated (cards : list Model.Card) : list Model.Card :=
  foldr insertByCreated [] cards.

(** [getNewCards]; [findResult] is what
    [db.find({ selector: newCardSelector })] returned, [limit] the
    optional limit. *)
Definition getNewCards (db : DB)
    (findResult : list (string * ProgressContent)) (limit : option Z)
  : list Model.Card :=
  (* Marry them up with corresponding cards *)
  let cards := getCardsFromProgressDocs db findResult in
  (* Sort by creation date in ascending order *)
  let cards := sortByCreated cards in
  (* Truncate range as needed *)
  match limit with
  | Some limit =>
      if (limit >=? 0) && (limit <? Z.of_nat (length cards))
      then take (Z.to_nat limit) cards
      else cards
  | None => cards
  end.

End CardQueries.

(** ** Concrete inputs used by the examples below *)

Module Examples.

Import ReviewStore.

(** A finished review summary with progress, touched last ... *)
Definition finishedReview : ReviewContent := {|
  maxCards := 10;
  maxNewCards := 5;
  history := [ {| id := "a"; failed := Some false; previousProgress := None |} ];
  finished := true;
  modified := 200;
|}.

(** ... and an unfinished one without progress, touched earlier. *)
Definition freshReview : ReviewContent := {|
  maxCards := 10;
  maxNewCards := 5;
  history := [];
  finished := false;
  modified := 100;
|}.

End Examples.

Module ReviewExamples.

Import Review.

Definition DAY : Z := 86400000.

(** Three card objects with a progress object each: card "a" was last
    reviewed on day 0 at level 3, "b" and "c" are new. *)
Definition store0 : Store := {|
  cards := [
    {| _id := "a"; question := "qa"; answer := "aa"; progress := 0%nat |};
    {| _id := "b"; question := "qb"; answer := "ab"; progress := 1%nat |};
    {| _id := "c"; question := "qc"; answer := "ac"; progress := 2%nat |} ];
  progresses := [
    {| level := 3; reviewed := Some 0 |};
    {| level := 0; reviewed := None |};
    {| level := 0; reviewed := None |} ];
|}.

(** Day 10: card 0 ("a") is shown, card 1 ("b") is next and still in the
    heap. *)
Definition asking : ReviewState := {|
  phase := QUESTION;
  reviewTime := 10 * DAY;
  maxCards := 10;
  maxNewCards := 5;
  completed := 0;
  newCardsInPlay := 0;
  heap := [1%nat];
  failedCardsLevel1 := [];
  failedCardsLevel2 := [];
  history := [];
  currentCard := JCard 0%nat;
  nextCard := JCard 1%nat;
  availableCards := None;
  savingProgress := false;
  loadingAvailableCards := false;
|}.

(** Day 10: card 0 ("a") is the only card of the review. *)
Definition askingLast : ReviewState := {|
  phase := QUESTION;
  reviewTime := 10 * DAY;
  maxCards := 10;
  maxNewCards := 5;
  completed := 0;
  newCardsInPlay := 0;
  heap := [];
  failedCardsLevel1 := [];
  failedCardsLevel2 := [];
  history := [];
  currentCard := JCard 0%nat;
  nextCard := JNull;
  availableCards := None;
  savingProgress := false;
  loadingAvailableCards := false;
|}.

(** The intermediate state of a FAIL_CARD: card 2 has just been failed
    and pushed on [failedCardsLevel2]; card 0 is next. *)
Definition failing : ReviewState := {|
  phase := QUESTION;
  reviewTime := 10 * DAY;
  maxCards := 10;
  maxNewCards := 5;
  completed := 0;
  newCardsInPlay := 0;
  heap := [0%nat; 1%nat];
  failedCardsLevel1 := [];
  failedCardsLevel2 := [2%nat];
  history := [2%nat];
  currentCard := JCard 2%nat;
  nextCard := JCard 0%nat;
  availableCards := None;
  savingProgress := true;
  loadingAvailableCards := false;
|}.

(** Three objects for the one card "a": as first loaded (new), as loaded
    again after it was passed, and as reported by the store after an
    edit. *)
Definition storeA : Store := {|
  cards := [
    {| _id := "a"; question := "q"; answer := "x"; progress := 0%nat |};
    {| _id := "a"; question := "q"; answer := "x"; progress := 1%nat |};
    {| _id := "a"; question := "q, edited"; answer := "x"; progress := 2%nat |} ];
  progresses := [
    {| level := 0; reviewed := None |};
    {| level := 1 # 2; reviewed := Some 0 |};
    {| level := 1 # 2; reviewed := Some 0 |} ];
|}.

(** A review of card "a", which comes up again after the review time is
    moved forward and is then edited. *)
Definition reviewThenEdit : list ReviewAction := [
  NEW_REVIEW 10 5;
  REVIEW_LOADED [0%nat] None None None 0 0 true;
  PASS_CARD 0;
  SET_REVIEW_TIME (20 * DAY);
  REVIEW_LOADED [1%nat] None None None 0 0 false;
  UPDATE_REVIEW_CARD 2%nat ].

(** Fail the only card on day 10, come back on day 20 and pass it twice
    (out of the second, then out of the first failed queue). *)
Definition failThenPass : list ReviewAction := [
  FAIL_CARD 0;
  SET_REVIEW_TIME (20 * DAY);
  PASS_CARD 0;
  PASS_CARD 0 ].

End ReviewExamples.

Module StoreExamples.

Import DocStore CardStore.

(** A store into which a progress document "progress-abc" was synced
    without its card. *)
Definition dbOrphanProgress : DB :=
  {[ "progress-abc" :=
       {| rev := 1; deleted := false;
          content := ProgressDoc {| level := 0; due := 0 |} |} ]}.

(** [{ front: 'Question', back: 'Answer' }] *)
Definition newCard : Partial.Card := {|
  Partial.id := None;
  Partial.front := Some "Question";
  Partial.back := Some "Answer";
  Partial.keywords := None;
  Partial.tags := None;
  Partial.starred := None;
  Partial.created := None;
  Partial.modified := None;
  Partial.progress := None;
|}.

(** A store with card "x", created and modified at time 1, due at time
    5000 at level 1. *)
Definition dbX : DB :=
  {[ "card-x" :=
       {| rev := 1; deleted := false;
          content :=
            CardDoc {| front := "Question"; back := "Answer";
                       keywords := None; tags := None; starred := None;
                       created := 1; modified := 1 |} |};
     "progress-x" :=
       {| rev := 1; deleted := false;
          content := ProgressDoc {| level := 1; due := 5000 |} |} ]}.

(** [{ id: 'x', progress: { due: null } }] *)
Definition clearDue : Partial.Card := {|
  Partial.id := Some "x";
  Partial.front := None;
  Partial.back := None;
  Partial.keywords := None;
  Partial.tags := None;
  Partial.starred := None;
  Partial.created := None;
  Partial.modified := None;
  Partial.progress := Some {| Partial.level := None; Partial.due := Some None |};
|}.

(** [{ id: 'x', front: 'Updated question', starred: false,
       progress: { level: 2 } }] *)
Definition editX : Partial.Card := {|
  Partial.id := Some "x";
  Partial.front := Some "Updated question";
  Partial.back := None;
  Partial.keywords := None;
  Partial.tags := None;
  Partial.starred := Some false;
  Partial.created := None;
  Partial.modified := None;
  Partial.progress := Some {| Partial.level := Some 2%Q; Partial.due := None |};
|}.

End StoreExamples.

Module SagaExamples.

Import Review Sagas.

(** Card 0 ("a") was failed and is shown again as the only card left. *)
Definition askingFailed : ReviewState := {|
  phase := QUESTION;
  reviewTime := 10 * ReviewExamples.DAY;
  maxCards := 10;
  maxNewCards := 5;
  completed := 0;
  newCardsInPlay := 0;
  heap := [];
  failedCardsLevel1 := [];
  failedCardsLevel2 := [0%nat];
  history := [];
  currentCard := JCard 0%nat;
  nextCard := JNull;
  availableCards := None;
  savingProgress := false;
  loadingAvailableCards := false;
|}.

(** A review that was just requested: ten cards at most, five of them
    new, nothing loaded yet. *)
Definition loading : ReviewState := {|
  phase := LOADING;
  reviewTime := 10 * ReviewExamples.DAY;
  maxCards := 10;
  maxNewCards := 5;
  completed := 0;
  newCardsInPlay := 0;
  heap := [];
  failedCardsLevel1 := [];
  failedCardsLevel2 := [];
  history := [];
  currentCard := JNull;
  nextCard := JNull;
  availableCards := None;
  savingProgress := false;
  loadingAvailableCards := false;
|}.

(** A card store with the new cards 1 and 2 and the overdue card 0, which
    answers with at most [limit] cards. *)
Definition getCards (limit : Z) (type : CardType) (skipFailedCards : bool)
  : list cardref :=
  match type with
  | NewCards => take (Z.to_nat limit) [1%nat; 2%nat]
  | OverdueCards => take (Z.to_nat limit) [0%nat]
  end.

End SagaExamples.

Module SummaryExamples.

Import ReviewStore.

(** An unfinished review summary with progress, touched at time 150. *)
Definition startedReview : ReviewContent := {|
  maxCards := 10;
  maxNewCards := 5;
  history := [ {| id := "a"; failed := Some true; previousProgress := None |} ];
  finished := false;
  modified := 150;
|}.

End SummaryExamples.

Module MoreStoreExamples.

Import DocStore CardStore CardChanges.

(** [{ id: 'y', front: 'Other question' }] *)
Definition editY : Partial.Card := {|
  Partial.id := Some "y";
  Partial.front := Some "Other question";
  Partial.back := None;
  Partial.keywords := None;
  Partial.tags := None;
  Partial.starred := None;
  Partial.created := None;
  Partial.modified := None;
  Partial.progress := None;
|}.

(** [{ id: 'x' }] *)
Definition justX : Partial.Card := {|
  Partial.id := Some "x";
  Partial.front := None;
  Partial.back := None;
  Partial.keywords := None;
  Partial.tags := None;
  Partial.starred := None;
  Partial.created := None;
  Partial.modified := None;
  Partial.progress := None;
|}.

(** The fields of card "x" as [getCard] returns them, with level 2
    in place of level 1:
    [{ id: 'x', front: 'Question', back: 'Answer', keywords: [],
       tags: [], starred: false, created: 1, modified: 1,
       progress: { level: 2, due: new Date(5000) } }] *)
Definition resaveX : Partial.Card := {|
  Partial.id := Some "x";
  Partial.front := Some "Question";
  Partial.back := Some "Answer";
  Partial.keywords := Some [];
  Partial.tags := Some [];
  Partial.starred := Some false;
  Partial.created := Some 1;
  Partial.modified := Some 1;
  Partial.progress :=
    Some {| Partial.level := Some 2%Q; Partial.due := Some (Some 5000) |};
|}.

Definition cardX : CardContent :=
  {| front := "Question"; back := "Answer";
     keywords := None; tags := None; starred := None;
     created := 1; modified := 1 |}.

Definition cardEntryX : Entry :=
  {| rev := 1; DocStore.deleted := false; content := CardDoc cardX |}.

Definition progressX : ProgressContent := {| level := 1; due := 5000 |}.

Definition progressEntryX : Entry :=
  {| rev := 1; DocStore.deleted := false; content := ProgressDoc progressX |}.

(** Card "x" without its progress document. *)
Definition dbCardOnly : DB := {[ "card-x" := cardEntryX ]}.

(** The card that [putCard(newCard)] creates at time 2000 under the
    generated id "g", and the store it leaves when started on an empty
    one. *)
Definition cardG : Model.Card := {|
  Model.id := "g";
  Model.front := "Question";
  Model.back := "Answer";
  Model.keywords := [];
  Model.tags := [];
  Model.starred := false;
  Model.created := 2000;
  Model.modified := 2000;
  Model.progress := {| Model.level := 0; Model.due := None |};
|}.

Definition dbG : DB :=
  {[ "card-g" :=
       {| rev := 1; DocStore.deleted := false;
          content :=
            CardDoc {| front := "Question"; back := "Answer";
                       keywords := None; tags := None; starred := None;
                       created := 2000; modified := 2000 |} |};
     "progress-g" :=
       {| rev := 1; DocStore.deleted := false;
          content := ProgressDoc {| level := 0; due := 0 |} |} ]}.

(** Two new cards, "a" created at time 20 and "b" at time 10, and what
    the new-card query finds for them. *)
Definition dbNewCards : DB :=
  {[ "card-a" :=
       {| rev := 1; DocStore.deleted := false;
          content :=
            CardDoc {| front := "qa"; back := "aa";
                       keywords := None; tags := None; starred := None;
                       created := 20; modified := 20 |} |};
     "progress-a" :=
       {| rev := 1; DocStore.deleted := false;
          content := ProgressDoc {| level := 0; due := 0 |} |};
     "card-b" :=
       {| rev := 1; DocStore.deleted := false;
          content :=
            CardDoc {| front := "qb"; back := "ab";
                       keywords := None; tags := None; starred := None;
                       created := 10; modified := 10 |} |};
     "progress-b" :=
       {| rev := 1; DocStore.deleted := false;
          content := ProgressDoc {| level := 0; due := 0 |} |} ]}.

Definition foundNewCards : list (string * ProgressContent) :=
  [ ("progress-a", {| level := 0; due := 0 |});
    ("progress-b", {| level := 0; due := 0 |}) ].

End MoreStoreExamples.

(** ** Review summary store: conflict resolution *)

Section ReviewStoreFacts.

Import ReviewStore.

Lemma has_length_nil {A} (xs : list A) : has_length xs = false <-> xs = [].
Proof. destruct xs; cbn; naive_solver. Qed.

Lemma has_length_cons {A} (xs : list A) : has_length xs = true <-> xs ≠ [].
Proof. destruct xs; cbn; naive_solver. Qed.

(** C1, as stated, fails: when one revision is finished and the other is
    not, the callback returns the unfinished one, whichever side it is
    on, even though the finished one has the history and the later
    [modified]. *)
Lemma onSyncChange_finished_does_not_win :
  finished Examples.finishedReview = true
  /\ finished Examples.freshReview = false
  /\ resolve Examples.finishedReview Examples.freshReview = Examples.freshReview
  /\ resolve Examples.freshReview Examples.finishedReview = Examples.freshReview
  /\ Examples.freshReview <> Examples.finishedReview.
Proof. repeat split; try reflexivity. discriminate. Qed.

(** C1 (amended): the conflict callback picks the winner by ordered
    predicates: an unfinished review beats a finished one (two finished
    ones: the first); otherwise a review with non-empty history beats one
    with empty history; otherwise the revision with the latest [modified]
    wins, the first one on a tie. *)
Theorem onSyncChange_resolve_order (a b : ReviewContent) :
  (finished b = true -> resolve a b = a)
  /\ (finished b = false -> finished a = true -> resolve a b = b)
  /\ (finished a = false -> finished b = false ->
      (history b = [] -> history a <> [] -> resolve a b = a)
      /\ (history a = [] -> history b <> [] -> resolve a b = b)
      /\ ((history a = [] <-> history b = []) ->
          (modified b <= modified a -> resolve a b = a)
          /\ (modified a < modified b -> resolve a b = b))).
Proof.
  unfold resolve. split; [|split].
  - intros ->. reflexivity.
  - intros -> ->. reflexivity.
  - intros -> ->. split; [|split].
    + intros Hb Ha. apply has_length_nil in Hb. apply has_length_cons in Ha.
      rewrite Hb, Ha. reflexivity.
    + intros Ha Hb. apply has_length_nil in Ha. apply has_length_cons in Hb.
      rewrite Ha, Hb. simpl. reflexivity.
    + intros Hiff.
      assert (Hsame : has_length (history a) = has_length (history b)).
      { destruct (history a), (history b); simpl; try reflexivity;
          destruct Hiff as [H1 H2];
          [specialize (H1 eq_refl)|specialize (H2 eq_refl)]; discriminate. }
      rewrite Hsame. destruct (has_length (history b)); simpl.
      * split; intros Hm.
        -- destruct (Z.geb_spec (modified a) (modified b)); [reflexivity|lia].
        -- destruct (Z.geb_spec (modified a) (modified b)); [lia|reflexivity].
      * split; intros Hm.
        -- destruct (Z.geb_spec (modified a) (modified b)); [reflexivity|lia].
        -- destruct (Z.geb_spec (modified a) (modified b)); [lia|reflexivity].
Qed.

Lemma onSyncChange_resolve_order_witness :
  resolve Examples.finishedReview Examples.freshReview = Examples.freshReview.
Proof.
  exact (proj1 (proj2 (onSyncChange_resolve_order
                         Examples.finishedReview Examples.freshReview))
           eq_refl eq_refl).
Defined.

End ReviewStoreFacts.

(** ** Review reducer: array and store lemmas *)

Section ReviewBasics.

Import Review.

Lemma indexOf_None (xs : list cardref) (c : cardref) :
  indexOf xs c = None <-> c ∉ xs.
Proof.
  induction xs as [|x xs IH]; simpl.
  - split; [intros _; apply not_elem_of_nil | reflexivity].
  - destruct (decide (x = c)) as [->|Hne].
    + split; [discriminate | intros H; exfalso; apply H; left].
    + rewrite not_elem_of_cons. destruct (indexOf xs c); simpl.
      * split; [discriminate | intros [_ H]; apply IH in H; discriminate].
      * split; [intros _; split; [congruence | apply IH; reflexivity]
               | reflexivity].
Qed.

Lemma indexOf_Some (xs : list cardref) (c : cardref) (i : nat) :
  indexOf xs c = Some i -> xs !! i = Some c.
Proof.
  revert i. induction xs as [|x xs IH]; simpl; intros i; [discriminate|].
  destruct (decide (x = c)) as [->|Hne].
  - intros [= <-]. reflexivity.
  - destruct (indexOf xs c) as [j|]; simpl; [|discriminate].
    intros [= <-]. simpl. apply IH. reflexivity.
Qed.

Lemma indexOf_lt (xs : list cardref) (c : cardref) (i : nat) :
  indexOf xs c = Some i -> (i < length xs)%nat.
Proof. intros H. apply indexOf_Some in H. eapply lookup_lt_Some, H. Qed.

Lemma reviewing_iff (state : ReviewState) :
  reviewing state = true <-> phase state = QUESTION \/ phase state = ANSWER.
Proof.
  unfold reviewing. rewrite orb_true_iff, !bool_decide_eq_true. tauto.
Qed.

Lemma updatePassedCard_progress σ t card pr :
  progresses σ !! progress card = Some pr ->
  progresses (updatePassedCard (snd (spread σ card)) t card pr true)
  !! progress card
  = Some {| level := passedLevel t pr; reviewed := Some t |}.
Proof.
  intros Hp. unfold updatePassedCard, set_reviewed, set_level; simpl.
  rewrite !list_lookup_alter_eq, Hp. reflexivity.
Qed.

Lemma updatePassedCard_cards σ t card pr b :
  cards (updatePassedCard (snd (spread σ card)) t card pr b)
  = cards σ ++ [card].
Proof. destruct b; reflexivity. Qed.

(** PASS_CARD on a current card that is not in the second failed queue:
    the card leaves the review ([finished] is true). *)
Lemma passCard_finished σ state seed c card pr :
  currentCard state = JCard c ->
  c ∉ failedCardsLevel2 state ->
  cards σ !! c = Some card ->
  progresses σ !! progress card = Some pr ->
  exists state',
    passCard σ state seed
    = Some (updatePassedCard (snd (spread σ card)) (reviewTime state)
              card pr true, state').
Proof.
  intros Hcur Hnot Hcard Hpr. unfold passCard.
  rewrite Hcur, Hcard; simpl.
  apply indexOf_None in Hnot. rewrite Hnot, Hpr; simpl.
  eexists. reflexivity.
Qed.

Lemma passedLevel_max (t r : Z) (pr : Progress) :
  reviewed pr = Some r ->
  ~ (level pr == 0)%Q ->
  (passedLevel t pr
   == Qmax (level pr)
        (Qmax (2 * ((inject_Z t - inject_Z r) / 86400000)) (1 # 2)))%Q.
Proof.
  intros Hr Hl. unfold passedLevel. rewrite Hr.
  destruct (Qeq_bool (level pr) 0) eqn:E.
  - apply Qeq_bool_iff in E. contradiction.
  - simpl. unfold max3.
    rewrite (Q.max_comm (_ * 2)%Q (level pr)), <- Q.max_assoc.
    apply Q.max_compat; [reflexivity|].
    apply Q.max_compat; [|reflexivity].
    replace (inject_Z MS_PER_DAY) with 86400000%Q by reflexivity.
    unfold Z.sub. rewrite inject_Z_plus, inject_Z_opp. field.
Qed.

Lemma passedLevel_half (t : Z) (pr : Progress) :
  reviewed pr = None \/ (level pr == 0)%Q ->
  passedLevel t pr = (1 # 2)%Q.
Proof.
  intros [Hr|Hl]; unfold passedLevel.
  - rewrite Hr. reflexivity.
  - apply Qeq_bool_iff in Hl. rewrite Hl. destruct (reviewed pr); reflexivity.
Qed.

End ReviewBasics.

(** ** PASS_CARD: the new level *)

Section PassCard.

Import Review.

(** C3: PASS_CARD in phase Question or Answer on a current card that is
    in neither failed queue (it is enough that it is not in
    [failedCardsLevel2]) succeeds and leaves the card's progress with
    [level = max(previousLevel, 2 x days since last review, 0.5)], and
    with [level = 0.5] when the progress had no [reviewed] timestamp or
    level 0; [reviewed] becomes the review time, and the copy of the card
    that the reducer creates shares that progress. *)
Theorem pass_card_level (σ : Store) (state : ReviewState) (seed : Q)
    (c : cardref) (card : Card) (pr : Progress) :
  phase state = QUESTION \/ phase state = ANSWER ->
  currentCard state = JCard c ->
  c ∉ failedCardsLevel2 state ->
  cards σ !! c = Some card ->
  progresses σ !! progress card = Some pr ->
  exists σ' state' pr',
    review σ state (PASS_CARD seed) = Some (σ', state')
    /\ progressOf σ' c = Some pr'
    /\ progressOf σ' (length (cards σ)) = Some pr'
    /\ reviewed pr' = Some (reviewTime state)
    /\ (forall r, reviewed pr = Some r -> ~ (level pr == 0)%Q ->
        (level pr'
         == Qmax (level pr)
              (Qmax (2 * ((inject_Z (reviewTime state) - inject_Z r)
                          / 86400000))
                 (1 # 2)))%Q)
    /\ (reviewed pr = None \/ (level pr == 0)%Q ->
        (level pr' == 1 # 2)%Q).
Proof.
  intros Hphase Hcur Hnot Hcard Hpr.
  destruct (passCard_finished σ state seed c card pr Hcur Hnot Hcard Hpr)
    as [state' Hpass].
  eexists _, state', _. split; [|split; [|split; [|split; [|split]]]].
  - unfold review. apply reviewing_iff in Hphase. rewrite Hphase. exact Hpass.
  - unfold progressOf. rewrite updatePassedCard_cards.
    rewrite (lookup_app_l_Some _ _ _ _ Hcard). simpl.
    apply updatePassedCard_progress, Hpr.
  - unfold progressOf. rewrite updatePassedCard_cards.
    rewrite list_lookup_middle by reflexivity. simpl.
    apply updatePassedCard_progress, Hpr.
  - reflexivity.
  - intros r Hr Hl. simpl. apply passedLevel_max; assumption.
  - intros H. simpl. rewrite (passedLevel_half _ _ H). reflexivity.
Qed.

(** At the example: level 3, last reviewed 10 days ago, gives level 20. *)
Lemma pass_card_level_witness :
  exists σ' state' pr',
    review ReviewExamples.store0 ReviewExamples.asking (PASS_CARD 0)
    = Some (σ', state')
    /\ progressOf σ' 0%nat = Some pr'
    /\ (level pr' == 20)%Q.
Proof.
  destruct (pass_card_level ReviewExamples.store0 ReviewExamples.asking 0
              0%nat
              {| _id := "a"; question := "qa"; answer := "aa";
                 progress := 0%nat |}
              {| level := 3; reviewed := Some 0 |})
    as (σ' & state' & pr' & Hrev & Hprog & _ & _ & Hmax & _).
  - left; reflexivity.
  - reflexivity.
  - vm_compute. intros H. inversion H.
  - reflexivity.
  - reflexivity.
  - exists σ', state', pr'. split; [exact Hrev|split; [exact Hprog|]].
    rewrite (Hmax 0 eq_refl); [reflexivity|]. simpl. discriminate.
Defined.

End PassCard.

(** ** FAIL_CARD and the shared progress object *)

Section FailCard.

Import Review.

Lemma updateNextCard_failed σ state seed mode :
  failedCardsLevel2 (updateNextCard σ state seed mode)
  = failedCardsLevel2 state
  /\ failedCardsLevel1 (updateNextCard σ state seed mode)
     = failedCardsLevel1 state.
Proof.
  unfold updateNextCard.
  destruct (_ =? 0).
  - destruct (_ || _); split; reflexivity.
  - destruct (takeCurrentCard _ _ _ _) as [[[cur hp] n] k].
    destruct (_ && _); split; reflexivity.
Qed.

Lemma failCard_store σ state seed c card pr :
  currentCard state = JCard c ->
  cards σ !! c = Some card ->
  progresses σ !! progress card = Some pr ->
  exists state',
    failCard σ state seed
    = Some (set_reviewed (set_level (snd (spread σ card)) (progress card) 0)
              (progress card) (Some (reviewTime state)), state')
    /\ length (cards σ) ∈ failedCardsLevel2 state'.
Proof.
  intros Hcur Hcard Hpr. unfold failCard.
  rewrite Hcur, Hcard; simpl. rewrite Hpr; simpl.
  eexists. split; [reflexivity|].
  rewrite (proj1 (updateNextCard_failed _ _ _ _)). simpl.
  apply elem_of_app. right. apply list_elem_of_singleton. reflexivity.
Qed.

(** C2 at a failing input: the reducer writes through the [progress]
    object that the current card of the input state shares with its
    copy.  After FAIL_CARD on [asking], the progress of the input state's
    own current card (object 0) reads level 0, reviewed on day 10,
    instead of level 3, reviewed on day 0; PASS_CARD changes it
    likewise. *)
Lemma reducer_writes_into_input_state :
  currentCard ReviewExamples.asking = JCard 0%nat
  /\ progressOf ReviewExamples.store0 0%nat
     = Some {| level := 3; reviewed := Some 0 |}
  /\ (exists σ' state',
        review ReviewExamples.store0 ReviewExamples.asking (FAIL_CARD 0)
        = Some (σ', state')
        /\ progressOf σ' 0%nat
           = Some {| level := 0; reviewed := Some 864000000 |})
  /\ (exists σ' state' pr',
        review ReviewExamples.store0 ReviewExamples.asking (PASS_CARD 0)
        = Some (σ', state')
        /\ progressOf σ' 0%nat = Some pr'
        /\ (level pr' == 20)%Q
        /\ reviewed pr' = Some 864000000).
Proof.
  split; [reflexivity|]. split; [reflexivity|]. split.
  - eexists _, _; split; vm_compute; reflexivity.
  - eexists _, _, _. split; [vm_compute; reflexivity|].
    split; [vm_compute; reflexivity|]. split; reflexivity.
Qed.

(** C10, as stated, fails in its second half: the failure time that
    FAIL_CARD records is not what a later pass computes the interval
    from.  The only card is failed on day 10 and passed (twice) on day
    20: its level becomes 0.5, not the [max(0, 2 x 10, 0.5) = 20] that
    ten days since the failure would give. *)
Lemma later_pass_ignores_failure_time :
  exists σ' state',
    run ReviewExamples.store0 ReviewExamples.askingLast
      ReviewExamples.failThenPass = Some (σ', state')
    /\ progresses σ' !! 0%nat
       = Some {| level := 1 # 2; reviewed := Some (20 * ReviewExamples.DAY) |}
    /\ ~ (1 # 2
          == Qmax 0 (Qmax (2 * ((inject_Z (20 * ReviewExamples.DAY)
                                 - inject_Z (10 * ReviewExamples.DAY))
                                / 86400000))
                       (1 # 2)))%Q.
Proof.
  eexists _, _. split; [vm_compute; reflexivity|].
  split; [reflexivity|]. vm_compute. discriminate.
Qed.

(** C10 (amended): FAIL_CARD in phase Question or Answer forces the
    failed card's [progress.level] to 0 and sets [progress.reviewed] to
    the session's review time (on the progress object shared by the
    current card and its copy, which goes on [failedCardsLevel2]); the
    recorded time does not enter a later interval: a PASS_CARD that
    takes a level-0 card out of the review sets its level to 0.5
    whatever its [reviewed] timestamp. *)
Theorem fail_card_progress (σ : Store) (state : ReviewState) (seed : Q)
    (c : cardref) (card : Card) (pr : Progress) :
  phase state = QUESTION \/ phase state = ANSWER ->
  currentCard state = JCard c ->
  cards σ !! c = Some card ->
  progresses σ !! progress card = Some pr ->
  (exists σ' state',
     review σ state (FAIL_CARD seed) = Some (σ', state')
     /\ progressOf σ' c
        = Some {| level := 0; reviewed := Some (reviewTime state) |}
     /\ progressOf σ' (length (cards σ))
        = Some {| level := 0; reviewed := Some (reviewTime state) |}
     /\ length (cards σ) ∈ failedCardsLevel2 state')
  /\ (forall σ2 state2 seed2 c2 card2 r,
        phase state2 = QUESTION \/ phase state2 = ANSWER ->
        currentCard state2 = JCard c2 ->
        c2 ∉ failedCardsLevel2 state2 ->
        cards σ2 !! c2 = Some card2 ->
        progresses σ2 !! progress card2
        = Some {| level := 0; reviewed := r |} ->
        exists σ3 state3,
          review σ2 state2 (PASS_CARD seed2) = Some (σ3, state3)
          /\ progressOf σ3 c2
             = Some {| level := 1 # 2;
                       reviewed := Some (reviewTime state2) |}).
Proof.
  intros Hphase Hcur Hcard Hpr. split.
  - destruct (failCard_store σ state seed c card pr Hcur Hcard Hpr)
      as (state' & Hfail & Hin).
    eexists _, state'. split; [|split; [|split]].
    + unfold review. apply reviewing_iff in Hphase. rewrite Hphase.
      exact Hfail.
    + unfold progressOf; simpl.
      rewrite (lookup_app_l_Some _ _ _ _ Hcard); simpl.
      rewrite !list_lookup_alter_eq, Hpr. reflexivity.
    + unfold progressOf; simpl.
      rewrite list_lookup_middle by reflexivity; simpl.
      rewrite !list_lookup_alter_eq, Hpr. reflexivity.
    + exact Hin.
  - intros σ2 state2 seed2 c2 card2 r Hphase2 Hcur2 Hnot2 Hcard2 Hpr2.
    destruct (passCard_finished σ2 state2 seed2 c2 card2 _
                Hcur2 Hnot2 Hcard2 Hpr2) as [state3 Hpass].
    eexists _, state3. split.
    + unfold review. apply reviewing_iff in Hphase2. rewrite Hphase2.
      exact Hpass.
    + unfold progressOf. rewrite updatePassedCard_cards.
      rewrite (lookup_app_l_Some _ _ _ _ Hcard2); simpl.
      etrans; [apply (updatePassedCard_progress _ _ _ _ Hpr2)|].
      rewrite passedLevel_half; [reflexivity|]. right; reflexivity.
Qed.

Lemma fail_card_progress_witness :
  exists σ' state',
    review ReviewExamples.store0 ReviewExamples.asking (FAIL_CARD 0)
    = Some (σ', state')
    /\ progressOf σ' 0%nat
       = Some {| level := 0; reviewed := Some 864000000 |}.
Proof.
  destruct (fail_card_progress ReviewExamples.store0 ReviewExamples.asking
              0 0%nat
              {| _id := "a"; question := "qa"; answer := "aa";
                 progress := 0%nat |}
              {| level := 3; reviewed := Some 0 |})
    as [(σ' & state' & Hrev & Hprog & _) _].
  - left; reflexivity.
  - reflexivity.
  - reflexivity.
  - reflexivity.
  - exists σ', state'. split; [exact Hrev | exact Hprog].
Defined.

(** C9 at a failing input: card "a" is passed, comes up again (as a
    fresh object) after the review time is moved forward, and is then
    edited; UPDATE_REVIEW_CARD puts the one edited object both in
    [currentCard] and in [history], so that [history.indexOf] of the
    current card is 0 and not -1. *)
Lemma current_card_ends_up_in_history :
  exists σ' state',
    run ReviewExamples.storeA (initialState 0) ReviewExamples.reviewThenEdit
    = Some (σ', state')
    /\ currentCard state' = JCard 2%nat
    /\ history state' = [2%nat]
    /\ indexOf (history state') 2%nat = Some 0%nat.
Proof.
  eexists _, _. split; [vm_compute; reflexivity|]. repeat split; reflexivity.
Qed.

End FailCard.

(** ** Card selection *)

Section Selection.

Import Review.

Lemma at_index_app_l (xs ys : list cardref) (i : Z) :
  i < len xs -> at_index (xs ++ ys) i = at_index xs i.
Proof.
  unfold at_index, len. intros Hi.
  destruct (Z.ltb_spec i 0); [reflexivity|].
  rewrite lookup_app_l by lia. reflexivity.
Qed.

Lemma at_index_app_r (xs ys : list cardref) (i : Z) :
  len xs <= i -> at_index (xs ++ ys) i = at_index ys (i - len xs).
Proof.
  unfold at_index, len. intros Hi.
  destruct (Z.ltb_spec i 0); [lia|].
  destruct (Z.ltb_spec (i - Z.of_nat (length xs)) 0); [lia|].
  rewrite lookup_app_r by lia.
  replace (Z.to_nat (i - Z.of_nat (length xs)))
    with (Z.to_nat i - length xs)%nat by lia.
  reflexivity.
Qed.

Lemma len_app (xs ys : list cardref) : len (xs ++ ys) = len xs + len ys.
Proof. unfold len. rewrite length_app. lia. Qed.

Lemma len_pool (xs ys zs : list cardref) :
  len (xs ++ ys ++ zs) = len xs + len ys + len zs.
Proof. rewrite !len_app. lia. Qed.

(** [getCardAtIndex] indexes the concatenation of the three arrays. *)
Lemma getCardAtIndex_pool (state : ReviewState) (hp : list cardref) (i : Z) :
  getCardAtIndex state hp i
  = at_index (failedCardsLevel2 state ++ failedCardsLevel1 state ++ hp) i.
Proof.
  unfold getCardAtIndex.
  destruct (Z.ltb_spec i (len (failedCardsLevel2 state))) as [H2|H2].
  - rewrite at_index_app_l by assumption. reflexivity.
  - rewrite at_index_app_r by assumption.
    destruct (Z.ltb_spec i (len (failedCardsLevel2 state)
                            + len (failedCardsLevel1 state))) as [H1|H1].
    + rewrite at_index_app_l by lia. reflexivity.
    + rewrite at_index_app_r by lia. f_equal. lia.
Qed.

Lemma at_index_in_range (xs : list cardref) (i : Z) :
  0 <= i < len xs -> exists c, at_index xs i = JCard c.
Proof.
  unfold at_index, len. intros Hi.
  destruct (Z.ltb_spec i 0); [lia|].
  destruct (lookup_lt_is_Some_2 xs (Z.to_nat i)) as [c Hc]; [lia|].
  exists c. rewrite Hc. reflexivity.
Qed.

(** The index drawn from a seed in [0, 1) is within the pool. *)
Lemma seed_index_range (seed : Q) (n : Z) :
  (0 <= seed)%Q -> (seed < 1)%Q -> 0 < n ->
  0 <= Qfloor (seed * inject_Z n) < n.
Proof.
  intros H0 H1 Hn. split.
  - rewrite <- (Qfloor_Z 0). apply Qfloor_resp_le.
    apply Qmult_le_0_compat; [assumption|].
    change 0%Q with (inject_Z 0). rewrite <- Zle_Qle. lia.
  - rewrite Zlt_Qlt. eapply Qle_lt_trans; [apply Qfloor_le|].
    rewrite <- (Qmult_1_l (inject_Z n)) at 2.
    apply Qmult_lt_compat_r; [|assumption].
    change 0%Q with (inject_Z 0). rewrite <- Zlt_Qlt. lia.
Qed.

(** The current card that the selection compares against, and the heap
    it draws from. *)
Lemma takeCurrentCard_spec σ state mode :
  let cur :=
    match mode with
    | UpdateCurrentCard => nextCard state
    | ReplaceNextCard => currentCard state
    end in
  let hp :=
    match mode, cur with
    | UpdateCurrentCard, JCard c =>
        spliceAt (indexOf (heap state) c) (heap state)
    | _, _ => heap state
    end in
  exists k,
    takeCurrentCard σ state mode
      (len (failedCardsLevel2 state) + len (failedCardsLevel1 state)
       + len (heap state))
    = (cur, hp,
       len (failedCardsLevel2 state ++ failedCardsLevel1 state ++ hp), k).
Proof.
  unfold takeCurrentCard. destruct mode; simpl.
  - destruct (nextCard state) as [| |c];
      try (eexists; rewrite len_pool; reflexivity).
    destruct (indexOf (heap state) c) as [i|] eqn:Hi; simpl.
    + eexists. f_equal. f_equal. rewrite !len_pool. unfold len.
      pose proof (indexOf_lt _ _ _ Hi) as Hlt.
      rewrite length_delete by (apply lookup_lt_is_Some_2, Hlt). lia.
    + eexists. rewrite len_pool. reflexivity.
  - eexists. rewrite len_pool. reflexivity.
Qed.




End Selection.

(** ** What the reducer does keep *)

Section ReducerFrame.

Import Review.

(** Every action other than PASS_CARD and FAIL_CARD leaves the object
    store as it is. *)
Lemma review_store_unchanged σ state action σ' state' :
  (forall seed, action <> PASS_CARD seed) ->
  (forall seed, action <> FAIL_CARD seed) ->
  review σ state action = Some (σ', state') ->
  σ' = σ.
Proof.
  intros Hpass Hfail. destruct action; simpl;
    try (intros [= <- <-]; reflexivity);
    try (destruct (_ : bool); intros [= <- <-]; reflexivity).
  - exfalso. eapply Hpass. reflexivity.
  - exfalso. eapply Hfail. reflexivity.
Qed.

(** X30: PASS_CARD and FAIL_CARD allocate the copy of the current card
    and write only the progress object of that card. *)
Lemma review_pass_fail_writes σ state action σ' state' c card :
  (exists seed, action = PASS_CARD seed \/ action = FAIL_CARD seed) ->
  reviewing state = true ->
  currentCard state = JCard c ->
  cards σ !! c = Some card ->
  review σ state action = Some (σ', state') ->
  cards σ' = cards σ ++ [card]
  /\ length (progresses σ') = length (progresses σ)
  /\ (forall p, p ≠ progress card ->
      progresses σ' !! p = progresses σ !! p).
Proof.
  intros (seed & [-> | ->]) Hrev Hcur Hcard; simpl; rewrite Hrev.
  - unfold passCard. rewrite Hcur, Hcard; simpl.
    destruct (indexOf (failedCardsLevel2 state) c);
      (destruct (progresses σ !! progress card) as [pr|]; simpl;
       [|discriminate]);
      intros [= <- _];
      unfold updatePassedCard, set_reviewed, set_level; simpl;
      (split; [reflexivity|]); (split; [rewrite ?length_alter; reflexivity|]);
      intros p Hp; rewrite ?list_lookup_alter_ne by congruence; reflexivity.
  - unfold failCard. rewrite Hcur, Hcard; simpl.
    destruct (progresses σ !! progress card) as [pr|]; simpl; [|discriminate].
    intros [= <- _]. unfold set_reviewed, set_level; simpl.
    split; [reflexivity|]. split; [rewrite !length_alter; reflexivity|].
    intros p Hp. rewrite !list_lookup_alter_ne by congruence. reflexivity.
Qed.

Lemma spliceAt_indexOf_not_elem (xs : list cardref) (c : cardref) :
  NoDup xs -> c ∉ spliceAt (indexOf xs c) xs.
Proof.
  induction 1 as [|x xs Hx Hnd IH]; simpl; [apply not_elem_of_nil|].
  destruct (decide (x = c)) as [->|Hne]; simpl; [exact Hx|].
  destruct (indexOf xs c) as [i|] eqn:Hi; simpl in *.
  - apply not_elem_of_cons. split; [congruence | exact IH].
  - apply not_elem_of_cons. split; [congruence | exact IH].
Qed.

(** On a non-empty pool [updateNextCard] takes the card it leaves as
    current out of a duplicate-free history. *)
Lemma updateNextCard_drops_current σ state seed mode c :
  failedCardsLevel2 state ++ failedCardsLevel1 state ++ heap state <> [] ->
  NoDup (history state) ->
  currentCard (updateNextCard σ state seed mode) = JCard c ->
  c ∉ history (updateNextCard σ state seed mode).
Proof.
  intros Hne Hnd. unfold updateNextCard.
  replace (len (failedCardsLevel2 state) + len (failedCardsLevel1 state)
           + len (heap state) =? 0) with false.
  2: { symmetry. apply Z.eqb_neq. rewrite <- len_pool. unfold len.
       destruct (failedCardsLevel2 state ++ failedCardsLevel1 state
                 ++ heap state); [contradiction|simpl; lia]. }
  destruct (takeCurrentCard _ _ _ _) as [[[cur hp] n] k].
  destruct (_ && _); simpl; intros ->; apply spliceAt_indexOf_not_elem, Hnd.
Qed.

End ReducerFrame.

(** ** Overdueness score *)

Section Overdueness.

Import DocStore CardStore.

Lemma MS_PER_DAY_pos : (0 < IZR MS_PER_DAY)%R.
Proof. apply IZR_lt. reflexivity. Qed.

Lemma daysOverdue_lt (a b : Z) :
  a < b -> (IZR a / IZR MS_PER_DAY < IZR b / IZR MS_PER_DAY)%R.
Proof.
  intros Hab. apply IZR_lt in Hab.
  pose proof MS_PER_DAY_pos.
  unfold Rdiv. apply Rmult_lt_compat_r; [|assumption].
  apply Rinv_0_lt_compat. assumption.
Qed.

Lemma daysOverdue_nonneg (a : Z) :
  0 <= a -> (0 <= IZR a / IZR MS_PER_DAY)%R.
Proof.
  intros Ha. apply IZR_le in Ha. pose proof MS_PER_DAY_pos.
  apply Rmult_le_pos; [exact Ha|].
  apply Rlt_le, Rinv_0_lt_compat. assumption.
Qed.

Lemma OVERFLOW_large : (1000000 < OVERFLOW)%R.
Proof. apply IZR_lt. vm_compute. reflexivity. Qed.

Lemma overflow_nonneg (x : R) :
  (0 <= x)%R ->
  (overflow x = PosInfinity /\ (OVERFLOW <= x)%R)
  \/ (overflow x = Num x /\ (x < OVERFLOW)%R).
Proof.
  intros Hx. pose proof OVERFLOW_large. unfold overflow.
  destruct (Rle_dec OVERFLOW x); [left; split; [reflexivity | assumption]|].
  destruct (Rle_dec x (- OVERFLOW)); [lra|].
  right. split; [reflexivity | lra].
Qed.

Lemma overflow_Num (x : R) :
  (- OVERFLOW < x < OVERFLOW)%R -> overflow x = Num x.
Proof.
  intros Hx. unfold overflow.
  destruct (Rle_dec OVERFLOW x); [lra|].
  destruct (Rle_dec x (- OVERFLOW)); [lra|]. reflexivity.
Qed.

Lemma overflow_PosInfinity (x : R) :
  (OVERFLOW <= x)%R -> overflow x = PosInfinity.
Proof.
  intros Hx. unfold overflow.
  destruct (Rle_dec OVERFLOW x); [reflexivity | contradiction].
Qed.

Lemma Q2R_pos (l : Q) : (0 < l)%Q -> (0 < Q2R l)%R.
Proof.
  intros Hl. apply Qlt_Rlt in Hl. rewrite RMicromega.Q2R_0 in Hl. exact Hl.
Qed.

Lemma num_div_days (z : Z) :
  num_div (Num (IZR z)) (Num (IZR MS_PER_DAY))
  = overflow (IZR z / IZR MS_PER_DAY).
Proof.
  pose proof MS_PER_DAY_pos. unfold num_div.
  destruct (Req_dec_T (IZR MS_PER_DAY) 0); [lra | reflexivity].
Qed.

(** The score of a progress record that is due, as a function of the
    days overdue [d >= 0]: either some component overflows and the score
    is [+Infinity], or it is the real number
    [d / level + (e^(0.00225 d) - 1)]. *)
Lemma getOverdueness_cases (l : Q) (due t : Z) :
  (0 < l)%Q -> 0 <= t - due ->
  let d := (IZR (t - due) / IZR MS_PER_DAY)%R in
  let s := (d / Q2R l + (exp (EXP_FACTOR * d) - 1))%R in
  (getOverdueness {| level := l; due := due |} t = PosInfinity
   /\ (OVERFLOW <= d \/ OVERFLOW <= d / Q2R l
       \/ OVERFLOW <= exp (EXP_FACTOR * d) \/ OVERFLOW <= s)%R)
  \/ (getOverdueness {| level := l; due := due |} t = Num s
      /\ (d < OVERFLOW /\ d / Q2R l < OVERFLOW
          /\ exp (EXP_FACTOR * d) < OVERFLOW /\ s < OVERFLOW)%R).
Proof.
  intros Hl Hz d s. pose proof (Q2R_pos l Hl) as HL.
  pose proof MS_PER_DAY_pos as HM. pose proof OVERFLOW_large as HO.
  assert (Hd : (0 <= d)%R) by (apply daysOverdue_nonneg, Hz).
  assert (Hdl : (0 <= d / Q2R l)%R).
  { apply Rmult_le_pos; [exact Hd|]. apply Rlt_le, Rinv_0_lt_compat, HL. }
  assert (Hk : (0 <= EXP_FACTOR * d <= d)%R).
  { unfold EXP_FACTOR. split; [apply Rmult_le_pos; lra | nra]. }
  assert (He : (1 <= exp (EXP_FACTOR * d))%R).
  { destruct Hk as [[Hk|Hk] _].
    - pose proof (exp_ineq1_le (EXP_FACTOR * d)). lra.
    - rewrite <- Hk, exp_0. lra. }
  unfold getOverdueness. cbv zeta. cbn [level DocStore.due].
  rewrite num_div_days. fold d.
  destruct (overflow_nonneg d Hd) as [[-> Hbig]|[-> Hsmall]].
  - left. split; [|left; exact Hbig]. simpl.
    destruct (Rlt_dec (Q2R l) 0); [lra|].
    unfold signed_infinity.
    destruct (Rlt_dec 0 EXP_FACTOR) as [_|n0];
      [reflexivity | unfold EXP_FACTOR in n0; lra].
  - unfold num_div.
    destruct (Req_dec_T (Q2R l) 0) as [E|_]; [lra|].
    unfold num_mul.
    rewrite (overflow_Num (EXP_FACTOR * d)) by lra.
    unfold Math_exp.
    destruct (overflow_nonneg (exp (EXP_FACTOR * d)) ltac:(lra))
      as [[-> Hebig]|[-> Hesmall]].
    + left. split; [|right; right; left; exact Hebig].
      destruct (overflow_nonneg (d / Q2R l) Hdl) as [[-> _]|[-> _]];
        reflexivity.
    + unfold num_sub, num_neg, num_add.
      rewrite (overflow_Num (exp (EXP_FACTOR * d) + - (1))) by lra.
      destruct (overflow_nonneg (d / Q2R l) Hdl) as [[-> Hlbig]|[-> Hlsmall]].
      * left. split; [reflexivity|]. right; left; exact Hlbig.
      * replace (d / Q2R l + (exp (EXP_FACTOR * d) + - (1)))%R with s
          by (subst s; lra).
        destruct (overflow_nonneg s ltac:(subst s; lra))
          as [[-> Hsbig]|[-> Hssmall]].
        -- left. split; [reflexivity|]. right; right; right; exact Hsbig.
        -- right. split; [reflexivity|]. repeat split; assumption.
Qed.

Lemma exp_INR_le (n : nat) : (exp (INR n) <= 3 ^ n)%R.
Proof.
  induction n as [|n IH].
  - simpl. rewrite exp_0. lra.
  - rewrite S_INR, exp_plus. simpl pow. rewrite Rmult_comm.
    apply Rmult_le_compat; try (left; apply exp_pos); [apply exp_le_3 | exact IH].
Qed.

Lemma exp_INR_ge (n : nat) : (2 ^ n <= exp (INR n))%R.
Proof.
  induction n as [|n IH].
  - simpl. rewrite exp_0. lra.
  - rewrite S_INR, exp_plus. simpl pow. rewrite Rmult_comm.
    apply Rmult_le_compat; try lra.
    + apply pow_le. lra.
    + pose proof (exp_ineq1_le 1). lra.
Qed.

Lemma exp_le (x y : R) : (x <= y)%R -> (exp x <= exp y)%R.
Proof.
  intros [H| ->]; [left; apply exp_increasing, H | right; reflexivity].
Qed.

Lemma exp_630 : (exp 630 + 1000000 < OVERFLOW)%R.
Proof.
  pose proof (exp_INR_le 630) as H.
  rewrite INR_IZR_INZ in H. change (Z.of_nat 630) with 630 in H.
  rewrite (pow_IZR 3 630) in H.
  apply Rle_lt_trans with (IZR (3 ^ Z.of_nat 630) + 1000000)%R; [lra|].
  rewrite <- plus_IZR. apply IZR_lt. vm_compute. reflexivity.
Qed.

Lemma exp_1024 : (OVERFLOW <= exp 1024)%R.
Proof.
  pose proof (exp_INR_ge 1024) as H.
  rewrite INR_IZR_INZ in H. change (Z.of_nat 1024) with 1024 in H.
  rewrite (pow_IZR 2 1024) in H.
  apply Rle_trans with (IZR (2 ^ Z.of_nat 1024)); [|exact H].
  apply IZR_le. vm_compute. discriminate.
Qed.

(** C5 (amended): for a progress record with [level > 0] that is due
    ([due <= t]), the overdueness score is strictly increasing in
    [t - due] as long as it is finite: if the score at the later time is
    not [+Infinity], both scores are the real numbers
    [daysOverdue / level + (e^(0.00225 daysOverdue) - 1)], with
    [daysOverdue = (t - due) / 86400000], and the earlier one is the
    smaller.  The score is finite whenever the level is at least 1/2
    and the record is at most 280000 days overdue. *)
Theorem getOverdueness_strictly_increasing (l : Q) (due1 due2 t1 t2 : Z) :
  (0 < l)%Q ->
  due1 <= t1 ->
  t1 - due1 < t2 - due2 ->
  (getOverdueness {| level := l; due := due2 |} t2 <> PosInfinity ->
   exists x1 x2,
     getOverdueness {| level := l; due := due1 |} t1 = Num x1
     /\ getOverdueness {| level := l; due := due2 |} t2 = Num x2
     /\ x1 = (IZR (t1 - due1) / IZR MS_PER_DAY / Q2R l
              + (exp (EXP_FACTOR * (IZR (t1 - due1) / IZR MS_PER_DAY)) - 1))%R
     /\ x2 = (IZR (t2 - due2) / IZR MS_PER_DAY / Q2R l
              + (exp (EXP_FACTOR * (IZR (t2 - due2) / IZR MS_PER_DAY)) - 1))%R
     /\ (x1 < x2)%R)
  /\ ((1 # 2 <= l)%Q -> t2 - due2 <= 280000 * MS_PER_DAY ->
      getOverdueness {| level := l; due := due2 |} t2 <> PosInfinity).
Proof.
  intros Hl Hdue Hlt. pose proof (Q2R_pos l Hl) as HL.
  assert (Hz1 : 0 <= t1 - due1) by lia.
  assert (Hz2 : 0 <= t2 - due2) by lia.
  pose proof (daysOverdue_lt _ _ Hlt) as Hd.
  pose proof (daysOverdue_nonneg _ Hz1) as Hd1.
  pose proof (getOverdueness_cases l due1 t1 Hl Hz1) as H1.
  pose proof (getOverdueness_cases l due2 t2 Hl Hz2) as H2.
  cbv zeta in H1, H2.
  set (d1 := (IZR (t1 - due1) / IZR MS_PER_DAY)%R) in *.
  set (d2 := (IZR (t2 - due2) / IZR MS_PER_DAY)%R) in *.
  assert (Hlin : (d1 / Q2R l < d2 / Q2R l)%R).
  { unfold Rdiv at 1 2. apply Rmult_lt_compat_r; [|exact Hd].
    apply Rinv_0_lt_compat, HL. }
  assert (Hexp : (exp (EXP_FACTOR * d1) < exp (EXP_FACTOR * d2))%R).
  { apply exp_increasing. apply Rmult_lt_compat_l; [|exact Hd].
    unfold EXP_FACTOR. lra. }
  split.
  - intros Hfin.
    destruct H2 as [[H2 _]|[H2 (Hb1 & Hb2 & Hb3 & Hb4)]]; [contradiction|].
    destruct H1 as [[_ Hbig]|[H1 _]].
    + exfalso. destruct Hbig as [?|[?|[?|?]]]; lra.
    + eexists _, _. split; [exact H1|]. split; [exact H2|].
      split; [reflexivity|]. split; [reflexivity|]. lra.
  - intros Hhalf Hspan.
    destruct H2 as [[_ Hbig]|[H2 _]]; [|rewrite H2; discriminate].
    exfalso.
    assert (HL2 : (1 / 2 <= Q2R l)%R).
    { apply Qle_Rle in Hhalf. unfold Q2R at 1 in Hhalf. simpl in Hhalf.
      lra. }
    assert (Hd2 : (0 <= d2 <= 280000)%R).
    { split; [lra|]. subst d2. pose proof MS_PER_DAY_pos.
      apply IZR_le in Hspan. rewrite mult_IZR in Hspan.
      apply Rmult_le_reg_r with (IZR MS_PER_DAY); [assumption|].
      unfold Rdiv. rewrite Rmult_assoc, Rinv_l by lra. lra. }
    assert (Hl2 : (d2 / Q2R l <= 560000)%R).
    { apply Rmult_le_reg_r with (Q2R l); [assumption|].
      unfold Rdiv. rewrite Rmult_assoc, Rinv_l by lra. nra. }
    assert (He2 : (exp (EXP_FACTOR * d2) <= exp 630)%R).
    { apply exp_le. unfold EXP_FACTOR. lra. }
    pose proof exp_630. pose proof OVERFLOW_large.
    destruct Hbig as [?|[?|[?|?]]]; lra.
Qed.

Lemma getOverdueness_strictly_increasing_witness :
  exists x1 x2,
    getOverdueness {| level := 1; due := 0 |} 86400000 = Num x1
    /\ getOverdueness {| level := 1; due := 0 |} 172800000 = Num x2
    /\ (x1 < x2)%R.
Proof.
  destruct (getOverdueness_strictly_increasing 1 0 0 86400000 172800000
              ltac:(reflexivity) ltac:(discriminate) ltac:(reflexivity))
    as [Hinc Hfin].
  destruct (Hinc (Hfin ltac:(discriminate) ltac:(discriminate)))
    as (x1 & x2 & H1 & H2 & _ & _ & Hlt).
  exists x1, x2. split; [exact H1|]. split; [exact H2 | exact Hlt].
Defined.

(** C5, as stated, fails: the score is computed in floating point, where
    [Math.exp] overflows.  A record of level 1 that was due at time 1 has
    the score [+Infinity] when it is 500000 days overdue, and still has
    it a day later: the score has not increased. *)
Lemma getOverdueness_overflow_not_increasing :
  let doc := {| level := 1; due := 1 |} in
  let t1 := 1 + 500000 * MS_PER_DAY in
  let t2 := 1 + 500001 * MS_PER_DAY in
  (0 < level doc)%Q /\ due doc <= t1 /\ t1 - due doc < t2 - due doc
  /\ getOverdueness doc t1 = PosInfinity
  /\ getOverdueness doc t2 = PosInfinity
  /\ ~ num_lt (getOverdueness doc t1) (getOverdueness doc t2).
Proof.
  cbv zeta.
  assert (Hinf : forall n, 500000 <= n ->
    getOverdueness {| level := 1; due := 1 |} (1 + n * MS_PER_DAY)
    = PosInfinity).
  { intros n Hn.
    destruct (getOverdueness_cases 1 1 (1 + n * MS_PER_DAY)
                ltac:(reflexivity) ltac:(unfold MS_PER_DAY; lia))
      as [[H _]|[_ (_ & _ & He & _)]]; [exact H|].
    exfalso.
    replace (1 + n * MS_PER_DAY - 1) with (n * MS_PER_DAY) in He by lia.
    rewrite mult_IZR in He. pose proof MS_PER_DAY_pos.
    replace (IZR n * IZR MS_PER_DAY / IZR MS_PER_DAY)%R with (IZR n) in He
      by (field; lra).
    apply IZR_le in Hn.
    assert (exp 1024 <= exp (EXP_FACTOR * IZR n))%R
      by (apply exp_le; unfold EXP_FACTOR; lra).
    pose proof exp_1024. lra. }
  split; [reflexivity|]. split; [unfold MS_PER_DAY; simpl; lia|].
  split; [unfold MS_PER_DAY; simpl; lia|].
  rewrite (Hinf 500000) by lia. rewrite (Hinf 500001) by lia.
  split; [reflexivity|]. split; [reflexivity|]. simpl. tauto.
Qed.

End Overdueness.

(** ** Document store lemmas *)

Section DocStoreFacts.

Import DocStore CardStore.

Lemma card_progress_ids_differ (a b : string) :
  CARD_PREFIX +:+ a ≠ PROGRESS_PREFIX +:+ b.
Proof. unfold CARD_PREFIX, PROGRESS_PREFIX. simpl. discriminate. Qed.

Lemma live_false (db : DB) (id : string) :
  live db id = false <->
  db !! id = None \/ exists e, db !! id = Some e /\ deleted e = true.
Proof.
  unfold live, db_get. destruct (db !! id) as [e|].
  - destruct (deleted e) eqn:E; split; try discriminate; try reflexivity.
    + intros _. right. exists e. split; [reflexivity | exact E].
    + intros [H|(e' & [= <-] & H)]; congruence.
  - split; [intros _; left; reflexivity | reflexivity].
Qed.

Lemma live_true (db : DB) (id : string) :
  live db id = true <-> exists e, db !! id = Some e /\ deleted e = false.
Proof.
  unfold live, db_get. destruct (db !! id) as [e|].
  - destruct (deleted e) eqn:E; split; try discriminate; try reflexivity.
    + intros (e' & [= <-] & H). congruence.
    + intros _. exists e. split; [reflexivity | exact E].
  - split; [discriminate | intros (e & H & _); discriminate].
Qed.

Lemma live_insert_ne (db : DB) (k k' : string) (e : Entry) :
  k ≠ k' -> live (<[k := e]> db) k' = live db k'.
Proof. intros H. unfold live, db_get. rewrite lookup_insert_ne by exact H. reflexivity. Qed.

Lemma live_insert_eq (db : DB) (k : string) (e : Entry) :
  live (<[k := e]> db) k = negb (deleted e).
Proof. unfold live, db_get. rewrite lookup_insert_eq. destruct (deleted e); reflexivity. Qed.

(** A put without revision succeeds exactly on an id that is not live. *)
Lemma db_put_fresh (db : DB) (id : string) (c : Content) :
  live db id = false ->
  exists r,
    db_put db id None c
    = (Ok r, <[id := {| rev := r; deleted := false; content := c |}]> db).
Proof.
  intros H. apply live_false in H. unfold db_put.
  destruct H as [H|(e & H & Hd)]; rewrite H; [eexists; reflexivity|].
  rewrite Hd. simpl. eexists; reflexivity.
Qed.

Lemma db_put_taken (db : DB) (id : string) (c : Content) :
  live db id = true -> db_put db id None c = (Err Conflict, db).
Proof.
  intros H. apply live_true in H. destruct H as (e & H & Hd).
  unfold db_put. rewrite H, Hd. reflexivity.
Qed.

(** Removing a live document at its current revision leaves a tombstone. *)
Lemma db_remove_current (db : DB) (id : string) (e : Entry) :
  db !! id = Some e -> deleted e = false ->
  db_remove db id (rev e)
  = (Ok (S (rev e)),
     <[id := {| rev := S (rev e); deleted := true; content := content e |}]> db).
Proof.
  intros H Hd. unfold db_remove. rewrite H, Hd.
  rewrite bool_decide_eq_true_2 by reflexivity. reflexivity.
Qed.

Lemma stubbornDelete_absent (fuel : nat) (db : DB) (id : string) :
  live db id = false -> stubbornDelete (S fuel) id db = Some (Ok tt, db).
Proof.
  intros H. apply live_false in H. simpl. unfold db_get.
  destruct H as [H|(e & H & Hd)]; rewrite H; [reflexivity|].
  rewrite Hd. reflexivity.
Qed.

Lemma stubbornDelete_present (fuel : nat) (db : DB) (id : string) :
  live db id = true ->
  exists e,
    db !! id = Some e
    /\ stubbornDelete (S fuel) id db
       = Some (Ok tt,
               <[id := {| rev := S (rev e); deleted := true;
                          content := content e |}]> db).
Proof.
  intros H. apply live_true in H. destruct H as (e & H & Hd).
  exists e. split; [exact H|]. simpl. unfold db_get. rewrite H, Hd.
  rewrite (db_remove_current db id e H Hd). reflexivity.
Qed.

(** [stubbornDelete] always succeeds, leaves the id not live, touches no
    other id, and changes nothing when the id was not live. *)
Lemma stubbornDelete_spec (fuel : nat) (db : DB) (id : string) :
  exists db',
    stubbornDelete (S fuel) id db = Some (Ok tt, db')
    /\ live db' id = false
    /\ (forall k, k ≠ id -> db' !! k = db !! k)
    /\ (live db id = false -> db' = db).
Proof.
  destruct (live db id) eqn:Hl.
  - destruct (stubbornDelete_present fuel db id Hl) as (e & He & Hdel).
    eexists. split; [exact Hdel|]. split; [|split].
    + rewrite live_insert_eq. reflexivity.
    + intros k Hk. rewrite lookup_insert_ne by congruence. reflexivity.
    + discriminate.
  - exists db. split; [apply stubbornDelete_absent, Hl|]. repeat split; auto.
Qed.

End DocStoreFacts.

(** ** deleteCard *)

Section DeleteCard.

Import DocStore CardStore.

(** C8: [deleteCard(id)] never fails and is idempotent: on any store it
    succeeds and leaves neither the card nor the progress document
    readable; a second call succeeds too and changes nothing; and on an id
    whose documents are missing or already deleted the first call is
    itself a no-op. *)
Theorem deleteCard_idempotent (fuel : nat) (db : DB) (id : string) :
  exists db1,
    deleteCard (S fuel) db id = Some (Ok tt, db1)
    /\ live db1 (CARD_PREFIX +:+ id) = false
    /\ live db1 (PROGRESS_PREFIX +:+ id) = false
    /\ deleteCard (S fuel) db1 id = Some (Ok tt, db1)
    /\ (live db (CARD_PREFIX +:+ id) = false ->
        live db (PROGRESS_PREFIX +:+ id) = false -> db1 = db).
Proof.
  destruct (stubbornDelete_spec fuel db (CARD_PREFIX +:+ id))
    as (dbc & Hc & Hcl & Hco & Hcs).
  destruct (stubbornDelete_spec fuel dbc (PROGRESS_PREFIX +:+ id))
    as (dbp & Hp & Hpl & Hpo & Hps).
  assert (Hcl' : live dbp (CARD_PREFIX +:+ id) = false).
  { unfold live, db_get in *.
    rewrite Hpo by apply card_progress_ids_differ. exact Hcl. }
  exists dbp. split; [|split; [|split; [|split]]].
  - unfold deleteCard. rewrite Hc. exact Hp.
  - exact Hcl'.
  - exact Hpl.
  - unfold deleteCard.
    rewrite (stubbornDelete_absent fuel dbp _ Hcl').
    apply stubbornDelete_absent, Hpl.
  - intros H1 H2. rewrite (Hcs H1) in *. apply Hps, H2.
Qed.

Lemma deleteCard_idempotent_witness :
  deleteCard 1 ∅ "abc" = Some (Ok tt, ∅).
Proof.
  destruct (deleteCard_idempotent 0 ∅ "abc") as (db1 & H1 & _ & _ & _ & Hsame).
  rewrite H1. rewrite Hsame; reflexivity.
Defined.

End DeleteCard.

(** ** putCard: creating a card *)

Section PutNewCard.

Import DocStore CardStore.

Variable normalize : string -> string.

Lemma tryPutNewCard_unfold card progress db id more :
  tryPutNewCard card progress db id more
  = match db_put db (CARD_PREFIX +:+ id) None (CardDoc card) with
    | (Err err, db1) =>
        if negb (status err =? 409) then Some (Err err, db1)
        else
          match more with
          | id' :: more' => tryPutNewCard card progress db1 id' more'
          | [] => None
          end
    | (Ok putCardResponse_rev, db1) =>
        match db_put db1 (PROGRESS_PREFIX +:+ id) None (ProgressDoc progress)
        with
        | (Err err, db2) =>
            match db_remove db2 (CARD_PREFIX +:+ id) putCardResponse_rev with
            | (Err err', db3) => Some (Err err', db3)
            | (Ok _, db3) => Some (Err err, db3)
            end
        | (Ok _, db2) => Some (Ok (mergeDocs id card progress), db2)
        end
    end.
Proof. destruct more; reflexivity. Qed.

(** The card id is taken: the put conflicts and the next id is tried. *)
Lemma tryPutNewCard_retry card progress db id id' more :
  live db (CARD_PREFIX +:+ id) = true ->
  tryPutNewCard card progress db id (id' :: more)
  = tryPutNewCard card progress db id' more.
Proof.
  intros H. rewrite tryPutNewCard_unfold.
  rewrite (db_put_taken _ _ _ H). reflexivity.
Qed.

(** The card is written, the progress write conflicts: the card is
    removed again and the conflict is the result. *)
Lemma tryPutNewCard_rollback card progress db id more :
  live db (CARD_PREFIX +:+ id) = false ->
  live db (PROGRESS_PREFIX +:+ id) = true ->
  exists r,
    tryPutNewCard card progress db id more
    = Some (Err Conflict,
            <[CARD_PREFIX +:+ id :=
                {| rev := S r; deleted := true; content := CardDoc card |}]>
              (<[CARD_PREFIX +:+ id :=
                   {| rev := r; deleted := false; content := CardDoc card |}]>
                 db)).
Proof.
  intros Hc Hp. rewrite tryPutNewCard_unfold.
  destruct (db_put_fresh db _ (CardDoc card) Hc) as [r Hput].
  exists r. rewrite Hput.
  rewrite db_put_taken
    by (rewrite live_insert_ne by apply card_progress_ids_differ; exact Hp).
  erewrite (db_remove_current _ _ {| rev := r; deleted := false;
                                     content := CardDoc card |});
    [reflexivity | apply lookup_insert_eq | reflexivity].
Qed.

(** Both ids are free: both documents are written. *)
Lemma tryPutNewCard_ok card progress db id more :
  live db (CARD_PREFIX +:+ id) = false ->
  live db (PROGRESS_PREFIX +:+ id) = false ->
  exists r r',
    tryPutNewCard card progress db id more
    = Some (Ok (mergeDocs id card progress),
            <[PROGRESS_PREFIX +:+ id :=
                {| rev := r'; deleted := false;
                   content := ProgressDoc progress |}]>
              (<[CARD_PREFIX +:+ id :=
                   {| rev := r; deleted := false; content := CardDoc card |}]>
                 db)).
Proof.
  intros Hc Hp. rewrite tryPutNewCard_unfold.
  destruct (db_put_fresh db _ (CardDoc card) Hc) as [r Hput].
  rewrite Hput.
  destruct (db_put_fresh
              (<[CARD_PREFIX +:+ id :=
                   {| rev := r; deleted := false; content := CardDoc card |}]>
                 db)
              (PROGRESS_PREFIX +:+ id) (ProgressDoc progress)) as [r' Hput'].
  { rewrite live_insert_ne by apply card_progress_ids_differ. exact Hp. }
  rewrite Hput'. exists r, r'. reflexivity.
Qed.

Lemma getCard_inserted (db : DB) id r r' card progress :
  getCard
    (<[PROGRESS_PREFIX +:+ id :=
         {| rev := r'; deleted := false; content := ProgressDoc progress |}]>
       (<[CARD_PREFIX +:+ id :=
            {| rev := r; deleted := false; content := CardDoc card |}]> db))
    id
  = Ok (mergeDocs id card progress).
Proof.
  unfold getCard, db_get.
  rewrite lookup_insert_ne by (symmetry; apply card_progress_ids_differ).
  rewrite !lookup_insert_eq. reflexivity.
Qed.

(** C6: [putCard] without an id writes the card document first.  If the
    progress write then fails (its id is taken: a 409), the card document
    just written is deleted and the error is the caller's result, so no
    readable card is left and the progress document found there is
    untouched.  A 409 on the card write is not a failure: the call goes
    on with the next generated id.  With both ids free the card is
    created under the id and reads back as returned. *)
Theorem putCard_new_card (db : DB) (card : Partial.Card) (now : Z)
    (id : string) (more : list string) :
  Partial.id card = None ->
  (live db (CARD_PREFIX +:+ id) = false ->
   live db (PROGRESS_PREFIX +:+ id) = true ->
   exists db' e c,
     putCard normalize db card now id more = Some (Err Conflict, db')
     /\ live db' (CARD_PREFIX +:+ id) = false
     /\ db' !! (CARD_PREFIX +:+ id) = Some e
     /\ deleted e = true /\ content e = CardDoc c /\ created c = now
     /\ (forall k, k ≠ CARD_PREFIX +:+ id -> db' !! k = db !! k))
  /\ (live db (CARD_PREFIX +:+ id) = true ->
      forall id' more', more = id' :: more' ->
      putCard normalize db card now id more
      = putCard normalize db card now id' more')
  /\ (live db (CARD_PREFIX +:+ id) = false ->
      live db (PROGRESS_PREFIX +:+ id) = false ->
      exists db' c,
        putCard normalize db card now id more = Some (Ok c, db')
        /\ Model.id c = id
        /\ getCard db' id = Ok c).
Proof.
  intros Hid. unfold putCard. rewrite Hid. unfold _putNewCard.
  split; [|split].
  - intros Hc Hp.
    destruct (tryPutNewCard_rollback
                (normalizeCardForDB normalize
                   {| front := default "" (Partial.front card);
                      back := default "" (Partial.back card);
                      keywords := Partial.keywords card;
                      tags := Partial.tags card;
                      starred := Partial.starred card;
                      created := now; modified := now |}
                   (asUpdate
                      {| front := default "" (Partial.front card);
                         back := default "" (Partial.back card);
                         keywords := Partial.keywords card;
                         tags := Partial.tags card;
                         starred := Partial.starred card;
                         created := now; modified := now |}))
                {| level := default 0%Q (Partial.progress card ≫= Partial.level);
                   due := match Partial.progress card ≫= Partial.due with
                          | Some (Some d) => d
                          | _ => 0
                          end |}
                db id more Hc Hp) as [r Hroll].
    eexists _, _, _. split; [exact Hroll|].
    split; [rewrite live_insert_eq; reflexivity|].
    split; [apply lookup_insert_eq|].
    split; [reflexivity|]. split; [reflexivity|]. split; [reflexivity|].
    intros k Hk. rewrite !lookup_insert_ne by congruence. reflexivity.
  - intros Hc id' more' ->. apply tryPutNewCard_retry, Hc.
  - intros Hc Hp.
    edestruct tryPutNewCard_ok as (r & r' & Hok); [exact Hc | exact Hp |].
    eexists _, _. split; [exact Hok|]. split; [reflexivity|].
    apply getCard_inserted.
Qed.

End PutNewCard.

Section PutNewCardExample.

Import DocStore CardStore.

(** The repository's own scenario: "progress-abc" exists, the generated id
    is "abc"; the call ends in the conflict and the card does not read
    back. *)
Lemma putCard_new_card_witness :
  exists db',
    putCard (fun s => s) StoreExamples.dbOrphanProgress StoreExamples.newCard
      1000 "abc" [] = Some (Err Conflict, db')
    /\ getCard db' "abc" = Err NotFoundDeleted.
Proof.
  destruct (putCard_new_card (fun s => s) StoreExamples.dbOrphanProgress
              StoreExamples.newCard 1000 "abc" [] eq_refl) as [Hroll _].
  destruct (Hroll ltac:(vm_compute; reflexivity) ltac:(vm_compute; reflexivity))
    as (db' & e & c & Hput & _ & Hlook & Hdel & _).
  exists db'. split; [exact Hput|].
  unfold getCard, db_get.
  change (CARD_PREFIX +:+ "abc") with "card-abc" in Hlook.
  change (CARD_PREFIX +:+ "abc") with "card-abc".
  rewrite Hlook, Hdel. reflexivity.
Defined.

End PutNewCardExample.

(** ** putCard: updating a card *)

Section PutExistingCard.

Import DocStore CardStore.

Variable normalize : string -> string.

Lemma getCard_Ok (db : DB) (id : string) (c : Model.Card) :
  getCard db id = Ok c ->
  exists ec ep cc pc,
    db !! (CARD_PREFIX +:+ id) = Some ec /\ deleted ec = false
    /\ content ec = CardDoc cc
    /\ db !! (PROGRESS_PREFIX +:+ id) = Some ep /\ deleted ep = false
    /\ content ep = ProgressDoc pc
    /\ c = mergeDocs id cc pc.
Proof.
  unfold getCard, db_get.
  destruct (db !! (CARD_PREFIX +:+ id)) as [ec|]; [|discriminate].
  destruct (deleted ec) eqn:Hdc; [discriminate|].
  destruct (db !! (PROGRESS_PREFIX +:+ id)) as [ep|]; [|discriminate].
  destruct (deleted ep) eqn:Hdp; [discriminate|].
  destruct (content ec) as [cc|] eqn:Hcc; [|discriminate].
  destruct (content ep) as [|pc] eqn:Hcp; [discriminate|].
  intros [= <-]. exists ec, ep, cc, pc. repeat split; assumption.
Qed.

Lemma getCard_of_docs (db : DB) (id : string) ec ep cc pc :
  db !! (CARD_PREFIX +:+ id) = Some ec -> deleted ec = false ->
  content ec = CardDoc cc ->
  db !! (PROGRESS_PREFIX +:+ id) = Some ep -> deleted ep = false ->
  content ep = ProgressDoc pc ->
  getCard db id = Ok (mergeDocs id cc pc).
Proof.
  intros H1 H2 H3 H4 H5 H6. unfold getCard, db_get.
  rewrite H1, H2, H4, H5, H3, H6. reflexivity.
Qed.

Lemma applyUpdate_no_keys (doc : CardContent) (update : Partial.Card) :
  hasContentKeys update = false -> applyUpdate doc update = doc.
Proof.
  unfold hasContentKeys, applyUpdate.
  destruct (Partial.front update), (Partial.back update),
    (Partial.keywords update), (Partial.tags update),
    (Partial.starred update), (Partial.created update),
    (Partial.modified update); simpl; try discriminate.
  intros _. destruct doc; reflexivity.
Qed.

Lemma updateCard_spec (db : DB) (id : string) (update : Partial.Card)
    (now : Z) (ec : Entry) (cc : CardContent) :
  db !! (CARD_PREFIX +:+ id) = Some ec -> deleted ec = false ->
  content ec = CardDoc cc ->
  exists db1 e1,
    _updateCard normalize db id update now
    = (Ok (updatedCardDoc normalize cc update now), db1)
    /\ db1 !! (CARD_PREFIX +:+ id) = Some e1 /\ deleted e1 = false
    /\ content e1 = CardDoc (updatedCardDoc normalize cc update now)
    /\ (forall k, k ≠ CARD_PREFIX +:+ id -> db1 !! k = db !! k).
Proof.
  intros Hl Hd Hc. unfold _updateCard, upsert, db_get, updatedCardDoc.
  rewrite Hl, Hd, Hc.
  destruct (hasContentKeys update) eqn:Hk; simpl.
  - unfold db_put. rewrite Hl, Hd.
    rewrite bool_decide_eq_true_2 by reflexivity. simpl.
    eexists _, _. split; [reflexivity|].
    split; [apply lookup_insert_eq|]. split; [reflexivity|].
    split; [reflexivity|].
    intros k Hne. rewrite lookup_insert_ne by congruence. reflexivity.
  - rewrite (applyUpdate_no_keys _ _ Hk).
    exists db, ec. repeat split; auto.
Qed.

Lemma updateProgress_spec (db : DB) (id : string) (update : Partial.Progress)
    (ep : Entry) (pc : ProgressContent) :
  db !! (PROGRESS_PREFIX +:+ id) = Some ep -> deleted ep = false ->
  content ep = ProgressDoc pc ->
  exists db1 e1,
    _updateProgress db id update = (Ok (updatedProgressDoc pc update), db1)
    /\ db1 !! (PROGRESS_PREFIX +:+ id) = Some e1 /\ deleted e1 = false
    /\ content e1 = ProgressDoc (updatedProgressDoc pc update)
    /\ (forall k, k ≠ PROGRESS_PREFIX +:+ id -> db1 !! k = db !! k).
Proof.
  intros Hl Hd Hc. unfold _updateProgress, upsert, db_get, updatedProgressDoc.
  rewrite Hl, Hd, Hc.
  assert (Hput : forall c,
    (db_put db (PROGRESS_PREFIX +:+ id) (Some (rev ep)) c).2
    = <[PROGRESS_PREFIX +:+ id :=
          {| rev := S (rev ep); deleted := false; content := c |}]> db).
  { intros c. unfold db_put. rewrite Hl, Hd.
    rewrite bool_decide_eq_true_2 by reflexivity. reflexivity. }
  destruct (Partial.due update) as [[d|]|];
    destruct (Partial.level update) as [l|]; simpl;
    repeat match goal with
      | |- context [due pc =? ?d] => destruct (due pc =? d); simpl
      | |- context [Qeq_bool (level pc) ?l] =>
          destruct (Qeq_bool (level pc) l); simpl
      end;
    try rewrite Hput;
    first
      [ (eexists _, _; split; [reflexivity|];
         split; [apply lookup_insert_eq|]; split; [reflexivity|];
         split; [reflexivity|];
         intros k Hne; rewrite lookup_insert_ne by congruence; reflexivity)
      | (exists db, ep; split; [reflexivity|]; split; [exact Hl|];
         split; [exact Hd|]; split; [rewrite Hc; destruct pc; reflexivity|];
         reflexivity) ].
Qed.

Lemma updatedCardDoc_fields (cc : CardContent) (update : Partial.Card)
    (now : Z) :
  let d := updatedCardDoc normalize cc update now in
  (forall f, Partial.front update = Some f -> front d = normalize f)
  /\ (forall b, Partial.back update = Some b -> back d = normalize b)
  /\ (forall ks, Partial.keywords update = Some ks ->
      default [] (keywords d) = map normalize ks)
  /\ (forall ts, Partial.tags update = Some ts ->
      default [] (tags d) = map normalize ts)
  /\ (forall b, Partial.starred update = Some b ->
      default false (starred d) = b)
  /\ (forall t, Partial.created update = Some t -> created d = t)
  /\ (hasContentKeys update = true -> modified d = now)
  /\ (hasContentKeys update = false -> d = cc).
Proof.
  destruct update as [i f b ks ts st cr mo pr].
  unfold updatedCardDoc, hasContentKeys, applyUpdate, normalizeCardForDB.
  cbn [Partial.front Partial.back Partial.keywords Partial.tags
       Partial.starred Partial.created Partial.modified].
  repeat split.
  - intros x [= ->]. reflexivity.
  - intros x [= ->]. destruct f; reflexivity.
  - intros x [= ->]. destruct f, b; destruct x; reflexivity.
  - intros x [= ->]. destruct f, b, ks; destruct x; reflexivity.
  - intros x [= ->]. destruct f, b, ks, ts; destruct x; reflexivity.
  - intros x [= ->]. destruct f, b, ks, ts, st; reflexivity.
  - intros H. rewrite H. reflexivity.
  - intros H. rewrite H. simpl.
    destruct f, b, ks, ts, st, cr, mo; try discriminate.
    destruct cc; reflexivity.
Qed.

Lemma updatedProgressDoc_fields (pc : ProgressContent)
    (update : Partial.Progress) :
  let p := parseProgress (updatedProgressDoc pc update) in
  (forall l, Partial.level update = Some l -> (Model.level p == l)%Q)
  /\ (forall d, Partial.due update = Some (Some d) -> d ≠ 0 ->
      Model.due p = Some d)
  /\ (Partial.level update = None -> Model.level p = level pc)
  /\ (Partial.due update = None \/ Partial.due update = Some None ->
      Model.due p = Model.due (parseProgress pc)).
Proof.
  unfold parseProgress, updatedProgressDoc; simpl. repeat split.
  - intros l ->. destruct (Qeq_bool (level pc) l) eqn:E; [|reflexivity].
    apply Qeq_bool_iff, E.
  - intros d -> Hd.
    destruct (Z.eqb_spec (due pc) d) as [->|_];
      destruct (Z.eqb_spec d 0); congruence.
  - intros ->. reflexivity.
  - intros [->| ->]; reflexivity.
Qed.

(** C7, as stated, fails on two counts.

    A supplied [progress.due] of null is not reproduced.  Card "x" is
    due at time 5000; after
    [putCard({ id: 'x', progress: { due: null } })], which succeeds,
    [getCard('x')] still reports the due time 5000.

    And [modified] is bumped although only the progress changed.  Card
    "x" was modified at time 1; putting back, at time 2000, the fields
    that [getCard('x')] returns with only the level changed from 1 to 2
    leaves every content field as it was, yet [modified] is 2000.

    (No text is normalised on these inputs.) *)
Lemma putCard_roundtrip_differs :
  (exists c' db',
     putCard (fun s => s) StoreExamples.dbX StoreExamples.clearDue 2000 "g" []
     = Some (Ok c', db')
     /\ getCard db' "x" = Ok c'
     /\ (Partial.progress StoreExamples.clearDue ≫= Partial.due) = Some None
     /\ Model.due (Model.progress c') = Some 5000
     /\ Model.due (Model.progress c') <> None)
  /\ (exists c0 c' db',
        getCard StoreExamples.dbX "x" = Ok c0
        /\ Partial.front MoreStoreExamples.resaveX = Some (Model.front c0)
        /\ Partial.back MoreStoreExamples.resaveX = Some (Model.back c0)
        /\ Partial.keywords MoreStoreExamples.resaveX
           = Some (Model.keywords c0)
        /\ Partial.tags MoreStoreExamples.resaveX = Some (Model.tags c0)
        /\ Partial.starred MoreStoreExamples.resaveX
           = Some (Model.starred c0)
        /\ Partial.created MoreStoreExamples.resaveX
           = Some (Model.created c0)
        /\ Partial.modified MoreStoreExamples.resaveX
           = Some (Model.modified c0)
        /\ putCard (fun s => s) StoreExamples.dbX MoreStoreExamples.resaveX
             2000 "g" []
           = Some (Ok c', db')
        /\ getCard db' "x" = Ok c'
        /\ Model.front c' = Model.front c0
        /\ Model.back c' = Model.back c0
        /\ Model.keywords c' = Model.keywords c0
        /\ Model.tags c' = Model.tags c0
        /\ Model.starred c' = Model.starred c0
        /\ Model.created c' = Model.created c0
        /\ Model.modified c0 = 1
        /\ Model.modified c' = 2000).
Proof.
  split.
  - eexists _, _. split; [vm_compute; reflexivity|].
    split; [vm_compute; reflexivity|]. split; [reflexivity|].
    split; [reflexivity|discriminate].
  - eexists _, _, _. split; [vm_compute; reflexivity|].
    do 7 (split; [reflexivity|]).
    split; [vm_compute; reflexivity|].
    split; [vm_compute; reflexivity|].
    repeat split; reflexivity.
Qed.

(** C7 (amended): [putCard] on the id of an existing card succeeds, and
    [getCard(id)] then returns the card that [putCard] returned.  In it
    the supplied text fields are reproduced in normalised form
    ([front], [back], and each keyword and tag); [starred] and [created]
    are reproduced as supplied; a supplied [progress.level] is reproduced;
    a supplied [progress.due] is reproduced when it is a Date with a
    non-zero time.  [modified] is set to the time of the call when any
    card-content field was supplied, and is left unchanged (with all
    card content) when only [progress] was supplied.  A level that is
    not supplied leaves the stored level; a [due] that is null or not
    supplied leaves the stored due time; a [due] Date of time 0 clears
    it. *)
Theorem putCard_existing_roundtrip (db : DB) (update : Partial.Card)
    (now : Z) (gid : string) (more : list string) (id : string)
    (c0 : Model.Card) :
  Partial.id update = Some id ->
  id ≠ "" ->
  getCard db id = Ok c0 ->
  exists c' db',
    putCard normalize db update now gid more = Some (Ok c', db')
    /\ getCard db' id = Ok c'
    /\ (forall f, Partial.front update = Some f ->
        Model.front c' = normalize f)
    /\ (forall b, Partial.back update = Some b ->
        Model.back c' = normalize b)
    /\ (forall ks, Partial.keywords update = Some ks ->
        Model.keywords c' = map normalize ks)
    /\ (forall ts, Partial.tags update = Some ts ->
        Model.tags c' = map normalize ts)
    /\ (forall b, Partial.starred update = Some b -> Model.starred c' = b)
    /\ (forall t, Partial.created update = Some t -> Model.created c' = t)
    /\ (forall l, Partial.progress update ≫= Partial.level = Some l ->
        (Model.level (Model.progress c') == l)%Q)
    /\ (forall d, Partial.progress update ≫= Partial.due = Some (Some d) ->
        d ≠ 0 -> Model.due (Model.progress c') = Some d)
    /\ (hasContentKeys update = true -> Model.modified c' = now)
    /\ (hasContentKeys update = false ->
        Model.modified c' = Model.modified c0
        /\ Model.front c' = Model.front c0
        /\ Model.back c' = Model.back c0
        /\ Model.keywords c' = Model.keywords c0
        /\ Model.tags c' = Model.tags c0
        /\ Model.starred c' = Model.starred c0
        /\ Model.created c' = Model.created c0)
    /\ (Partial.progress update ≫= Partial.level = None ->
        Model.level (Model.progress c') = Model.level (Model.progress c0))
    /\ (Partial.progress update ≫= Partial.due = None
        \/ Partial.progress update ≫= Partial.due = Some None ->
        Model.due (Model.progress c') = Model.due (Model.progress c0))
    /\ (Partial.progress update ≫= Partial.due = Some (Some 0) ->
        Model.due (Model.progress c') = None).
Proof.
  intros Hid Hne Hget.
  destruct (getCard_Ok db id c0 Hget)
    as (ec & ep & cc & pc & Hlc & Hdc & Hcc & Hlp & Hdp & Hcp & ->).
  destruct (updateCard_spec db id update now ec cc Hlc Hdc Hcc)
    as (db1 & e1 & Hupd & Hl1 & Hd1 & Hc1 & Hother1).
  set (pu := default {| Partial.level := None; Partial.due := None |}
               (Partial.progress update)).
  assert (Hlp1 : db1 !! (PROGRESS_PREFIX +:+ id) = Some ep).
  { rewrite Hother1 by (apply not_eq_sym, card_progress_ids_differ).
    exact Hlp. }
  destruct (updateProgress_spec db1 id pu ep pc Hlp1 Hdp Hcp)
    as (db2 & e2 & Hupp & Hl2 & Hd2 & Hc2 & Hother2).
  assert (Hl1' : db2 !! (CARD_PREFIX +:+ id) = Some e1).
  { rewrite Hother2 by apply card_progress_ids_differ. exact Hl1. }
  exists (mergeDocs id (updatedCardDoc normalize cc update now)
            (updatedProgressDoc pc pu)), db2.
  pose proof (updatedCardDoc_fields cc update now)
    as (Hf & Hb & Hks & Hts & Hst & Hcr & Hmod & Hsame).
  pose proof (updatedProgressDoc_fields pc pu)
    as (Hlev & Hdue & Hnolev & Hnodue).
  split; [|split].
  - unfold putCard. rewrite Hid.
    rewrite bool_decide_eq_false_2 by exact Hne.
    rewrite Hupd. fold pu. rewrite Hupp. reflexivity.
  - apply (getCard_of_docs db2 id e1 e2); assumption.
  - unfold mergeDocs, parseCard; cbn [Model.front Model.back Model.keywords
      Model.tags Model.starred Model.created Model.modified Model.progress].
    repeat split; try assumption.
    1: { intros l Hl. apply Hlev. subst pu.
         destruct (Partial.progress update); [exact Hl|discriminate]. }
    1: { intros d Hd Hd0. apply Hdue; [|exact Hd0]. subst pu.
         destruct (Partial.progress update); [exact Hd|discriminate]. }
    1-7: (rewrite (Hsame H); reflexivity).
    + intros Hl. apply Hnolev. subst pu.
      destruct (Partial.progress update); [exact Hl|reflexivity].
    + intros Hd. apply Hnodue. subst pu.
      destruct (Partial.progress update) as [p|]; [exact Hd|].
      left; reflexivity.
    + intros Hd. subst pu.
      destruct (Partial.progress update) as [p|]; [|discriminate].
      simpl in Hd. unfold parseProgress, updatedProgressDoc. simpl.
      rewrite Hd. destruct (Z.eqb_spec (due pc) 0) as [->|_]; reflexivity.
Qed.

End PutExistingCard.

Section PutExistingCardExample.

Import DocStore CardStore.

(** Card "x" gets a new front, [starred: false] and level 2 at time
    2000. *)
Lemma putCard_existing_roundtrip_witness :
  exists c' db',
    putCard (fun s => s) StoreExamples.dbX StoreExamples.editX 2000 "g" []
    = Some (Ok c', db')
    /\ getCard db' "x" = Ok c'
    /\ Model.front c' = "Updated question"
    /\ Model.starred c' = false
    /\ (Model.level (Model.progress c') == 2)%Q
    /\ Model.modified c' = 2000.
Proof.
  edestruct (putCard_existing_roundtrip (fun s => s) StoreExamples.dbX
               StoreExamples.editX 2000 "g" [] "x")
    as (c' & db' & Hput & Hget & Hf & _ & _ & _ & Hst & _ & Hlev & _ & Hmod & _).
  - reflexivity.
  - discriminate.
  - vm_compute. reflexivity.
  - exists c', db'. split; [exact Hput|]. split; [exact Hget|].
    split; [exact (Hf _ eq_refl)|]. split; [exact (Hst _ eq_refl)|].
    split; [exact (Hlev _ eq_refl)|exact (Hmod eq_refl)].
Defined.

End PutExistingCardExample.

(** ** The reducer's queues, counters and card selection *)

Section ReducerQueues.

Import Review.

Lemma pool_not_empty (xs ys zs : list cardref) :
  xs ++ ys ++ zs <> [] -> (len xs + len ys + len zs =? 0) = false.
Proof.
  intros H. apply Z.eqb_neq. rewrite <- len_pool. unfold len.
  destruct (xs ++ ys ++ zs); [contradiction | simpl; lia].
Qed.

Lemma at_index_elem (xs : list cardref) (i : Z) (c : cardref) :
  at_index xs i = JCard c -> c ∈ xs.
Proof.
  unfold at_index. destruct (i <? 0); [discriminate|].
  destruct (xs !! Z.to_nat i) as [x|] eqn:E; [|discriminate].
  intros [= <-]. apply list_elem_of_lookup. eauto.
Qed.

Lemma at_index_NoDup (xs : list cardref) (i j : Z) (c : cardref) :
  NoDup xs -> 0 <= i -> 0 <= j ->
  at_index xs i = JCard c -> at_index xs j = JCard c -> i = j.
Proof.
  unfold at_index. intros Hnd Hi Hj.
  destruct (Z.ltb_spec i 0); [lia|]. destruct (Z.ltb_spec j 0); [lia|].
  destruct (xs !! Z.to_nat i) as [x|] eqn:Ei; [|discriminate].
  destruct (xs !! Z.to_nat j) as [y|] eqn:Ej; [|discriminate].
  intros [= ->] [= ->].
  pose proof (NoDup_lookup _ _ _ _ Hnd Ei Ej). lia.
Qed.

(** What [updateNextCard] leaves alone. *)
Lemma updateNextCard_kept σ state seed mode :
  completed (updateNextCard σ state seed mode) = completed state
  /\ savingProgress (updateNextCard σ state seed mode) = savingProgress state
  /\ reviewTime (updateNextCard σ state seed mode) = reviewTime state
  /\ maxCards (updateNextCard σ state seed mode) = maxCards state
  /\ maxNewCards (updateNextCard σ state seed mode) = maxNewCards state.
Proof.
  unfold updateNextCard.
  destruct (_ =? 0).
  - destruct (_ || _); repeat split; reflexivity.
  - destruct (takeCurrentCard _ _ _ _) as [[[cur hp] n] k].
    destruct (_ && _); repeat split; reflexivity.
Qed.

(** [updateNextCard] on a non-empty pool, by its parts: the card [cur]
    compared against, the heap [hp] drawn from, the selection [sel] and
    whether [sel] is promoted to current card. *)
Lemma updateNextCard_nonempty σ state seed mode :
  failedCardsLevel2 state ++ failedCardsLevel1 state ++ heap state <> [] ->
  let cur :=
    match mode with
    | UpdateCurrentCard => nextCard state
    | ReplaceNextCard => currentCard state
    end in
  let hp :=
    match mode, cur with
    | UpdateCurrentCard, JCard c =>
        spliceAt (indexOf (heap state) c) (heap state)
    | _, _ => heap state
    end in
  let sel :=
    findNextCard state hp cur
      (len (failedCardsLevel2 state ++ failedCardsLevel1 state ++ hp)) seed in
  let promote :=
    negb (truthy cur) && truthy (currentCard state) && truthy sel in
  let result := updateNextCard σ state seed mode in
  currentCard result = (if promote then sel else cur)
  /\ nextCard result = (if promote then JNull else sel)
  /\ heap result = hp
  /\ history result
     = match (if promote then sel else cur) with
       | JCard c => spliceAt (indexOf (history state) c) (history state)
       | _ => history state
       end
  /\ phase result = phase state.
Proof.
  intros Hne cur hp sel promote result.
  destruct (takeCurrentCard_spec σ state mode) as [k Htake].
  fold cur hp in Htake.
  subst result. unfold updateNextCard.
  rewrite (pool_not_empty _ _ _ Hne), Htake. fold sel. fold promote.
  destruct promote; repeat split; reflexivity.
Qed.

(** The selection on a pool of [n > 0] cards without duplicates, for a
    seed in [0, 1): a card of the pool other than [cur], or null. *)
Lemma findNextCard_spec state hp cur seed :
  (0 <= seed)%Q -> (seed < 1)%Q ->
  let pool := failedCardsLevel2 state ++ failedCardsLevel1 state ++ hp in
  pool <> [] ->
  let sel := findNextCard state hp cur (len pool) seed in
  (sel = JNull \/ exists c, sel = JCard c /\ c ∈ pool)
  /\ (truthy cur = false -> exists c, sel = JCard c /\ c ∈ pool)
  /\ (NoDup pool -> sel = JNull \/ sel <> cur)
  /\ (forall c, cur = JCard c -> c ∉ pool ->
      exists c', sel = JCard c' /\ c' ∈ pool).
Proof.
  intros H0 H1 pool Hne sel.
  assert (Hn : 0 < len pool).
  { unfold len. destruct pool; [contradiction | simpl; lia]. }
  pose proof (seed_index_range seed (len pool) H0 H1 Hn) as Hi.
  set (i := Qfloor (seed * inject_Z (len pool))) in *.
  destruct (at_index_in_range pool i Hi) as [c Hc].
  subst sel. unfold findNextCard.
  replace (len pool =? 0) with false by (symmetry; apply Z.eqb_neq; lia).
  fold i. rewrite !getCardAtIndex_pool. fold pool. rewrite Hc.
  destruct (decide (JCard c = cur)) as [Heq|Hneq].
  - destruct (Z.eqb_spec (len pool) 1) as [Hone|Hmany].
    + repeat split; auto.
      * intros Hcur. rewrite <- Heq in Hcur. discriminate.
      * intros c0 Hc0 Hnin. exfalso. apply Hnin.
        rewrite Hc0 in Heq. injection Heq as <-. eapply at_index_elem, Hc.
    + set (j := if i <? len pool - 1 then i + 1 else i - 1).
      assert (Hj : 0 <= j < len pool /\ j <> i).
      { subst j. destruct (Z.ltb_spec i (len pool - 1)); lia. }
      destruct (at_index_in_range pool j (proj1 Hj)) as [c' Hc'].
      rewrite Hc'. repeat split.
      * right. exists c'. split; [reflexivity | eapply at_index_elem, Hc'].
      * intros _. exists c'. split; [reflexivity | eapply at_index_elem, Hc'].
      * intros Hnd. right. rewrite <- Heq. intros [= ->].
        destruct Hj as [Hj Hji]. apply Hji.
        apply (at_index_NoDup pool j i c Hnd); [lia | lia | exact Hc' | exact Hc].
      * intros c0 Hc0 Hnin. exfalso. apply Hnin.
        rewrite Hc0 in Heq. injection Heq as <-. eapply at_index_elem, Hc.
  - repeat split.
    + right. exists c. split; [reflexivity | eapply at_index_elem, Hc].
    + intros _. exists c. split; [reflexivity | eapply at_index_elem, Hc].
    + intros _. right. exact Hneq.
    + intros _ _ _. exists c. split; [reflexivity | eapply at_index_elem, Hc].
Qed.

End ReducerQueues.

Section PassFailQueues.

Import Review.

(** FAIL_CARD up to its call of [updateNextCard]. *)
Lemma failCard_unfold σ state seed c card pr :
  currentCard state = JCard c ->
  cards σ !! c = Some card ->
  progresses σ !! progress card = Some pr ->
  exists σ2 inter,
    failCard σ state seed
    = Some (σ2, updateNextCard σ2 inter seed UpdateCurrentCard)
    /\ cards σ2 = cards σ ++ [card]
    /\ phase inter = QUESTION
    /\ savingProgress inter = true
    /\ completed inter = completed state
    /\ heap inter = heap state
    /\ nextCard inter = nextCard state
    /\ currentCard inter = JCard (length (cards σ))
    /\ history inter = history state ++ [length (cards σ)]
    /\ failedCardsLevel1 inter
       = spliceAt (indexOf (failedCardsLevel1 state) c)
           (failedCardsLevel1 state)
    /\ failedCardsLevel2 inter
       = match indexOf (failedCardsLevel1 state) c with
         | Some _ => failedCardsLevel2 state
         | None =>
             spliceAt (indexOf (failedCardsLevel2 state) c)
               (failedCardsLevel2 state)
         end ++ [length (cards σ)].
Proof.
  intros Hcur Hcard Hpr. unfold failCard.
  rewrite Hcur, Hcard; simpl. rewrite Hpr; simpl.
  eexists _, _. split; [reflexivity|]. repeat split.
Qed.

(** PASS_CARD up to its call of [updateNextCard]. *)
Lemma passCard_unfold σ state seed c card pr :
  currentCard state = JCard c ->
  cards σ !! c = Some card ->
  progresses σ !! progress card = Some pr ->
  exists σ2 inter,
    passCard σ state seed
    = Some (σ2, updateNextCard σ2 inter seed UpdateCurrentCard)
    /\ cards σ2 = cards σ ++ [card]
    /\ phase inter = QUESTION
    /\ savingProgress inter = true
    /\ heap inter = heap state
    /\ nextCard inter = nextCard state
    /\ currentCard inter = JCard (length (cards σ))
    /\ history inter = history state ++ [length (cards σ)]
    /\ match indexOf (failedCardsLevel2 state) c with
       | Some i =>
           failedCardsLevel2 inter = delete i (failedCardsLevel2 state)
           /\ failedCardsLevel1 inter
              = failedCardsLevel1 state ++ [length (cards σ)]
           /\ completed inter = completed state
           /\ progresses σ2 !! progress card
              = Some {| level := 0; reviewed := reviewed pr |}
       | None =>
           failedCardsLevel2 inter = failedCardsLevel2 state
           /\ failedCardsLevel1 inter
              = spliceAt (indexOf (failedCardsLevel1 state) c)
                  (failedCardsLevel1 state)
           /\ completed inter = completed state + 1
           /\ progresses σ2 !! progress card
              = Some {| level := passedLevel (reviewTime state) pr;
                        reviewed := Some (reviewTime state) |}
       end.
Proof.
  intros Hcur Hcard Hpr. unfold passCard.
  rewrite Hcur, Hcard; simpl.
  destruct (indexOf (failedCardsLevel2 state) c) as [i|]; rewrite Hpr; simpl;
    (eexists _, _; split; [reflexivity|]); repeat split;
    unfold updatePassedCard, set_reviewed, set_level; simpl;
    rewrite !list_lookup_alter_eq, Hpr; reflexivity.
Qed.

End PassFailQueues.

Section FailCardMore.

Import Review.

Lemma snoc_pool_not_empty (xs ys zs : list cardref) (x : cardref) :
  (xs ++ [x]) ++ ys ++ zs <> [].
Proof. destruct xs; discriminate. Qed.

(** X1: FAIL_CARD takes the failed card out of the failed queue it is found
    in (queue one is searched first) and appends its copy to
    [failedCardsLevel2]; [completed] is unchanged, the phase is Question
    and [savingProgress] is set. *)
Theorem fail_card_queues (σ : Store) (state : ReviewState) (seed : Q)
    (c : cardref) (card : Card) (pr : Progress) :
  phase state = QUESTION \/ phase state = ANSWER ->
  currentCard state = JCard c ->
  cards σ !! c = Some card ->
  progresses σ !! progress card = Some pr ->
  exists σ' state',
    review σ state (FAIL_CARD seed) = Some (σ', state')
    /\ failedCardsLevel1 state'
       = spliceAt (indexOf (failedCardsLevel1 state) c)
           (failedCardsLevel1 state)
    /\ failedCardsLevel2 state'
       = match indexOf (failedCardsLevel1 state) c with
         | Some _ => failedCardsLevel2 state
         | None =>
             spliceAt (indexOf (failedCardsLevel2 state) c)
               (failedCardsLevel2 state)
         end ++ [length (cards σ)]
    /\ cards σ' !! length (cards σ) = Some card
    /\ completed state' = completed state
    /\ phase state' = QUESTION
    /\ savingProgress state' = true.
Proof.
  intros Hphase Hcur Hcard Hpr.
  destruct (failCard_unfold σ state seed c card pr Hcur Hcard Hpr)
    as (σ2 & inter & Hfail & Hcards & Hph & Hsp & Hco & Hhp & Hnx & Hcu
        & Hhi & Hf1 & Hf2).
  exists σ2, (updateNextCard σ2 inter seed UpdateCurrentCard).
  destruct (updateNextCard_failed σ2 inter seed UpdateCurrentCard)
    as [Hk2 Hk1].
  destruct (updateNextCard_kept σ2 inter seed UpdateCurrentCard)
    as (Hkc & Hks & _).
  assert (Hne : failedCardsLevel2 inter ++ failedCardsLevel1 inter
                ++ heap inter <> []).
  { rewrite Hf2. apply snoc_pool_not_empty. }
  destruct (updateNextCard_nonempty σ2 inter seed UpdateCurrentCard Hne)
    as (_ & _ & _ & _ & Hkp).
  split; [|split; [|split; [|split; [|split; [|split]]]]].
  - unfold review. apply reviewing_iff in Hphase. rewrite Hphase. exact Hfail.
  - rewrite Hk1. exact Hf1.
  - rewrite Hk2. exact Hf2.
  - rewrite Hcards. apply list_lookup_middle. reflexivity.
  - rewrite Hkc. exact Hco.
  - rewrite Hkp. exact Hph.
  - rewrite Hks. exact Hsp.
Qed.

(** X2: after FAIL_CARD there is always a card to show: for a seed in
    [0, 1) the new state has a current card and is in phase Question. *)
Theorem fail_card_shows_a_card (σ : Store) (state : ReviewState) (seed : Q)
    (c : cardref) (card : Card) (pr : Progress) :
  phase state = QUESTION \/ phase state = ANSWER ->
  currentCard state = JCard c ->
  cards σ !! c = Some card ->
  progresses σ !! progress card = Some pr ->
  (0 <= seed)%Q -> (seed < 1)%Q ->
  exists σ' state' c',
    review σ state (FAIL_CARD seed) = Some (σ', state')
    /\ currentCard state' = JCard c'
    /\ phase state' = QUESTION.
Proof.
  intros Hphase Hcur Hcard Hpr H0 H1.
  destruct (failCard_unfold σ state seed c card pr Hcur Hcard Hpr)
    as (σ2 & inter & Hfail & Hcards & Hph & Hsp & Hco & Hhp & Hnx & Hcu
        & Hhi & Hf1 & Hf2).
  assert (Hne : failedCardsLevel2 inter ++ failedCardsLevel1 inter
                ++ heap inter <> []).
  { rewrite Hf2. apply snoc_pool_not_empty. }
  destruct (updateNextCard_nonempty σ2 inter seed UpdateCurrentCard Hne)
    as (Hrc & _ & _ & _ & Hkp).
  assert (Hreview : review σ state (FAIL_CARD seed)
                    = Some (σ2, updateNextCard σ2 inter seed UpdateCurrentCard)).
  { unfold review. apply reviewing_iff in Hphase. rewrite Hphase. exact Hfail. }
  exists σ2, (updateNextCard σ2 inter seed UpdateCurrentCard).
  destruct (nextCard inter) as [| |n] eqn:En.
  - destruct (findNextCard_spec inter (heap inter) JNull seed H0 H1 Hne)
      as (_ & Hsel & _). destruct (Hsel eq_refl) as (c' & Hc' & _).
    rewrite Hc', Hcu in Hrc. simpl in Hrc.
    exists c'. split; [exact Hreview|]. split; [exact Hrc|].
    rewrite Hkp. exact Hph.
  - destruct (findNextCard_spec inter (heap inter) JUndefined seed H0 H1 Hne)
      as (_ & Hsel & _). destruct (Hsel eq_refl) as (c' & Hc' & _).
    rewrite Hc', Hcu in Hrc. simpl in Hrc.
    exists c'. split; [exact Hreview|]. split; [exact Hrc|].
    rewrite Hkp. exact Hph.
  - simpl in Hrc.
    exists n. split; [exact Hreview|]. split; [exact Hrc|].
    rewrite Hkp. exact Hph.
Qed.

End FailCardMore.

Section HistoryTail.

Import Review ReviewRefs.

Lemma indexOf_snoc_self (xs : list cardref) (x : cardref) :
  x ∉ xs -> indexOf (xs ++ [x]) x = Some (length xs).
Proof.
  induction xs as [|y xs IH]; simpl; intros Hx.
  - destruct (decide (x = x)); [reflexivity | contradiction].
  - apply not_elem_of_cons in Hx as [Hne Hx].
    destruct (decide (y = x)); [congruence|]. rewrite (IH Hx). reflexivity.
Qed.

Lemma splice_snoc_self (xs : list cardref) (x : cardref) :
  x ∉ xs -> spliceAt (indexOf (xs ++ [x]) x) (xs ++ [x]) = xs.
Proof.
  intros Hx. rewrite (indexOf_snoc_self _ _ Hx). simpl.
  induction xs as [|y xs IH]; simpl; [reflexivity|].
  apply not_elem_of_cons in Hx as [_ Hx]. rewrite (IH Hx). reflexivity.
Qed.

Lemma last_delete_snoc (xs : list cardref) (x : cardref) (i : nat) :
  (i < length xs)%nat -> last (delete i (xs ++ [x])) = Some x.
Proof.
  revert i. induction xs as [|y xs IH]; simpl; intros i Hi; [lia|].
  destruct i as [|i]; simpl.
  - apply last_snoc.
  - specialize (IH i ltac:(lia)).
    destruct (delete i (xs ++ [x])) eqn:E; [discriminate | exact IH].
Qed.

Lemma last_splice_other (xs : list cardref) (x c : cardref) :
  c <> x -> last (spliceAt (indexOf (xs ++ [x]) c) (xs ++ [x])) = Some x.
Proof.
  intros Hne. destruct (indexOf (xs ++ [x]) c) as [i|] eqn:Hi; simpl.
  - pose proof (indexOf_Some _ _ _ Hi) as Hl.
    apply last_delete_snoc.
    destruct (decide (i < length xs)%nat); [assumption|].
    rewrite lookup_app_r in Hl by lia.
    destruct (i - length xs)%nat; simpl in Hl; [congruence | discriminate].
  - apply last_snoc.
Qed.

Lemma at_index_last (xs : list cardref) :
  at_index xs (len xs - 1)
  = match last xs with Some c => JCard c | None => JUndefined end.
Proof.
  unfold at_index, len. destruct xs as [|x xs] using rev_ind; [reflexivity|].
  rewrite length_app, last_snoc. simpl.
  destruct (Z.ltb_spec (Z.of_nat (length xs + 1) - 1) 0); [lia|].
  replace (Z.to_nat (Z.of_nat (length xs + 1) - 1)) with (length xs) by lia.
  rewrite list_lookup_middle by reflexivity. reflexivity.
Qed.

Lemma allocated_elim σ state :
  allocated σ state = true ->
  (forall c, c ∈ heap state -> (c < length (cards σ))%nat)
  /\ (forall c, c ∈ failedCardsLevel1 state -> (c < length (cards σ))%nat)
  /\ (forall c, c ∈ failedCardsLevel2 state -> (c < length (cards σ))%nat)
  /\ (forall c, c ∈ history state -> (c < length (cards σ))%nat)
  /\ (forall c, currentCard state = JCard c -> (c < length (cards σ))%nat)
  /\ (forall c, nextCard state = JCard c -> (c < length (cards σ))%nat).
Proof.
  unfold allocated. rewrite !andb_true_iff. intros [[Hall Hcur] Hnext].
  rewrite forallb_forall in Hall.
  assert (Hin : forall c,
    c ∈ heap state ++ failedCardsLevel1 state ++ failedCardsLevel2 state
        ++ history state -> (c < length (cards σ))%nat).
  { intros c Hc. apply Nat.ltb_lt, Hall, list_elem_of_In, Hc. }
  repeat split; intros c Hc.
  - apply Hin. rewrite !elem_of_app. auto.
  - apply Hin. rewrite !elem_of_app. auto.
  - apply Hin. rewrite !elem_of_app. auto.
  - apply Hin. rewrite !elem_of_app. auto.
  - rewrite Hc in Hcur. apply Nat.ltb_lt, Hcur.
  - rewrite Hc in Hnext. apply Nat.ltb_lt, Hnext.
Qed.

Lemma findNextCard_elem state hp cur n seed c :
  findNextCard state hp cur n seed = JCard c ->
  c ∈ failedCardsLevel2 state ++ failedCardsLevel1 state ++ hp.
Proof.
  unfold findNextCard. destruct (n =? 0); [discriminate|].
  rewrite !getCardAtIndex_pool.
  destruct (decide _); [destruct (n =? 1); [discriminate|]|];
    apply at_index_elem.
Qed.

End HistoryTail.

Section PassCardMore.

Import Review ReviewRefs.

Lemma review_pass σ state seed :
  phase state = QUESTION \/ phase state = ANSWER ->
  review σ state (PASS_CARD seed) = passCard σ state seed.
Proof. intros H. apply reviewing_iff in H. unfold review. rewrite H. reflexivity. Qed.

Lemma review_fail σ state seed :
  phase state = QUESTION \/ phase state = ANSWER ->
  review σ state (FAIL_CARD seed) = failCard σ state seed.
Proof. intros H. apply reviewing_iff in H. unfold review. rewrite H. reflexivity. Qed.

(** X3: PASS_CARD on a card that is in [failedCardsLevel2] asks for one more
    correct answer: the card leaves that queue, its copy is appended to
    [failedCardsLevel1], [completed] is unchanged, and the card's level is
    forced to 0 while its [reviewed] timestamp is kept. *)
Theorem pass_card_needs_one_more (σ : Store) (state : ReviewState) (seed : Q)
    (c : cardref) (card : Card) (pr : Progress) :
  phase state = QUESTION \/ phase state = ANSWER ->
  currentCard state = JCard c ->
  c ∈ failedCardsLevel2 state ->
  cards σ !! c = Some card ->
  progresses σ !! progress card = Some pr ->
  exists σ' state' i,
    review σ state (PASS_CARD seed) = Some (σ', state')
    /\ failedCardsLevel2 state !! i = Some c
    /\ failedCardsLevel2 state' = delete i (failedCardsLevel2 state)
    /\ failedCardsLevel1 state'
       = failedCardsLevel1 state ++ [length (cards σ)]
    /\ cards σ' !! length (cards σ) = Some card
    /\ completed state' = completed state
    /\ progressOf σ' c = Some {| level := 0; reviewed := reviewed pr |}.
Proof.
  intros Hphase Hcur Hin Hcard Hpr.
  destruct (passCard_unfold σ state seed c card pr Hcur Hcard Hpr)
    as (σ2 & inter & Hpass & Hcards & _ & _ & _ & _ & _ & _ & Hq).
  destruct (indexOf (failedCardsLevel2 state) c) as [i|] eqn:Hi.
  2: { apply indexOf_None in Hi. contradiction. }
  destruct Hq as (Hf2 & Hf1 & Hco & Hprog).
  destruct (updateNextCard_failed σ2 inter seed UpdateCurrentCard)
    as [Hk2 Hk1].
  destruct (updateNextCard_kept σ2 inter seed UpdateCurrentCard)
    as (Hkc & _).
  exists σ2, (updateNextCard σ2 inter seed UpdateCurrentCard), i.
  split; [rewrite review_pass by exact Hphase; exact Hpass|].
  split; [apply indexOf_Some, Hi|].
  split; [rewrite Hk2; exact Hf2|].
  split; [rewrite Hk1; exact Hf1|].
  split; [rewrite Hcards; apply list_lookup_middle; reflexivity|].
  split; [rewrite Hkc; exact Hco|].
  unfold progressOf. rewrite Hcards, (lookup_app_l_Some _ _ _ _ Hcard).
  exact Hprog.
Qed.

(** X4: PASS_CARD on a card that is not in [failedCardsLevel2] completes
    it: [completed] grows by one, the card is dropped from
    [failedCardsLevel1] if it was there, [failedCardsLevel2] is unchanged
    and [savingProgress] is set. *)
Theorem pass_card_completes (σ : Store) (state : ReviewState) (seed : Q)
    (c : cardref) (card : Card) (pr : Progress) :
  phase state = QUESTION \/ phase state = ANSWER ->
  currentCard state = JCard c ->
  c ∉ failedCardsLevel2 state ->
  cards σ !! c = Some card ->
  progresses σ !! progress card = Some pr ->
  exists σ' state',
    review σ state (PASS_CARD seed) = Some (σ', state')
    /\ completed state' = completed state + 1
    /\ failedCardsLevel2 state' = failedCardsLevel2 state
    /\ failedCardsLevel1 state'
       = spliceAt (indexOf (failedCardsLevel1 state) c)
           (failedCardsLevel1 state)
    /\ savingProgress state' = true.
Proof.
  intros Hphase Hcur Hnot Hcard Hpr.
  destruct (passCard_unfold σ state seed c card pr Hcur Hcard Hpr)
    as (σ2 & inter & Hpass & Hcards & _ & Hsp & _ & _ & _ & _ & Hq).
  apply indexOf_None in Hnot. rewrite Hnot in Hq.
  destruct Hq as (Hf2 & Hf1 & Hco & _).
  destruct (updateNextCard_failed σ2 inter seed UpdateCurrentCard)
    as [Hk2 Hk1].
  destruct (updateNextCard_kept σ2 inter seed UpdateCurrentCard)
    as (Hkc & Hks & _).
  exists σ2, (updateNextCard σ2 inter seed UpdateCurrentCard).
  split; [rewrite review_pass by exact Hphase; exact Hpass|].
  split; [rewrite Hkc; exact Hco|].
  split; [rewrite Hk2; exact Hf2|].
  split; [rewrite Hk1; exact Hf1|].
  rewrite Hks. exact Hsp.
Qed.

(** X5: passing the last card ends the review: with an empty heap, an empty
    [failedCardsLevel2] and no other card in [failedCardsLevel1],
    PASS_CARD leaves phase Complete, no current and no next card, and the
    copy of the passed card at the end of [history]. *)
Theorem pass_last_card_completes (σ : Store) (state : ReviewState) (seed : Q)
    (c : cardref) (card : Card) (pr : Progress) :
  phase state = QUESTION \/ phase state = ANSWER ->
  currentCard state = JCard c ->
  heap state = [] ->
  failedCardsLevel2 state = [] ->
  failedCardsLevel1 state = [] \/ failedCardsLevel1 state = [c] ->
  cards σ !! c = Some card ->
  progresses σ !! progress card = Some pr ->
  exists σ' state',
    review σ state (PASS_CARD seed) = Some (σ', state')
    /\ phase state' = COMPLETE
    /\ currentCard state' = JNull
    /\ nextCard state' = JNull
    /\ history state' = history state ++ [length (cards σ)]
    /\ completed state' = completed state + 1.
Proof.
  intros Hphase Hcur Hheap Hf2 Hf1 Hcard Hpr.
  destruct (passCard_unfold σ state seed c card pr Hcur Hcard Hpr)
    as (σ2 & inter & Hpass & Hcards & _ & _ & Hhp & _ & _ & Hhi & Hq).
  rewrite Hf2 in Hq. simpl in Hq. destruct Hq as (Hi2 & Hi1 & Hco & _).
  assert (Hi1' : failedCardsLevel1 inter = []).
  { rewrite Hi1. destruct Hf1 as [-> | ->]; simpl; [reflexivity|].
    destruct (decide (c = c)); [reflexivity | contradiction]. }
  exists σ2, (updateNextCard σ2 inter seed UpdateCurrentCard).
  split; [rewrite review_pass by exact Hphase; exact Hpass|].
  unfold updateNextCard. rewrite Hi2, Hi1', Hhp, Hheap. simpl.
  repeat split; assumption.
Qed.

End PassCardMore.

Section LastCard.

Import Review ReviewRefs Sagas.

Lemma fresh_not_in_history σ state :
  allocated σ state = true -> length (cards σ) ∉ history state.
Proof.
  intros Ha Hin. destruct (allocated_elim σ state Ha) as (_ & _ & _ & Hh & _).
  specialize (Hh _ Hin). lia.
Qed.

(** X6: failing the last card shows it again: when there is no next card,
    the heap is empty and the failed queues hold at most the current
    card, FAIL_CARD (with a seed in [0, 1)) makes the copy of the failed
    card the current card, with no next card, and leaves [history] as it
    was; [updateProgress] then saves that copy. *)
Theorem fail_last_card_shows_it_again (σ : Store) (state : ReviewState)
    (seed : Q) (c : cardref) (card : Card) (pr : Progress) :
  phase state = QUESTION \/ phase state = ANSWER ->
  currentCard state = JCard c ->
  nextCard state = JNull ->
  heap state = [] ->
  failedCardsLevel1 state ++ failedCardsLevel2 state = []
  \/ failedCardsLevel1 state ++ failedCardsLevel2 state = [c] ->
  allocated σ state = true ->
  cards σ !! c = Some card ->
  progresses σ !! progress card = Some pr ->
  (0 <= seed)%Q -> (seed < 1)%Q ->
  exists σ' state',
    review σ state (FAIL_CARD seed) = Some (σ', state')
    /\ currentCard state' = JCard (length (cards σ))
    /\ cards σ' !! length (cards σ) = Some card
    /\ nextCard state' = JNull
    /\ failedCardsLevel1 state' = []
    /\ failedCardsLevel2 state' = [length (cards σ)]
    /\ history state' = history state
    /\ updateProgress_card state' (FAIL_CARD seed)
       = JCard (length (cards σ)).
Proof.
  intros Hphase Hcur Hnext Hheap Hq Ha Hcard Hpr H0 H1.
  destruct (failCard_unfold σ state seed c card pr Hcur Hcard Hpr)
    as (σ2 & inter & Hfail & Hcards & Hph & Hsp & Hco & Hhp & Hnx & Hcu
        & Hhi & Hf1 & Hf2).
  assert (Hqueues : failedCardsLevel1 inter = []
                    /\ failedCardsLevel2 inter = [length (cards σ)]).
  { rewrite Hf1, Hf2.
    destruct (failedCardsLevel1 state) as [|x [|y f1]];
      destruct (failedCardsLevel2 state) as [|u [|v f2]];
      destruct Hq as [Hq|Hq]; simplify_eq/=; try (split; reflexivity);
      destruct (decide (c = c)); try contradiction; split; reflexivity. }
  destruct Hqueues as [Hi1 Hi2].
  assert (Hne : failedCardsLevel2 inter ++ failedCardsLevel1 inter
                ++ heap inter <> []).
  { rewrite Hi2. discriminate. }
  destruct (updateNextCard_nonempty σ2 inter seed UpdateCurrentCard Hne)
    as (Hrc & Hrn & _ & Hrh & _).
  destruct (updateNextCard_failed σ2 inter seed UpdateCurrentCard)
    as [Hk2 Hk1].
  rewrite Hnx, Hnext in Hrc, Hrn, Hrh.
  destruct (findNextCard_spec inter (heap inter) JNull seed H0 H1 Hne)
    as (_ & Hsel & _). destruct (Hsel eq_refl) as (c' & Hc' & Hin).
  rewrite Hi2, Hi1, Hhp, Hheap in Hin. simpl in Hin.
  apply list_elem_of_singleton in Hin. subst c'.
  rewrite Hc', Hcu in Hrc, Hrn, Hrh. simpl in Hrc, Hrn, Hrh.
  rewrite Hhi, (splice_snoc_self _ _ (fresh_not_in_history σ state Ha)) in Hrh.
  exists σ2, (updateNextCard σ2 inter seed UpdateCurrentCard).
  split; [rewrite review_fail by exact Hphase; exact Hfail|].
  split; [exact Hrc|].
  split; [rewrite Hcards; apply list_lookup_middle; reflexivity|].
  split; [exact Hrn|].
  split; [rewrite Hk1; exact Hi1|].
  split; [rewrite Hk2; exact Hi2|].
  split; [exact Hrh|].
  unfold updateProgress_card. rewrite Hrn, Hrc.
  rewrite bool_decide_eq_true_2 by reflexivity. reflexivity.
Qed.

End LastCard.

Section SavedCard.

Import Review ReviewRefs Sagas.

Lemma elem_of_spliceAt (xs : list cardref) (i : option nat) (x : cardref) :
  x ∈ spliceAt i xs -> x ∈ xs.
Proof. destruct i; simpl; [apply list_elem_of_delete_inv | auto]. Qed.

Lemma at_index_not_null (xs : list cardref) (i : Z) : at_index xs i <> JNull.
Proof.
  unfold at_index. destruct (i <? 0); [discriminate|].
  destruct (xs !! Z.to_nat i); discriminate.
Qed.

(** [updateNextCard] on an empty pool. *)
Lemma updateNextCard_empty σ state seed mode :
  failedCardsLevel2 state ++ failedCardsLevel1 state ++ heap state = [] ->
  history (updateNextCard σ state seed mode) = history state
  /\ nextCard (updateNextCard σ state seed mode) = JNull.
Proof.
  intros Hnil. unfold updateNextCard.
  replace (len (failedCardsLevel2 state) + len (failedCardsLevel1 state)
           + len (heap state) =? 0) with true.
  2: { symmetry. apply Z.eqb_eq. rewrite <- len_pool, Hnil. reflexivity. }
  destruct (_ || _); split; reflexivity.
Qed.

(** After [updateNextCard] in mode UpdateCurrentCard on a history that
    ends with a card [x] which is neither the previous next card nor in
    the pool, the history still ends with [x]. *)
Lemma updateNextCard_history_tail σ state seed (h : list cardref)
    (x : cardref) :
  history state = h ++ [x] ->
  nextCard state <> JCard x ->
  x ∉ failedCardsLevel2 state ++ failedCardsLevel1 state ++ heap state ->
  last (history (updateNextCard σ state seed UpdateCurrentCard)) = Some x.
Proof.
  intros Hh Hnx Hpool.
  destruct (decide (failedCardsLevel2 state ++ failedCardsLevel1 state
                    ++ heap state = [])) as [Hnil|Hne].
  - rewrite (proj1 (updateNextCard_empty σ state seed _ Hnil)), Hh.
    apply last_snoc.
  - destruct (updateNextCard_nonempty σ state seed UpdateCurrentCard Hne)
      as (_ & _ & _ & Hrh & _).
    rewrite Hrh, Hh. clear Hrh.
    match goal with
    | |- context [if ?b then ?s else _] =>
        destruct b; [destruct s as [| |c0] eqn:Hs|]
    end; try apply last_snoc.
    + apply last_splice_other. intros ->. apply Hpool.
      apply findNextCard_elem in Hs.
      rewrite !elem_of_app in Hs. rewrite !elem_of_app.
      destruct Hs as [Hs|[Hs|Hs]]; auto.
      right; right. destruct (nextCard state); simpl in Hs; auto.
      eapply elem_of_spliceAt, Hs.
    + destruct (nextCard state) as [| |c0] eqn:Hn; try apply last_snoc.
      apply last_splice_other. congruence.
Qed.

(** X7: after a PASS_CARD that completes the card, [updateProgress] saves
    the copy of the passed card: it is the last entry of [history]. *)
Theorem updateProgress_saves_passed_card (σ : Store) (state : ReviewState)
    (seed : Q) (c : cardref) (card : Card) (pr : Progress) :
  phase state = QUESTION \/ phase state = ANSWER ->
  currentCard state = JCard c ->
  c ∉ failedCardsLevel2 state ->
  allocated σ state = true ->
  cards σ !! c = Some card ->
  progresses σ !! progress card = Some pr ->
  exists σ' state',
    review σ state (PASS_CARD seed) = Some (σ', state')
    /\ last (history state') = Some (length (cards σ))
    /\ updateProgress_card state' (PASS_CARD seed)
       = JCard (length (cards σ))
    /\ cards σ' !! length (cards σ) = Some card.
Proof.
  intros Hphase Hcur Hnot Ha Hcard Hpr.
  destruct (passCard_unfold σ state seed c card pr Hcur Hcard Hpr)
    as (σ2 & inter & Hpass & Hcards & _ & _ & Hhp & Hnx & _ & Hhi & Hq).
  pose proof Hnot as Hnot'. apply indexOf_None in Hnot'.
  rewrite Hnot' in Hq. destruct Hq as (Hf2 & Hf1 & _).
  destruct (allocated_elim σ state Ha) as (Hah & Ha1 & Ha2 & _ & _ & Han).
  assert (Hlast :
    last (history (updateNextCard σ2 inter seed UpdateCurrentCard))
    = Some (length (cards σ))).
  { apply (updateNextCard_history_tail σ2 inter seed (history state)).
    - exact Hhi.
    - rewrite Hnx. intros Hn. specialize (Han _ Hn). lia.
    - rewrite Hf2, Hf1, Hhp, !elem_of_app. intros [H|[H|H]].
      + specialize (Ha2 _ H). lia.
      + apply elem_of_spliceAt in H. specialize (Ha1 _ H). lia.
      + specialize (Hah _ H). lia. }
  exists σ2, (updateNextCard σ2 inter seed UpdateCurrentCard).
  split; [rewrite review_pass by exact Hphase; exact Hpass|].
  split; [exact Hlast|].
  split; [|rewrite Hcards; apply list_lookup_middle; reflexivity].
  unfold updateProgress_card. rewrite andb_false_r, at_index_last, Hlast.
  reflexivity.
Qed.

End SavedCard.

Section SavedCardFail.

Import Review ReviewRefs Sagas.

Lemma findNextCard_not_null state hp c0 n seed x :
  n = len (failedCardsLevel2 state ++ failedCardsLevel1 state ++ hp) ->
  x ∈ failedCardsLevel2 state ++ failedCardsLevel1 state ++ hp ->
  c0 <> x ->
  findNextCard state hp (JCard c0) n seed <> JNull.
Proof.
  intros -> Hx Hcur. unfold findNextCard.
  set (pool := failedCardsLevel2 state ++ failedCardsLevel1 state ++ hp) in *.
  destruct (Z.eqb_spec (len pool) 0) as [Hz|_].
  { unfold len in Hz. destruct pool; [inversion Hx | simpl in Hz; lia]. }
  rewrite !getCardAtIndex_pool. fold pool.
  destruct (decide _) as [Heq|]; [|apply at_index_not_null].
  destruct (Z.eqb_spec (len pool) 1) as [Hone|_]; [|apply at_index_not_null].
  exfalso. apply at_index_elem in Heq.
  destruct pool as [|y [|z pool']]; unfold len in Hone; simpl in Hone; try lia.
  apply list_elem_of_singleton in Heq, Hx. congruence.
Qed.

(** X8: after a FAIL_CARD with a next card at hand, [updateProgress] saves
    the copy of the failed card: the old next card is current, the next
    card is not null (for a seed in [0, 1) it is a card), and the copy is
    the last entry of [history]. *)
Theorem updateProgress_saves_failed_card (σ : Store) (state : ReviewState)
    (seed : Q) (c n : cardref) (card : Card) (pr : Progress) :
  phase state = QUESTION \/ phase state = ANSWER ->
  currentCard state = JCard c ->
  nextCard state = JCard n ->
  allocated σ state = true ->
  cards σ !! c = Some card ->
  progresses σ !! progress card = Some pr ->
  exists σ' state',
    review σ state (FAIL_CARD seed) = Some (σ', state')
    /\ currentCard state' = JCard n
    /\ nextCard state' <> JNull
    /\ last (history state') = Some (length (cards σ))
    /\ updateProgress_card state' (FAIL_CARD seed)
       = JCard (length (cards σ))
    /\ cards σ' !! length (cards σ) = Some card
    /\ ((0 <= seed)%Q -> (seed < 1)%Q ->
        exists n', nextCard state' = JCard n').
Proof.
  intros Hphase Hcur Hnext Ha Hcard Hpr.
  destruct (failCard_unfold σ state seed c card pr Hcur Hcard Hpr)
    as (σ2 & inter & Hfail & Hcards & Hph & Hsp & Hco & Hhp & Hnx & Hcu
        & Hhi & Hf1 & Hf2).
  destruct (allocated_elim σ state Ha) as (Hah & Ha1 & Ha2 & Hahi & _ & Han).
  specialize (Han _ Hnext).
  assert (Hne : failedCardsLevel2 inter ++ failedCardsLevel1 inter
                ++ heap inter <> []).
  { rewrite Hf2. apply snoc_pool_not_empty. }
  destruct (updateNextCard_nonempty σ2 inter seed UpdateCurrentCard Hne)
    as (Hrc & Hrn & _ & Hrh & _).
  rewrite Hnx, Hnext in Hrc, Hrn, Hrh. simpl in Hrc, Hrn, Hrh.
  assert (Hnn : nextCard (updateNextCard σ2 inter seed UpdateCurrentCard)
                <> JNull).
  { rewrite Hrn.
    apply (findNextCard_not_null inter _ _ _ seed (length (cards σ)));
      [reflexivity | | lia].
    rewrite Hf2, !elem_of_app. left. right.
    apply list_elem_of_singleton. reflexivity. }
  assert (Hlast :
    last (history (updateNextCard σ2 inter seed UpdateCurrentCard))
    = Some (length (cards σ))).
  { rewrite Hrh, Hhi. apply last_splice_other. lia. }
  exists σ2, (updateNextCard σ2 inter seed UpdateCurrentCard).
  split; [rewrite review_fail by exact Hphase; exact Hfail|].
  split; [exact Hrc|]. split; [exact Hnn|]. split; [exact Hlast|].
  split; [|split; [rewrite Hcards; apply list_lookup_middle; reflexivity|]].
  - unfold updateProgress_card.
    rewrite bool_decide_eq_false_2 by exact Hnn.
    simpl. rewrite at_index_last, Hlast. reflexivity.
  - intros H0 H1.
    assert (Hne' : failedCardsLevel2 inter ++ failedCardsLevel1 inter
                   ++ spliceAt (indexOf (heap inter) n) (heap inter) <> []).
    { rewrite Hf2. apply snoc_pool_not_empty. }
    destruct (findNextCard_spec inter
                (spliceAt (indexOf (heap inter) n) (heap inter))
                (JCard n) seed H0 H1 Hne') as [[Hnull|(n' & Hn' & _)] _].
    + exfalso. apply Hnn. rewrite Hrn. exact Hnull.
    + exists n'. rewrite Hrn. exact Hn'.
Qed.

(** X9: passing the last card while it still is in [failedCardsLevel2]
    shows it again: its copy, now the only card of [failedCardsLevel1],
    becomes the current card with no next card, and it is not appended to
    [history].  [updateProgress], which for a PASS_CARD reads the last
    entry of [history], therefore reads the entry of an earlier card
    (undefined when the history is empty) and not the card just
    passed. *)
Theorem pass_last_failed_card_not_in_history (σ : Store)
    (state : ReviewState) (seed : Q) (c : cardref) (card : Card)
    (pr : Progress) :
  phase state = QUESTION \/ phase state = ANSWER ->
  currentCard state = JCard c ->
  nextCard state = JNull ->
  heap state = [] ->
  failedCardsLevel1 state = [] ->
  failedCardsLevel2 state = [c] ->
  allocated σ state = true ->
  cards σ !! c = Some card ->
  progresses σ !! progress card = Some pr ->
  (0 <= seed)%Q -> (seed < 1)%Q ->
  exists σ' state',
    review σ state (PASS_CARD seed) = Some (σ', state')
    /\ currentCard state' = JCard (length (cards σ))
    /\ nextCard state' = JNull
    /\ failedCardsLevel1 state' = [length (cards σ)]
    /\ failedCardsLevel2 state' = []
    /\ history state' = history state
    /\ phase state' = QUESTION
    /\ updateProgress_card state' (PASS_CARD seed)
       = at_index (history state) (len (history state) - 1)
    /\ updateProgress_card state' (PASS_CARD seed)
       <> JCard (length (cards σ)).
Proof.
  intros Hphase Hcur Hnext Hheap Hs1 Hs2 Ha Hcard Hpr H0 H1.
  destruct (passCard_unfold σ state seed c card pr Hcur Hcard Hpr)
    as (σ2 & inter & Hpass & Hcards & Hph & _ & Hhp & Hnx & Hcu & Hhi & Hq).
  rewrite Hs2 in Hq. simpl in Hq.
  destruct (decide (c = c)); [|contradiction].
  destruct Hq as (Hf2 & Hf1 & _). simpl in Hf2. rewrite Hs1 in Hf1.
  simpl in Hf1.
  assert (Hne : failedCardsLevel2 inter ++ failedCardsLevel1 inter
                ++ heap inter <> []).
  { rewrite Hf2, Hf1. discriminate. }
  destruct (updateNextCard_nonempty σ2 inter seed UpdateCurrentCard Hne)
    as (Hrc & Hrn & _ & Hrh & Hrp).
  destruct (updateNextCard_failed σ2 inter seed UpdateCurrentCard)
    as [Hk2 Hk1].
  rewrite Hnx, Hnext in Hrc, Hrn, Hrh.
  destruct (findNextCard_spec inter (heap inter) JNull seed H0 H1 Hne)
    as (_ & Hsel & _). destruct (Hsel eq_refl) as (c' & Hc' & Hin).
  rewrite Hf2, Hf1, Hhp, Hheap in Hin. simpl in Hin.
  apply list_elem_of_singleton in Hin. subst c'.
  rewrite Hc', Hcu in Hrc, Hrn, Hrh. simpl in Hrc, Hrn, Hrh.
  pose proof (fresh_not_in_history σ state Ha) as Hfresh.
  rewrite Hhi, (splice_snoc_self _ _ Hfresh) in Hrh.
  assert (Hsaved :
    updateProgress_card (updateNextCard σ2 inter seed UpdateCurrentCard)
      (PASS_CARD seed)
    = at_index (history state) (len (history state) - 1)).
  { unfold updateProgress_card. rewrite andb_false_r, Hrh. reflexivity. }
  exists σ2, (updateNextCard σ2 inter seed UpdateCurrentCard).
  split; [rewrite review_pass by exact Hphase; exact Hpass|].
  split; [exact Hrc|]. split; [exact Hrn|].
  split; [rewrite Hk1; exact Hf1|]. split; [rewrite Hk2; exact Hf2|].
  split; [exact Hrh|]. split; [rewrite Hrp; exact Hph|].
  split; [exact Hsaved|].
  rewrite Hsaved. intros Heq. apply at_index_elem in Heq. contradiction.
Qed.

(** X10: on a pool without duplicates and for a seed in [0, 1),
    [updateNextCard] never leaves the current card as next card. *)
Theorem updateNextCard_next_is_not_current (σ : Store) (state : ReviewState)
    (seed : Q) (mode : UpdateMode) :
  (0 <= seed)%Q -> (seed < 1)%Q ->
  NoDup (failedCardsLevel2 state ++ failedCardsLevel1 state ++ heap state) ->
  forall c,
    nextCard (updateNextCard σ state seed mode) = JCard c ->
    currentCard (updateNextCard σ state seed mode) <> JCard c.
Proof.
  intros H0 H1 Hnd c.
  destruct (decide (failedCardsLevel2 state ++ failedCardsLevel1 state
                    ++ heap state = [])) as [Hnil|Hne].
  { rewrite (proj2 (updateNextCard_empty σ state seed mode Hnil)).
    discriminate. }
  destruct (updateNextCard_nonempty σ state seed mode Hne)
    as (Hrc & Hrn & _).
  rewrite Hrc, Hrn. clear Hrc Hrn.
  set (cur := match mode with
              | UpdateCurrentCard => nextCard state
              | ReplaceNextCard => currentCard state
              end).
  set (hp := match mode, cur with
             | UpdateCurrentCard, JCard c0 =>
                 spliceAt (indexOf (heap state) c0) (heap state)
             | _, _ => heap state
             end).
  assert (Hsub : NoDup (failedCardsLevel2 state ++ failedCardsLevel1 state
                        ++ hp)).
  { apply (sublist_NoDup _ _ Hnd).
    apply sublist_app; [reflexivity|]. apply sublist_app; [reflexivity|].
    subst hp. destruct mode; [|reflexivity].
    destruct cur; try reflexivity.
    unfold spliceAt. destruct (indexOf _ _); [apply sublist_delete|reflexivity]. }
  destruct (decide (failedCardsLevel2 state ++ failedCardsLevel1 state
                    ++ hp = [])) as [Hnil'|Hne'].
  { unfold findNextCard. rewrite Hnil'. simpl.
    rewrite andb_false_r. discriminate. }
  destruct (findNextCard_spec state hp cur seed H0 H1 Hne')
    as (_ & _ & Hdiff & _).
  destruct (Hdiff Hsub) as [Hnull|Hneq].
  - rewrite Hnull. simpl. rewrite andb_false_r. discriminate.
  - destruct (_ && _); [discriminate|]. intros Hs Hc. congruence.
Qed.

End SavedCardFail.

Section StoreEvents.

Import Review.

Lemma with_cards_same (state : ReviewState) :
  with_cards (heap state) (failedCardsLevel1 state) (failedCardsLevel2 state)
    (history state) (currentCard state) (nextCard state) state
  = state.
Proof. destruct state; reflexivity. Qed.

Lemma replaceCard_absent σ card (xs : list cardref) :
  (forall c, c ∈ xs -> sameId σ c card = false) ->
  replaceCard σ card <$> xs = xs.
Proof.
  intros H. induction xs as [|x xs IH]; [reflexivity|].
  rewrite fmap_cons, IH by (intros c Hc; apply H; right; exact Hc).
  unfold replaceCard. rewrite (H x) by left. reflexivity.
Qed.

Lemma findIndex_absent (f : cardref -> bool) (xs : list cardref) :
  (forall c, c ∈ xs -> f c = false) -> findIndex f xs = None.
Proof.
  intros H. induction xs as [|x xs IH]; simpl; [reflexivity|].
  rewrite (H x) by left. rewrite IH; [reflexivity|].
  intros c Hc. apply H. right. exact Hc.
Qed.

Lemma replaceValue_absent σ card (v : jsval) :
  (forall c, v = JCard c -> sameId σ c card = false) ->
  replaceValue σ card v = v.
Proof.
  intros H. destruct v as [| |c]; try reflexivity. simpl.
  unfold replaceCard. rewrite (H c eq_refl). reflexivity.
Qed.

(** X11: UPDATE_REVIEW_CARD for a card whose [_id] no card of the state has
    changes nothing. *)
Theorem update_review_card_unknown_id (σ : Store) (state : ReviewState)
    (card : cardref) :
  (forall c,
     c ∈ heap state ++ failedCardsLevel1 state ++ failedCardsLevel2 state
         ++ history state
     \/ currentCard state = JCard c \/ nextCard state = JCard c ->
     sameId σ c card = false) ->
  review σ state (UPDATE_REVIEW_CARD card) = Some (σ, state).
Proof.
  intros H. simpl. unfold updateReviewCard.
  rewrite !replaceCard_absent, !replaceValue_absent, with_cards_same;
    [reflexivity | ..];
    intros c Hc; apply H; rewrite ?elem_of_app; auto 10.
Qed.

(** X12: UPDATE_REVIEW_CARD keeps the store, the phase, the counters and the
    length of every array, and afterwards every card of the state that
    has the [_id] of the updated card is the updated card object
    itself. *)
Theorem update_review_card_replaces (σ : Store) (state : ReviewState)
    (card : cardref) :
  exists state',
    review σ state (UPDATE_REVIEW_CARD card) = Some (σ, state')
    /\ phase state' = phase state
    /\ completed state' = completed state
    /\ newCardsInPlay state' = newCardsInPlay state
    /\ length (heap state') = length (heap state)
    /\ length (failedCardsLevel1 state') = length (failedCardsLevel1 state)
    /\ length (failedCardsLevel2 state') = length (failedCardsLevel2 state)
    /\ length (history state') = length (history state)
    /\ truthy (currentCard state') = truthy (currentCard state)
    /\ truthy (nextCard state') = truthy (nextCard state)
    /\ (forall c,
          c ∈ heap state' ++ failedCardsLevel1 state'
              ++ failedCardsLevel2 state' ++ history state'
          \/ currentCard state' = JCard c \/ nextCard state' = JCard c ->
          sameId σ c card = true -> c = card).
Proof.
  exists (updateReviewCard σ state card). split; [reflexivity|].
  unfold updateReviewCard; simpl. rewrite !length_fmap.
  repeat split; try (destruct (currentCard state); reflexivity);
    try (destruct (nextCard state); reflexivity).
  assert (Hrep : forall x c, c = replaceCard σ card x ->
                 sameId σ c card = true -> c = card).
  { intros x c -> Hs. unfold replaceCard in *.
    destruct (sameId σ x card) eqn:E; [reflexivity | congruence]. }
  intros c [Hc|[Hc|Hc]].
  - rewrite !elem_of_app in Hc.
    destruct Hc as [Hc|[Hc|[Hc|Hc]]];
      apply list_elem_of_fmap in Hc as (x & Hx & _); eapply Hrep, Hx.
  - destruct (currentCard state) as [| |x]; simpl in Hc; try discriminate.
    injection Hc as Hc. eapply Hrep. symmetry. exact Hc.
  - destruct (nextCard state) as [| |x]; simpl in Hc; try discriminate.
    injection Hc as Hc. eapply Hrep. symmetry. exact Hc.
Qed.

(** X13: DELETE_REVIEW_CARD for an [id] that no card of the state has
    changes nothing. *)
Theorem delete_review_card_unknown_id (σ : Store) (state : ReviewState)
    (id : string) (seed : Q) :
  (forall c,
     c ∈ heap state ++ failedCardsLevel1 state ++ failedCardsLevel2 state
         ++ history state
     \/ currentCard state = JCard c \/ nextCard state = JCard c ->
     hasId σ id c = false) ->
  review σ state (DELETE_REVIEW_CARD id seed) = Some (σ, state).
Proof.
  intros H. simpl. unfold deleteReviewCard.
  assert (Hn : valueHasId σ id (nextCard state) = false).
  { destruct (nextCard state) as [| |c] eqn:E; try reflexivity.
    simpl. apply H. auto. }
  assert (Hc : valueHasId σ id (currentCard state) = false).
  { destruct (currentCard state) as [| |c] eqn:E; try reflexivity.
    simpl. apply H. auto. }
  rewrite Hn, Hc.
  rewrite !findIndex_absent; simpl; [rewrite with_cards_same; reflexivity|..];
    intros c Hin; apply H; rewrite ?elem_of_app; auto 10.
Qed.

End StoreEvents.

Section ReviewLoaded.

Import Review.

(** X14: REVIEW_LOADED with no card at all (none loaded, none in the failed
    queues, no current card) ends in phase Complete, or Idle when it is
    the initial load, with no current and no next card. *)
Theorem review_loaded_nothing (σ : Store) (state : ReviewState)
    (history' failed1' failed2' : option (list cardref))
    (seed1 seed2 : Q) (initialReview : bool) :
  truthy (currentCard state) = false ->
  default (failedCardsLevel1 state) failed1' = [] ->
  default (failedCardsLevel2 state) failed2' = [] ->
  exists state',
    review σ state
      (REVIEW_LOADED [] history' failed1' failed2' seed1 seed2 initialReview)
    = Some (σ, state')
    /\ phase state' = (if initialReview then IDLE else COMPLETE)
    /\ currentCard state' = JNull
    /\ nextCard state' = JNull
    /\ heap state' = [].
Proof.
  intros Hcur Hf1 Hf2. eexists. split; [reflexivity|].
  unfold reviewLoaded, updateNextCard. simpl. rewrite Hf1, Hf2, Hcur. simpl.
  destruct initialReview; repeat split.
Qed.

(** X15: REVIEW_LOADED that finds cards while no card is current starts the
    review: for a next-card seed in [0, 1), a card of the pool becomes the
    current card, and a state that was Loading or Complete is in phase
    Question. *)
Theorem review_loaded_starts (σ : Store) (state : ReviewState)
    (cards : list cardref)
    (history' failed1' failed2' : option (list cardref))
    (seed1 seed2 : Q) (initialReview : bool) :
  truthy (currentCard state) = false ->
  phase state = LOADING \/ phase state = COMPLETE ->
  default (failedCardsLevel2 state) failed2'
  ++ default (failedCardsLevel1 state) failed1' ++ cards <> [] ->
  (0 <= seed1)%Q -> (seed1 < 1)%Q ->
  exists state' c,
    review σ state
      (REVIEW_LOADED cards history' failed1' failed2' seed1 seed2
         initialReview)
    = Some (σ, state')
    /\ currentCard state' = JCard c
    /\ c ∈ default (failedCardsLevel2 state) failed2'
           ++ default (failedCardsLevel1 state) failed1' ++ cards
    /\ phase state' = QUESTION
    /\ failedCardsLevel1 state' = default (failedCardsLevel1 state) failed1'
    /\ failedCardsLevel2 state' = default (failedCardsLevel2 state) failed2'.
Proof.
  intros Hcur Hphase Hne H0 H1.
  set (st0 := with_cards cards
                (default (failedCardsLevel1 state) failed1')
                (default (failedCardsLevel2 state) failed2')
                (default (history state) history')
                (currentCard state) (nextCard state) state).
  assert (Hne0 : failedCardsLevel2 st0 ++ failedCardsLevel1 st0 ++ heap st0
                 <> []) by exact Hne.
  destruct (updateNextCard_nonempty σ st0 seed1 ReplaceNextCard Hne0)
    as (Hc1 & Hn1 & Hh1 & _ & Hp1).
  destruct (updateNextCard_failed σ st0 seed1 ReplaceNextCard) as [Hk2 Hk1].
  set (st1 := updateNextCard σ st0 seed1 ReplaceNextCard) in *.
  simpl in Hc1, Hn1, Hh1, Hp1. rewrite Hcur in Hc1, Hn1. simpl in Hc1, Hn1.
  destruct (findNextCard_spec st0 cards (currentCard state) seed1 H0 H1 Hne0)
    as (_ & Hsel & _).
  destruct (Hsel Hcur) as (c & Hc & Hin).
  simpl in Hc. rewrite Hc in Hn1.
  assert (Hne1 : failedCardsLevel2 st1 ++ failedCardsLevel1 st1 ++ heap st1
                 <> []).
  { rewrite Hk2, Hk1, Hh1. exact Hne0. }
  destruct (updateNextCard_nonempty σ st1 seed2 UpdateCurrentCard Hne1)
    as (Hc2 & _ & _ & _ & Hp2).
  destruct (updateNextCard_failed σ st1 seed2 UpdateCurrentCard) as [Hj2 Hj1].
  rewrite Hn1 in Hc2. simpl in Hc2.
  set (st2 := updateNextCard σ st1 seed2 UpdateCurrentCard) in *.
  assert (Hfinal :
    reviewLoaded σ state cards history' failed1' failed2' seed1 seed2
      initialReview = with_phase QUESTION st2).
  { unfold reviewLoaded. fold st0. fold st1.
    rewrite Hn1, Hc1, Hcur. simpl. fold st2.
    rewrite Hc2, Hp2, Hp1. simpl.
    destruct Hphase as [-> | ->]; reflexivity. }
  exists (with_phase QUESTION st2), c.
  split; [simpl; rewrite Hfinal; reflexivity|].
  split; [exact Hc2|]. split; [exact Hin|]. split; [reflexivity|].
  simpl. rewrite Hj1, Hj2, Hk1, Hk2. split; reflexivity.
Qed.

End ReviewLoaded.

Section UpdateHeap.

Import Review Sagas.

Lemma filter_none {A} (f : A -> bool) (l : list A) :
  (forall x, x ∈ l -> f x = false) -> List.filter f l = [].
Proof.
  induction l as [|a l IH]; intros H; [reflexivity|]. simpl.
  rewrite (H a) by left. apply IH. intros x Hx. apply H. right. exact Hx.
Qed.

(** X16: [updateHeap] never loads more cards than the review has room for.
    When the store honours the limit it is given, the cards put in
    REVIEW_LOADED number at most [freeSlots], so that with the completed
    cards, the failed queues and the current card they stay within
    [maxCards] whenever the review was within it.  And when the overdue
    cards the store returns are not new cards, the new cards among the
    loaded ones number at most [maxNewCards - newCardsInPlay] (none when
    that is negative). *)
Theorem updateHeap_within_limits (σ : Store)
    (getCards : Z -> CardType -> bool -> list cardref)
    (idle : bool) (reviewInfo : ReviewState) (action : ReviewAction)
    (cards : list cardref) :
  (forall limit type skip, 0 < limit ->
     len (getCards limit type skip) <= limit) ->
  updateHeap_cards getCards idle reviewInfo action = Some cards ->
  len cards <= freeSlots reviewInfo
  /\ ((forall limit skip c,
         c ∈ getCards limit OverdueCards skip -> isNewCard σ c = false) ->
      len (List.filter (isNewCard σ) cards)
      <= Z.max 0 (maxNewCards reviewInfo - newCardsInPlay reviewInfo))
  /\ (completed reviewInfo + len (failedCardsLevel1 reviewInfo)
      + len (failedCardsLevel2 reviewInfo)
      + (if truthy (currentCard reviewInfo) then 1 else 0)
      <= maxCards reviewInfo ->
      len cards + completed reviewInfo
      + len (failedCardsLevel1 reviewInfo)
      + len (failedCardsLevel2 reviewInfo)
      + (if truthy (currentCard reviewInfo) then 1 else 0)
      <= maxCards reviewInfo).
Proof.
  intros Hlimit. unfold updateHeap_cards.
  destruct idle; [discriminate|].
  set (fs := freeSlots reviewInfo). set (ns := newCardSlots reviewInfo).
  assert (Hfs : 0 <= fs) by (subst fs; unfold freeSlots; lia).
  assert (Hns : 0 <= ns <= fs
                /\ ns <= Z.max 0 (maxNewCards reviewInfo
                                  - newCardsInPlay reviewInfo)).
  { subst ns fs. unfold newCardSlots. lia. }
  set (new := if ns =? 0 then [] else getCards ns NewCards false).
  assert (Hnew : len new <= ns).
  { subst new. destruct (Z.eqb_spec ns 0) as [->|Hnz]; [reflexivity|].
    apply Hlimit. lia. }
  assert (Hlen0 : 0 <= len new) by (unfold len; lia).
  assert (Hnewnew : len (List.filter (isNewCard σ) new) <= len new).
  { unfold len. pose proof (List.filter_length_le (isNewCard σ) new). lia. }
  set (fs1 := if ns =? 0 then fs else fs - len new).
  assert (Hfs1 : 0 <= fs1 /\ fs1 + len new <= fs).
  { subst fs1. destruct (Z.eqb_spec ns 0); lia. }
  assert (Hbound : forall cs, len cs <= fs ->
    (completed reviewInfo + len (failedCardsLevel1 reviewInfo)
     + len (failedCardsLevel2 reviewInfo)
     + (if truthy (currentCard reviewInfo) then 1 else 0)
     <= maxCards reviewInfo ->
     len cs + completed reviewInfo
     + len (failedCardsLevel1 reviewInfo)
     + len (failedCardsLevel2 reviewInfo)
     + (if truthy (currentCard reviewInfo) then 1 else 0)
     <= maxCards reviewInfo)).
  { intros cs Hcs. subst fs. unfold freeSlots in Hcs.
    destruct (truthy (currentCard reviewInfo)); lia. }
  destruct (Z.eqb_spec fs1 0) as [Hz|Hnz]; intros [= <-].
  - split; [lia|]. split; [intros _; lia|]. apply Hbound. lia.
  - match goal with
    | |- context [getCards fs1 OverdueCards ?b] =>
        pose proof (Hlimit fs1 OverdueCards b ltac:(lia)) as Hover
    end.
    split; [rewrite len_app; lia|]. split.
    + intros Hovernew. rewrite List.filter_app.
      rewrite (filter_none (isNewCard σ) (getCards fs1 OverdueCards _))
        by (intros c Hc; eapply Hovernew, Hc).
      rewrite app_nil_r. lia.
    + apply Hbound. rewrite len_app. lia.
Qed.

End UpdateHeap.

(** ** Review summary store: reading and writing *)

Section ReviewSummaryFacts.

Import ReviewSummary.

Lemma parse_toReviewContent_history (items : list ReviewHistoryItem) :
  map (fun item =>
         {| id := ReviewStore.id item;
            status :=
              if default false (ReviewStore.failed item) then Failed
              else Passed;
            previousProgress :=
              (fun p =>
                 {| level := ReviewStore.level p;
                    due :=
                      if ReviewStore.due p =? 0 then None
                      else Some (ReviewStore.due p) |})
              <$> ReviewStore.previousProgress item |})
      (map (fun item =>
              {| ReviewStore.id := id item;
                 ReviewStore.failed :=
                   Some (match status item with
                         | Failed => true | Passed => false end);
                 ReviewStore.previousProgress := None |})
           items)
  = map (fun item =>
           {| id := id item; status := status item;
              previousProgress := None |}) items.
Proof.
  rewrite map_map. apply map_ext. intros [i [] p]; reflexivity.
Qed.

Lemma getReview_putReview now review db :
  getReview (putReview now review db)
  = Some {| maxCards := maxCards review;
            maxNewCards := maxNewCards review;
            history :=
              map (fun item =>
                     {| id := id item; status := status item;
                        previousProgress := None |}) (history review) |}.
Proof.
  unfold getReview, putReview, upsert, parseReview. simpl.
  rewrite parse_toReviewContent_history. reflexivity.
Qed.

(** X17: [putReview] followed by [getReview], whatever was stored before
    (nothing, a finished review, a deleted document): the review comes
    back with its limits and with the id and status of every history
    entry, but without any [previousProgress]; so it comes back
    unchanged exactly when no history entry carried one. *)
Theorem putReview_getReview_roundtrip (now : Z) (review : Review)
    (db : ReviewDB) :
  exists review',
    getReview (putReview now review db) = Some review'
    /\ maxCards review' = maxCards review
    /\ maxNewCards review' = maxNewCards review
    /\ map id (history review') = map id (history review)
    /\ map status (history review') = map status (history review)
    /\ Forall (fun item => previousProgress item = None) (history review')
    /\ (review' = review
        <-> Forall (fun item => previousProgress item = None)
              (history review)).
Proof.
  eexists. split; [apply getReview_putReview|]. simpl.
  split; [reflexivity|]. split; [reflexivity|].
  split; [rewrite map_map; reflexivity|].
  split; [rewrite map_map; reflexivity|].
  split.
  - apply Forall_forall. intros x Hx. apply list_elem_of_In in Hx.
    apply in_map_iff in Hx.
    destruct Hx as (y & <- & _). reflexivity.
  - destruct review as [mc mn h]. simpl. split.
    + intros [= Hh]. induction h as [|x h IH]; [constructor|].
      simpl in Hh. injection Hh as Hx Hh. constructor; [|apply IH, Hh].
      rewrite <- Hx. reflexivity.
    + intros HF. f_equal. induction HF as [|x h Hx _ IH]; [reflexivity|].
      simpl. rewrite IH. f_equal. destruct x as [i s p]. simpl in *.
      rewrite Hx. reflexivity.
Qed.

(** X18: after [finishReview] there is no review to resume, whatever was
    stored, and finishing again writes nothing: the stored document and
    its revision stay as the first call left them. *)
Theorem finishReview_finishes (now now' : Z) (db : ReviewDB) :
  getReview (finishReview now db) = None
  /\ finishReview now' (finishReview now db) = finishReview now db.
Proof.
  unfold getReview, finishReview, upsert, getReviewDoc.
  destruct db as [[r [] d]|]; simpl; [split; reflexivity| |split; reflexivity].
  destruct (ReviewStore.finished d) eqn:Hf; simpl; rewrite ?Hf; simpl;
    split; reflexivity.
Qed.

(** X19: when there is no review to resume, [finishReview] does not write:
    the store is left as it was, revision included. *)
Theorem finishReview_nothing_to_finish (now : Z) (db : ReviewDB) :
  getReview db = None ->
  finishReview now db = db.
Proof.
  unfold getReview, finishReview, upsert, getReviewDoc.
  destruct db as [[r [] d]|]; simpl; try reflexivity.
  destruct (ReviewStore.finished d); simpl; [reflexivity | discriminate].
Qed.

(** What [onChange] emits for the stored review document is what
    [getReview] returns for it. *)
Lemma onChange_emits_getReview (e : ReviewEntry) :
  onChange REVIEW_ID (deleted e) (doc e) = Some (getReview (Some e)).
Proof.
  unfold onChange, getReview, getReviewDoc. simpl.
  destruct (deleted e); simpl; [reflexivity|].
  destruct (ReviewStore.finished (doc e)); reflexivity.
Qed.

(** X20: the winner picked by the conflict resolver of [onSyncChange] does
    not depend on the order in which the two revisions are handed to it,
    as long as they are not both finished and were not touched at the
    same instant. *)
Theorem resolve_order_independent (a b : ReviewStore.ReviewContent) :
  ReviewStore.finished a = false \/ ReviewStore.finished b = false ->
  ReviewStore.modified a <> ReviewStore.modified b ->
  ReviewStore.resolve a b = ReviewStore.resolve b a.
Proof.
  intros Hfin Hmod. unfold ReviewStore.resolve.
  destruct (ReviewStore.finished a) eqn:Ha, (ReviewStore.finished b) eqn:Hb;
    try reflexivity; [destruct Hfin; discriminate|].
  destruct (ReviewStore.has_length (ReviewStore.history a)),
           (ReviewStore.has_length (ReviewStore.history b)); simpl;
    try reflexivity;
    destruct (Z.geb_spec (ReviewStore.modified a) (ReviewStore.modified b)),
             (Z.geb_spec (ReviewStore.modified b) (ReviewStore.modified a));
    try reflexivity; lia.
Qed.

End ReviewSummaryFacts.

(** ** putCard: failures, writes that are not made, and what is stored *)

Section PutCardMore.

Import DocStore CardStore StoredCards.

Variable normalize : string -> string.

Lemma live_lookup (db db' : DB) (k : string) :
  db' !! k = db !! k -> live db' k = live db k.
Proof. intros H. unfold live, db_get. rewrite H. reflexivity. Qed.

Lemma updateCard_missing (db : DB) (id : string) (update : Partial.Card)
    (now : Z) :
  live db (CARD_PREFIX +:+ id) = false ->
  _updateCard normalize db id update now = (Err NotFoundMissing, db).
Proof.
  unfold live, _updateCard, upsert.
  destruct (db_get db (CARD_PREFIX +:+ id)); [discriminate|reflexivity].
Qed.

Lemma updateProgress_missing (db : DB) (id : string)
    (update : Partial.Progress) :
  live db (PROGRESS_PREFIX +:+ id) = false ->
  _updateProgress db id update = (Err NotFoundMissing, db).
Proof.
  unfold live, _updateProgress, upsert.
  destruct (db_get db (PROGRESS_PREFIX +:+ id)); [discriminate|reflexivity].
Qed.

Lemma putCard_with_id (db : DB) (card : Partial.Card) (now : Z)
    (id : string) (more : list string) (cardId : string) :
  Partial.id card = Some cardId -> cardId <> "" ->
  putCard normalize db card now id more
  = match _updateCard normalize db cardId card now with
    | (Err e, db1) => Some (Err e, db1)
    | (Ok cardDoc, db1) =>
        match _updateProgress db1 cardId
                (default {| Partial.level := None; Partial.due := None |}
                   (Partial.progress card)) with
        | (Err e, db2) => Some (Err e, db2)
        | (Ok progressDoc, db2) =>
            Some (Ok (mergeDocs cardId cardDoc progressDoc), db2)
        end
    end.
Proof.
  intros Hid Hne. unfold putCard. rewrite Hid.
  rewrite bool_decide_eq_false_2 by exact Hne. reflexivity.
Qed.

(** X21: [putCard] with the id of a card that is not in the store, or was
    deleted, fails with a 404 "missing" and writes nothing. *)
Theorem putCard_unknown_card (db : DB) (card : Partial.Card) (now : Z)
    (id : string) (more : list string) (cardId : string) :
  Partial.id card = Some cardId -> cardId <> "" ->
  live db (CARD_PREFIX +:+ cardId) = false ->
  putCard normalize db card now id more = Some (Err NotFoundMissing, db)
  /\ status NotFoundMissing = 404.
Proof.
  intros Hid Hne Hl. rewrite (putCard_with_id _ _ _ _ _ _ Hid Hne).
  rewrite (updateCard_missing _ _ _ _ Hl). split; reflexivity.
Qed.

(** X22: [putCard] is not atomic.  On a card whose progress document is
    missing, an update that carries card content fails with a 404
    "missing", yet the card document has been rewritten by then: it
    holds the update and the time of the call as [modified]. *)
Theorem putCard_missing_progress_still_writes (db : DB)
    (card : Partial.Card) (now : Z) (id : string) (more : list string)
    (cardId : string) (ec : Entry) (cc : CardContent) :
  Partial.id card = Some cardId -> cardId <> "" ->
  db !! (CARD_PREFIX +:+ cardId) = Some ec -> deleted ec = false ->
  content ec = CardDoc cc ->
  live db (PROGRESS_PREFIX +:+ cardId) = false ->
  hasContentKeys card = true ->
  exists db' e',
    putCard normalize db card now id more = Some (Err NotFoundMissing, db')
    /\ db' !! (CARD_PREFIX +:+ cardId) = Some e'
    /\ deleted e' = false
    /\ content e' = CardDoc (updatedCardDoc normalize cc card now)
    /\ modified (updatedCardDoc normalize cc card now) = now
    /\ (forall k, k <> CARD_PREFIX +:+ cardId -> db' !! k = db !! k).
Proof.
  intros Hid Hne Hl Hd Hc Hp Hk.
  rewrite (putCard_with_id _ _ _ _ _ _ Hid Hne).
  destruct (updateCard_spec normalize db cardId card now ec cc Hl Hd Hc)
    as (db1 & e1 & Hup & Hl1 & Hd1 & Hc1 & Hframe).
  rewrite Hup.
  rewrite updateProgress_missing.
  2: { rewrite (live_lookup db db1); [exact Hp|].
       apply Hframe. symmetry. apply card_progress_ids_differ. }
  exists db1, e1. split; [reflexivity|]. split; [exact Hl1|].
  split; [exact Hd1|]. split; [exact Hc1|]. split; [|exact Hframe].
  unfold updatedCardDoc. rewrite Hk. reflexivity.
Qed.

(** X23: a [putCard] that changes nothing writes nothing.  With no card
    content in the update, and a progress that is absent or repeats the
    stored level and due time, the result is the card as [getCard]
    returns it and the store is left as it was, revisions included. *)
Theorem putCard_without_change_is_a_read (db : DB) (card : Partial.Card)
    (now : Z) (id : string) (more : list string) (cardId : string)
    (c : Model.Card) :
  Partial.id card = Some cardId -> cardId <> "" ->
  getCard db cardId = Ok c ->
  hasContentKeys card = false ->
  (forall p, Partial.progress card = Some p ->
     (forall l, Partial.level p = Some l ->
        Qeq_bool (Model.level (Model.progress c)) l = true)
     /\ (forall d, Partial.due p = Some (Some d) ->
           Model.due (Model.progress c) = Some d)) ->
  putCard normalize db card now id more = Some (Ok c, db).
Proof.
  intros Hid Hne Hget Hk Hp.
  destruct (getCard_Ok db cardId c Hget)
    as (ec & ep & cc & pc & Hlc & Hdc & Hcc & Hlp & Hdp & Hcp & ->).
  rewrite (putCard_with_id _ _ _ _ _ _ Hid Hne).
  assert (Hup : _updateCard normalize db cardId card now = (Ok cc, db)).
  { unfold _updateCard, upsert, db_get. rewrite Hlc, Hdc, Hcc, Hk. simpl.
    rewrite (applyUpdate_no_keys _ _ Hk). reflexivity. }
  rewrite Hup.
  assert (Hpr : _updateProgress db cardId
                  (default {| Partial.level := None; Partial.due := None |}
                     (Partial.progress card)) = (Ok pc, db)).
  { unfold _updateProgress, upsert, db_get. rewrite Hlp, Hdp, Hcp.
    destruct (Partial.progress card) as [p|] eqn:Hprog; simpl.
    - destruct (Hp p eq_refl) as [Hlev Hdue]. simpl in Hlev, Hdue.
      assert (Hd' : match Partial.due p with
                    | Some (Some d) => if due pc =? d then None else Some d
                    | _ => None
                    end = None).
      { destruct (Partial.due p) as [[d|]|]; try reflexivity.
        specialize (Hdue d eq_refl).
        destruct (Z.eqb_spec (due pc) 0); [discriminate|].
        injection Hdue as ->. rewrite Z.eqb_refl. reflexivity. }
      assert (Hl' : match Partial.level p with
                    | Some l => if Qeq_bool (level pc) l then None else Some l
                    | None => None
                    end = None).
      { destruct (Partial.level p) as [l|]; [|reflexivity].
        rewrite (Hlev l eq_refl). reflexivity. }
      rewrite Hd', Hl'. simpl. destruct pc; reflexivity.
    - destruct pc; reflexivity. }
  rewrite Hpr. reflexivity.
Qed.

Lemma db_put_Ok (db db' : DB) (id : string) (r : option nat) (c : Content)
    (n : nat) :
  db_put db id r c = (Ok n, db') ->
  db' = <[id := {| rev := n; deleted := false; content := c |}]> db.
Proof.
  unfold db_put. destruct (db !! id) as [e|].
  - destruct (deleted e || bool_decide (r = Some (rev e)));
      intros [= <- <-]; reflexivity.
  - destruct r; intros [= <- <-]; reflexivity.
Qed.

Lemma db_put_Err (db db' : DB) (id : string) (r : option nat) (c : Content)
    (err : PouchError) :
  db_put db id r c = (Err err, db') -> db' = db /\ err = Conflict.
Proof.
  unfold db_put. destruct (db !! id) as [e|].
  - destruct (deleted e || bool_decide (r = Some (rev e)));
      intros [= <- <-]; split; reflexivity.
  - destruct r; intros [= <- <-]; split; reflexivity.
Qed.

(** Whatever [tryPutNewCard] returns as a card is the card merged from
    the two documents it wrote under one of the ids it was given, and is
    what [getCard] then reads under that id. *)
Lemma tryPutNewCard_Ok_inv card progress (more : list string) :
  forall db id c db',
    tryPutNewCard card progress db id more = Some (Ok c, db') ->
    exists id',
      id' ∈ id :: more
      /\ c = mergeDocs id' card progress
      /\ getCard db' id' = Ok c.
Proof.
  induction more as [|id1 more IH]; intros db id c db';
    rewrite tryPutNewCard_unfold;
    destruct (db_put db (CARD_PREFIX +:+ id) None (CardDoc card))
      as [[r|err] db1] eqn:Hput.
  all: try (apply db_put_Ok in Hput; subst db1;
    destruct (db_put _ (PROGRESS_PREFIX +:+ id) None (ProgressDoc progress))
      as [[r'|err'] db2] eqn:Hput';
    [ apply db_put_Ok in Hput'; subst db2; intros [= <- <-];
      exists id; split; [left|]; split; [reflexivity|];
      apply getCard_inserted
    | destruct (db_remove db2 _ r) as [[?|?] ?]; discriminate ]).
  - destruct (negb (status err =? 409)); discriminate.
  - destruct (negb (status err =? 409)); [discriminate|].
    intros H. destruct (IH _ _ _ _ H) as (id' & Hin & Hc & Hg).
    exists id'. split; [right; exact Hin|]. split; assumption.
Qed.

Lemma putCard_without_id (db : DB) (card : Partial.Card) (now : Z)
    (id : string) (more : list string) :
  Partial.id card = None \/ Partial.id card = Some "" ->
  putCard normalize db card now id more
  = _putNewCard normalize db card now id more.
Proof. intros [H|H]; unfold putCard; rewrite H; reflexivity. Qed.

(** X24: the card [putCard] returns for a new card (no id, or an empty
    one).  Its id is one of the generated ids; [created] and [modified]
    are the time of the call; absent text fields are empty strings,
    absent keywords and tags empty arrays, an absent [starred] false; the
    level is 0 unless one was given, and the card is not due unless a due
    date with a non-zero time was given.  [getCard] reads the same card
    back. *)
Theorem putCard_new_card_fields (db : DB) (card : Partial.Card) (now : Z)
    (id : string) (more : list string) (c : Model.Card) (db' : DB) :
  Partial.id card = None \/ Partial.id card = Some "" ->
  putCard normalize db card now id more = Some (Ok c, db') ->
  Model.id c ∈ id :: more
  /\ getCard db' (Model.id c) = Ok c
  /\ Model.created c = now /\ Model.modified c = now
  /\ Model.front c = normalize (default "" (Partial.front card))
  /\ Model.back c = normalize (default "" (Partial.back card))
  /\ Model.keywords c = map normalize (default [] (Partial.keywords card))
  /\ Model.tags c = map normalize (default [] (Partial.tags card))
  /\ Model.starred c = default false (Partial.starred card)
  /\ Model.level (Model.progress c)
     = default 0%Q (Partial.progress card ≫= Partial.level)
  /\ Model.due (Model.progress c)
     = match Partial.progress card ≫= Partial.due with
       | Some (Some d) => if d =? 0 then None else Some d
       | _ => None
       end.
Proof.
  intros Hid Hput. rewrite (putCard_without_id _ _ _ _ _ Hid) in Hput.
  unfold _putNewCard in Hput.
  apply tryPutNewCard_Ok_inv in Hput.
  destruct Hput as (id' & Hin & -> & Hget).
  split; [exact Hin|]. split; [exact Hget|].
  unfold mergeDocs, parseCard, parseProgress, normalizeCardForDB, asUpdate.
  simpl. repeat split.
  - destruct (Partial.keywords card) as [[|k ks]|]; reflexivity.
  - destruct (Partial.tags card) as [[|k ks]|]; reflexivity.
  - destruct (Partial.starred card) as [[]|]; reflexivity.
  - destruct (Partial.progress card ≫= Partial.due) as [[d|]|]; reflexivity.
Qed.

(** X25: colliding generated ids are skipped.  When the first ids handed
    out are already those of stored cards and the next one is free (for
    the card and for its progress), [putCard] creates the new card under
    that free id, and no other document of the store is touched. *)
Theorem putCard_skips_taken_ids (db : DB) (card : Partial.Card) (now : Z)
    (id : string) (more taken rest : list string) (fresh : string) :
  Partial.id card = None \/ Partial.id card = Some "" ->
  id :: more = taken ++ fresh :: rest ->
  (forall t, t ∈ taken -> live db (CARD_PREFIX +:+ t) = true) ->
  live db (CARD_PREFIX +:+ fresh) = false ->
  live db (PROGRESS_PREFIX +:+ fresh) = false ->
  exists c db',
    putCard normalize db card now id more = Some (Ok c, db')
    /\ Model.id c = fresh
    /\ getCard db' fresh = Ok c
    /\ (forall k, k <> CARD_PREFIX +:+ fresh ->
                  k <> PROGRESS_PREFIX +:+ fresh -> db' !! k = db !! k).
Proof.
  intros Hid Hids Htaken Hc Hp.
  rewrite (putCard_without_id _ _ _ _ _ Hid). unfold _putNewCard.
  set (cc := normalizeCardForDB normalize _ _).
  set (pc := {| level := _; due := _ |}).
  clearbody cc pc. clear Hid.
  revert id more Hids Htaken.
  induction taken as [|t taken IH]; intros id more Hids Htaken.
  - simpl in Hids. injection Hids as -> ->.
    destruct (tryPutNewCard_ok cc pc db fresh rest Hc Hp) as (r & r' & Hok).
    eexists _, _. split; [exact Hok|]. split; [reflexivity|].
    split; [apply getCard_inserted|].
    intros k Hk1 Hk2. rewrite !lookup_insert_ne by congruence. reflexivity.
  - simpl in Hids. injection Hids as -> ->.
    destruct taken as [|t' taken'].
    + cbn [app]. rewrite tryPutNewCard_retry by (apply Htaken; left).
      apply (IH fresh rest eq_refl). intros t0 Ht0. inversion Ht0.
    + cbn [app]. rewrite tryPutNewCard_retry by (apply Htaken; left).
      apply (IH t' (taken' ++ fresh :: rest) eq_refl).
      intros t0 Ht0. apply Htaken. right. exact Ht0.
Qed.

Lemma compact_normalize_new (cc : CardContent) :
  compact (normalizeCardForDB normalize cc (asUpdate cc)).
Proof.
  unfold compact, normalizeCardForDB, asUpdate. simpl.
  destruct (keywords cc) as [[|? ?]|], (tags cc) as [[|? ?]|],
    (starred cc) as [[]|]; simpl; repeat split; discriminate.
Qed.

Lemma compact_normalize_update (doc : CardContent) (update : Partial.Card)
    (now : Z) :
  compact doc ->
  compact (with_modified now
             (normalizeCardForDB normalize (applyUpdate doc update) update)).
Proof.
  unfold compact, normalizeCardForDB, applyUpdate, with_modified. simpl.
  intros (Hk & Ht & Hs).
  destruct (Partial.keywords update) as [[|? ?]|],
    (Partial.tags update) as [[|? ?]|],
    (Partial.starred update) as [[]|]; simpl; repeat split;
    try discriminate;
    try (destruct (keywords doc) as [[|? ?]|]; simpl; congruence);
    try (destruct (tags doc) as [[|? ?]|]; simpl; congruence);
    try exact Hs.
Qed.

Lemma all_compact_insert (db : DB) (k : string) (e : Entry) :
  all_compact db ->
  (forall c, content e = CardDoc c -> compact c) ->
  all_compact (<[k := e]> db).
Proof.
  intros Hdb He k' e' c Hl Hc.
  destruct (decide (k' = k)) as [->|Hne].
  - rewrite lookup_insert_eq in Hl. injection Hl as <-. apply He, Hc.
  - rewrite lookup_insert_ne in Hl by congruence. exact (Hdb _ _ _ Hl Hc).
Qed.

Lemma all_compact_put (db : DB) (id : string) (r : option nat)
    (c : Content) :
  all_compact db ->
  (forall cc, c = CardDoc cc -> compact cc) ->
  all_compact (db_put db id r c).2.
Proof.
  intros Hdb Hc. destruct (db_put db id r c) as [[n|err] db'] eqn:Hput.
  - apply db_put_Ok in Hput. subst db'. simpl.
    apply all_compact_insert; [exact Hdb | exact Hc].
  - apply db_put_Err in Hput. destruct Hput as [-> _]. exact Hdb.
Qed.

Lemma all_compact_remove (db : DB) (id : string) (r : nat) :
  all_compact db -> all_compact (db_remove db id r).2.
Proof.
  intros Hdb. unfold db_remove.
  destruct (db !! id) as [e|] eqn:Hl; [|exact Hdb].
  destruct (deleted e); [exact Hdb|].
  destruct (bool_decide (r = rev e)); [|exact Hdb].
  simpl. apply all_compact_insert; [exact Hdb|].
  simpl. intros c Hc. exact (Hdb _ _ _ Hl Hc).
Qed.

Lemma all_compact_tryPutNewCard card progress (more : list string) :
  compact card ->
  forall db id res db',
    all_compact db ->
    tryPutNewCard card progress db id more = Some (res, db') ->
    all_compact db'.
Proof.
  intros Hcard.
  assert (Hstep : forall db id, all_compact db ->
    forall res db',
      match db_put db (CARD_PREFIX +:+ id) None (CardDoc card) with
      | (Err err, db1) => True
      | (Ok putCardResponse_rev, db1) =>
          match db_put db1 (PROGRESS_PREFIX +:+ id) None (ProgressDoc progress)
          with
          | (Err err, db2) =>
              match db_remove db2 (CARD_PREFIX +:+ id) putCardResponse_rev
              with
              | (Err err', db3) => Some (Err err', db3)
              | (Ok _, db3) => Some (Err err, db3)
              end
          | (Ok _, db2) => Some (Ok (mergeDocs id card progress), db2)
          end = Some (res, db') -> all_compact db'
      end).
  { intros db id Hdb res db'.
    pose proof (all_compact_put db (CARD_PREFIX +:+ id) None (CardDoc card)
                  Hdb ltac:(intros ? [= <-]; exact Hcard)) as H1.
    destruct (db_put db (CARD_PREFIX +:+ id) None (CardDoc card))
      as [[r|err] db1]; [|exact I]. simpl in H1.
    pose proof (all_compact_put db1 (PROGRESS_PREFIX +:+ id) None
                  (ProgressDoc progress) H1 ltac:(discriminate)) as H2.
    destruct (db_put db1 (PROGRESS_PREFIX +:+ id) None (ProgressDoc progress))
      as [[r'|err'] db2]; simpl in H2.
    - intros [= <- <-]. exact H2.
    - pose proof (all_compact_remove db2 (CARD_PREFIX +:+ id) r H2) as H3.
      destruct (db_remove db2 (CARD_PREFIX +:+ id) r) as [[?|?] db3];
        simpl in H3; intros [= <- <-]; exact H3. }
  induction more as [|id1 more IH]; intros db id res db' Hdb;
    rewrite tryPutNewCard_unfold;
    pose proof (Hstep db id Hdb res db') as Hs;
    destruct (db_put db (CARD_PREFIX +:+ id) None (CardDoc card))
      as [[r|err] db1] eqn:Hput; try exact Hs.
  - apply db_put_Err in Hput. destruct Hput as [-> ->]. simpl. discriminate.
  - apply db_put_Err in Hput. destruct Hput as [-> ->]. simpl.
    apply IH, Hdb.
Qed.

(** X26: [putCard] never stores an empty [keywords] or [tags] array or a
    [starred: false]: if no stored card document holds one, none does
    after the call, whether a card was created or updated, and whether
    the call succeeded or failed. *)
Theorem putCard_keeps_documents_compact (db : DB) (card : Partial.Card)
    (now : Z) (id : string) (more : list string)
    (res : result Model.Card) (db' : DB) :
  all_compact db ->
  putCard normalize db card now id more = Some (res, db') ->
  all_compact db'.
Proof.
  intros Hdb.
  assert (Hnew : _putNewCard normalize db card now id more = Some (res, db')
                 -> all_compact db').
  { unfold _putNewCard. intros H.
    eapply all_compact_tryPutNewCard; [| exact Hdb | exact H].
    apply compact_normalize_new. }
  unfold putCard. destruct (Partial.id card) as [cardId|]; [|exact Hnew].
  destruct (bool_decide (cardId = "")); [exact Hnew|].
  assert (H1 : all_compact (_updateCard normalize db cardId card now).2).
  { unfold _updateCard, upsert.
    destruct (db_get db (CARD_PREFIX +:+ cardId)) as [e|err] eqn:Hget;
      [|exact Hdb].
    destruct (content e) as [doc|p] eqn:Hc; [|exact Hdb].
    destruct (negb (hasContentKeys card)); [exact Hdb|]. simpl.
    apply all_compact_put; [exact Hdb|]. intros cc [= <-].
    apply compact_normalize_update.
    unfold db_get in Hget. destruct (db !! (CARD_PREFIX +:+ cardId))
      as [e0|] eqn:Hl; [|discriminate].
    destruct (deleted e0); [discriminate|]. injection Hget as ->.
    exact (Hdb _ _ _ Hl Hc). }
  destruct (_updateCard normalize db cardId card now) as [[cardDoc|e] db1];
    simpl in H1; [|intros [= <- <-]; exact H1].
  set (pu := default _ _).
  assert (H2 : all_compact (_updateProgress db1 cardId pu).2).
  { unfold _updateProgress, upsert.
    destruct (db_get db1 (PROGRESS_PREFIX +:+ cardId)) as [e|err];
      [|exact H1].
    destruct (content e) as [doc|p]; [exact H1|].
    match goal with
    | |- context [if ?b then _ else _] => destruct b
    end; simpl; [|exact H1].
    apply all_compact_put; [exact H1 | discriminate]. }
  destruct (_updateProgress db1 cardId pu) as [[progressDoc|e] db2];
    simpl in H2; intros [= <- <-]; exact H2.
Qed.

End PutCardMore.

(** ** Card store: change notifications *)

Section CardChangeFacts.

Import DocStore CardStore CardChanges.

Lemma startsWith_card (id : string) :
  startsWith CARD_PREFIX (CARD_PREFIX +:+ id) = true.
Proof. reflexivity. Qed.

Lemma startsWith_progress (id : string) :
  startsWith PROGRESS_PREFIX (PROGRESS_PREFIX +:+ id) = true.
Proof. reflexivity. Qed.

Lemma progress_is_no_card_id (id : string) :
  startsWith CARD_PREFIX (PROGRESS_PREFIX +:+ id) = false.
Proof. reflexivity. Qed.

Lemma stripCardPrefix_card (id : string) :
  stripCardPrefix (CARD_PREFIX +:+ id) = id.
Proof. reflexivity. Qed.

Lemma stripProgressPrefix_progress (id : string) :
  stripProgressPrefix (PROGRESS_PREFIX +:+ id) = id.
Proof. reflexivity. Qed.

(** X27: a card whose card document and progress document both changed is
    reported once.  With both documents stored, the change of the card
    document emits the merged card (unless that revision was already
    reported) and the change of the progress document, handled next,
    emits nothing; and the same holds when the progress change is
    handled first. *)
Theorem onChange_reports_card_once (db : DB)
    (returnedCards : ReturnedCards) (id : string) (ec ep : Entry)
    (c : CardContent) (p : ProgressContent) :
  db !! (CARD_PREFIX +:+ id) = Some ec -> DocStore.deleted ec = false ->
  content ec = CardDoc c ->
  db !! (PROGRESS_PREFIX +:+ id) = Some ep -> DocStore.deleted ep = false ->
  content ep = ProgressDoc p ->
  let cardChange := changeOf (CARD_PREFIX +:+ id) ec in
  let progressChange := changeOf (PROGRESS_PREFIX +:+ id) ep in
  (forall revs, returnedCards !! id = Some revs -> revs.1 <> rev ec) ->
  (forall revs, returnedCards !! id = Some revs -> revs.2 <> Some (rev ep)) ->
  (exists returnedCards',
     onChange db returnedCards cardChange
     = (Ok (Some (MergedCard (mergeDocs id c p) false)), returnedCards')
     /\ onChange db returnedCards' progressChange
        = (Ok None, returnedCards'))
  /\ (exists returnedCards',
        onChange db returnedCards progressChange
        = (Ok (Some (MergedCard (mergeDocs id c p) false)), returnedCards')
        /\ onChange db returnedCards' cardChange
           = (Ok None, returnedCards')).
Proof.
  intros Hlc Hdc Hcc Hlp Hdp Hcp cardChange progressChange Hnc Hnp.
  assert (Hac : alreadyReturnedCard returnedCards
                  {| _id := CARD_PREFIX +:+ id; _rev := rev ec;
                     _deleted := false; body := CardDoc c |} = false).
  { unfold alreadyReturnedCard. cbn [_id _rev].
    rewrite startsWith_card, stripCardPrefix_card.
    destruct (returnedCards !! id) as [[cr pr]|] eqn:Hr; [|reflexivity].
    apply bool_decide_eq_false_2. exact (Hnc _ eq_refl). }
  assert (Hap : alreadyReturnedCard returnedCards
                  {| _id := PROGRESS_PREFIX +:+ id; _rev := rev ep;
                     _deleted := false; body := ProgressDoc p |} = false).
  { unfold alreadyReturnedCard. cbn [_id _rev].
    rewrite progress_is_no_card_id, startsWith_progress,
      stripProgressPrefix_progress.
    destruct (returnedCards !! id) as [[cr pr]|] eqn:Hr; [|reflexivity].
    apply bool_decide_eq_false_2. exact (Hnp _ eq_refl). }
  assert (Hgc : db_get db (CARD_PREFIX +:+ id) = Ok ec)
    by (unfold db_get; rewrite Hlc, Hdc; reflexivity).
  assert (Hgp : db_get db (PROGRESS_PREFIX +:+ id) = Ok ep)
    by (unfold db_get; rewrite Hlp, Hdp; reflexivity).
  subst cardChange progressChange. unfold changeOf.
  rewrite Hdc, Hdp, Hcc, Hcp.
  split.
  - eexists. split.
    + unfold onChange. cbn [doc _id _deleted deleted body negb].
      rewrite startsWith_card, stripCardPrefix_card, Hgp, Hac.
      cbn [fmap option_fmap option_map]. destruct ep as [rp dp cp].
      simpl in Hcp. subst cp. reflexivity.
    + unfold onChange. cbn [doc _id _deleted deleted body].
      rewrite progress_is_no_card_id, startsWith_progress,
        stripProgressPrefix_progress, Hgc.
      unfold alreadyReturnedCard. cbn [_id _rev].
      rewrite progress_is_no_card_id, startsWith_progress,
        stripProgressPrefix_progress, lookup_insert_eq.
      rewrite bool_decide_eq_true_2 by reflexivity. reflexivity.
  - eexists. split.
    + unfold onChange. cbn [doc _id _deleted deleted body].
      rewrite progress_is_no_card_id, startsWith_progress,
        stripProgressPrefix_progress, Hgc, Hap, Hcc. reflexivity.
    + unfold onChange. cbn [doc _id _deleted deleted body negb].
      rewrite startsWith_card, stripCardPrefix_card, Hgp.
      unfold alreadyReturnedCard. cbn [_id _rev].
      rewrite startsWith_card, stripCardPrefix_card, lookup_insert_eq.
      rewrite bool_decide_eq_true_2 by reflexivity. reflexivity.
Qed.

(** X28: the two halves of a card that arrive one at a time are not
    treated alike.  The change of a card document whose progress
    document is not in the store yet is passed over silently; the change
    of a progress document whose card document is not in the store yet
    makes [onChange] throw the 404 of the lookup.  Neither is recorded
    as returned. *)
Theorem onChange_other_half_missing (db : DB)
    (returnedCards : ReturnedCards) (id : string) (e : Entry) :
  DocStore.deleted e = false ->
  (db !! (PROGRESS_PREFIX +:+ id) = None ->
   onChange db returnedCards (changeOf (CARD_PREFIX +:+ id) e)
   = (Ok None, returnedCards))
  /\ (db !! (CARD_PREFIX +:+ id) = None ->
      onChange db returnedCards (changeOf (PROGRESS_PREFIX +:+ id) e)
      = (Err NotFoundMissing, returnedCards)).
Proof.
  intros Hd. unfold changeOf, onChange. rewrite Hd.
  cbn [doc _id _deleted deleted body negb]. split; intros Hl.
  - rewrite startsWith_card, stripCardPrefix_card.
    unfold db_get. rewrite Hl. reflexivity.
  - rewrite progress_is_no_card_id, startsWith_progress,
      stripProgressPrefix_progress.
    unfold db_get. rewrite Hl. reflexivity.
Qed.

End CardChangeFacts.

(** ** Card store: the new-card query *)

Section CardQueryFacts.

Import DocStore CardStore CardChanges CardQueries.

Lemma replace_progress_prefix (id : string) :
  replace "progress-" "card-" (PROGRESS_PREFIX +:+ id) = CARD_PREFIX +:+ id.
Proof. reflexivity. Qed.

Lemma insertByCreated_perm a cards :
  insertByCreated a cards ≡ₚ a :: cards.
Proof.
  induction cards as [|b cards IH]; [reflexivity|]. simpl.
  destruct (Model.created a <=? Model.created b); [reflexivity|].
  rewrite IH. apply Permutation_swap.
Qed.

Lemma sortByCreated_perm cards : sortByCreated cards ≡ₚ cards.
Proof.
  induction cards as [|a cards IH]; [reflexivity|].
  unfold sortByCreated in *. simpl.
  rewrite insertByCreated_perm, IH. reflexivity.
Qed.

Lemma insertByCreated_sorted a cards :
  StronglySorted (fun x y => Model.created x <= Model.created y) cards ->
  StronglySorted (fun x y => Model.created x <= Model.created y)
    (insertByCreated a cards).
Proof.
  induction 1 as [|b cards Hs IH Hb]; simpl.
  - constructor; constructor.
  - destruct (Z.leb_spec (Model.created a) (Model.created b)) as [Hle|Hgt].
    + constructor; [constructor; assumption|].
      constructor; [exact Hle|].
      eapply Forall_impl; [exact Hb|]. intros y Hy. simpl in *. lia.
    + constructor; [exact IH|].
      rewrite insertByCreated_perm. constructor; [lia | exact Hb].
Qed.

Lemma sortByCreated_sorted cards :
  StronglySorted (fun x y => Model.created x <= Model.created y)
    (sortByCreated cards).
Proof.
  induction cards as [|a cards IH]; [constructor|].
  apply insertByCreated_sorted, IH.
Qed.

Lemma elem_of_take_full {A} (x : A) (n : nat) (l : list A) :
  x ∈ take n l -> x ∈ l.
Proof.
  revert n. induction l as [|a l IH]; intros [|n] H; simpl in H;
    try (inversion H; fail).
  apply elem_of_cons in H. destruct H as [->|H]; [left|right; eauto].
Qed.

Lemma length_omap_le {A B} (f : A -> option B) (l : list A) :
  (length (omap f l) <= length l)%nat.
Proof.
  induction l as [|a l IH]; csimpl; [lia|].
  destruct (f a); csimpl; lia.
Qed.

Lemma StronglySorted_take {A} (R : A -> A -> Prop) (n : nat) (l : list A) :
  StronglySorted R l -> StronglySorted R (take n l).
Proof.
  intros H. revert n. induction H as [|a l Hs IH Ha]; intros [|n]; simpl;
    try constructor; [apply IH|].
  apply Forall_forall. intros y Hy.
  rewrite Forall_forall in Ha. apply Ha.
  eapply elem_of_take_full; eauto.
Qed.

Lemma getCardsFromProgressDocs_elem db progressDocs card :
  card ∈ getCardsFromProgressDocs db progressDocs ->
  exists pid p e c,
    (pid, p) ∈ progressDocs
    /\ db !! replace "progress-" "card-" pid = Some e
    /\ DocStore.deleted e = false
    /\ content e = CardDoc c
    /\ card = parseCard (stripCardPrefix (replace "progress-" "card-" pid))
                c (parseProgress p).
Proof.
  unfold getCardsFromProgressDocs. rewrite list_elem_of_omap.
  intros ([pid p] & Hin & Hsome). simpl in Hsome.
  unfold db_get in Hsome.
  destruct (db !! replace "progress-" "card-" pid) as [e|] eqn:Hl;
    [|discriminate].
  destruct (DocStore.deleted e) eqn:Hd; [discriminate|].
  destruct (content e) as [c|] eqn:Hc; [|discriminate].
  injection Hsome as <-. exists pid, p, e, c. repeat split; assumption.
Qed.

(** X29: [getNewCards] returns the cards of the progress documents found,
    oldest first, and no more than the limit.  Each returned card is
    stored (its card document is there and not deleted) and comes from
    one of the progress documents found, so it has no due date when
    those all have [due] 0, as the selector requires. *)
Theorem getNewCards_sorted_and_limited (db : DB)
    (findResult : list (string * ProgressContent)) (limit : option Z) :
  Forall (fun progressDoc => due progressDoc.2 = 0) findResult ->
  let cards := getNewCards db findResult limit in
  StronglySorted (fun a b => Model.created a <= Model.created b) cards
  /\ (forall n, limit = Some n -> 0 <= n -> Z.of_nat (length cards) <= n)
  /\ (length cards <= length findResult)%nat
  /\ (forall card, card ∈ cards ->
        Model.due (Model.progress card) = None
        /\ exists pid p e c,
             (pid, p) ∈ findResult
             /\ db !! replace "progress-" "card-" pid = Some e
             /\ DocStore.deleted e = false
             /\ content e = CardDoc c
             /\ Model.created card = created c
             /\ Model.level (Model.progress card) = level p).
Proof.
  intros Hdue cards. subst cards. unfold getNewCards.
  set (all := sortByCreated (getCardsFromProgressDocs db findResult)).
  assert (Hsorted : StronglySorted
            (fun a b => Model.created a <= Model.created b) all)
    by apply sortByCreated_sorted.
  assert (Hlen : (length all <= length findResult)%nat).
  { subst all. rewrite sortByCreated_perm.
    unfold getCardsFromProgressDocs. apply length_omap_le. }
  assert (Helem : forall card, card ∈ all ->
    Model.due (Model.progress card) = None
    /\ exists pid p e c,
         (pid, p) ∈ findResult
         /\ db !! replace "progress-" "card-" pid = Some e
         /\ DocStore.deleted e = false
         /\ content e = CardDoc c
         /\ Model.created card = created c
         /\ Model.level (Model.progress card) = level p).
  { intros card Hin. subst all. rewrite sortByCreated_perm in Hin.
    apply getCardsFromProgressDocs_elem in Hin.
    destruct Hin as (pid & p & e & c & Hin & Hl & Hd & Hc & ->).
    split.
    - rewrite Forall_forall in Hdue. specialize (Hdue _ Hin).
      simpl in Hdue. unfold parseCard, parseProgress. simpl.
      rewrite Hdue. reflexivity.
    - exists pid, p, e, c. repeat split; assumption. }
  clearbody all.
  destruct limit as [n|].
  - destruct (Z.geb_spec n 0) as [Hn|Hn]; simpl.
    + destruct (Z.ltb_spec n (Z.of_nat (length all))) as [Hlt|Hge].
      * split; [apply StronglySorted_take, Hsorted|].
        split; [intros m [= <-] _; rewrite length_take; lia|].
        split; [rewrite length_take; lia|].
        intros card Hin. apply Helem. eapply elem_of_take_full; eauto.
      * split; [exact Hsorted|].
        split; [intros m [= <-] _; lia|]. split; assumption.
    + split; [exact Hsorted|].
      split; [intros m [= <-] ?; lia|]. split; assumption.
  - split; [exact Hsorted|]. split; [discriminate|]. split; assumption.
Qed.

End CardQueryFacts.

(** ** The properties above at concrete inputs *)

Section ReducerWitnesses.

Import Review Sagas ReviewRefs.

Lemma fail_card_queues_witness :
  exists σ' state',
    review ReviewExamples.store0 ReviewExamples.asking (FAIL_CARD 0)
    = Some (σ', state')
    /\ failedCardsLevel2 state' = [3%nat]
    /\ completed state' = 0.
Proof.
  destruct (fail_card_queues ReviewExamples.store0 ReviewExamples.asking
              0 0%nat
              {| _id := "a"; question := "qa"; answer := "aa";
                 progress := 0%nat |}
              {| level := 3; reviewed := Some 0 |})
    as (σ' & state' & Hrev & _ & Hf2 & _ & Hc & _).
  - left; reflexivity.
  - reflexivity.
  - reflexivity.
  - reflexivity.
  - exists σ', state'. split; [exact Hrev|]. split; [exact Hf2 | exact Hc].
Defined.

Lemma fail_card_shows_a_card_witness :
  exists σ' state' c',
    review ReviewExamples.store0 ReviewExamples.asking (FAIL_CARD 0)
    = Some (σ', state')
    /\ currentCard state' = JCard c'
    /\ phase state' = QUESTION.
Proof.
  apply (fail_card_shows_a_card ReviewExamples.store0 ReviewExamples.asking
           0 0%nat
           {| _id := "a"; question := "qa"; answer := "aa";
              progress := 0%nat |}
           {| level := 3; reviewed := Some 0 |}).
  - left; reflexivity.
  - reflexivity.
  - reflexivity.
  - reflexivity.
  - discriminate.
  - reflexivity.
Defined.

Lemma pass_card_needs_one_more_witness :
  exists σ' state',
    review ReviewExamples.store0 SagaExamples.askingFailed (PASS_CARD 0)
    = Some (σ', state')
    /\ failedCardsLevel1 state' = [3%nat]
    /\ completed state' = 0
    /\ progressOf σ' 0%nat = Some {| level := 0; reviewed := Some 0 |}.
Proof.
  destruct (pass_card_needs_one_more ReviewExamples.store0
              SagaExamples.askingFailed 0 0%nat
              {| _id := "a"; question := "qa"; answer := "aa";
                 progress := 0%nat |}
              {| level := 3; reviewed := Some 0 |})
    as (σ' & state' & i & Hrev & _ & _ & Hf1 & _ & Hc & Hp).
  - left; reflexivity.
  - reflexivity.
  - left.
  - reflexivity.
  - reflexivity.
  - exists σ', state'. split; [exact Hrev|]. split; [exact Hf1|].
    split; [exact Hc | exact Hp].
Defined.

Lemma pass_card_completes_witness :
  exists σ' state',
    review ReviewExamples.store0 ReviewExamples.asking (PASS_CARD 0)
    = Some (σ', state')
    /\ completed state' = 0 + 1
    /\ savingProgress state' = true.
Proof.
  destruct (pass_card_completes ReviewExamples.store0 ReviewExamples.asking
              0 0%nat
              {| _id := "a"; question := "qa"; answer := "aa";
                 progress := 0%nat |}
              {| level := 3; reviewed := Some 0 |})
    as (σ' & state' & Hrev & Hc & _ & _ & Hs).
  - left; reflexivity.
  - reflexivity.
  - apply not_elem_of_nil.
  - reflexivity.
  - reflexivity.
  - exists σ', state'. split; [exact Hrev|]. split; [exact Hc | exact Hs].
Defined.

Lemma pass_last_card_completes_witness :
  exists σ' state',
    review ReviewExamples.store0 ReviewExamples.askingLast (PASS_CARD 0)
    = Some (σ', state')
    /\ phase state' = COMPLETE
    /\ currentCard state' = JNull
    /\ history state' = [3%nat].
Proof.
  destruct (pass_last_card_completes ReviewExamples.store0
              ReviewExamples.askingLast 0 0%nat
              {| _id := "a"; question := "qa"; answer := "aa";
                 progress := 0%nat |}
              {| level := 3; reviewed := Some 0 |})
    as (σ' & state' & Hrev & Hp & Hc & _ & Hh & _).
  - left; reflexivity.
  - reflexivity.
  - reflexivity.
  - reflexivity.
  - left; reflexivity.
  - reflexivity.
  - reflexivity.
  - exists σ', state'. split; [exact Hrev|]. split; [exact Hp|].
    split; [exact Hc | exact Hh].
Defined.

Lemma fail_last_card_shows_it_again_witness :
  exists σ' state',
    review ReviewExamples.store0 ReviewExamples.askingLast (FAIL_CARD 0)
    = Some (σ', state')
    /\ currentCard state' = JCard 3%nat
    /\ history state' = []
    /\ updateProgress_card state' (FAIL_CARD 0) = JCard 3%nat.
Proof.
  destruct (fail_last_card_shows_it_again ReviewExamples.store0
              ReviewExamples.askingLast 0 0%nat
              {| _id := "a"; question := "qa"; answer := "aa";
                 progress := 0%nat |}
              {| level := 3; reviewed := Some 0 |})
    as (σ' & state' & Hrev & Hc & _ & _ & _ & _ & Hh & Hu).
  - left; reflexivity.
  - reflexivity.
  - reflexivity.
  - reflexivity.
  - left; reflexivity.
  - reflexivity.
  - reflexivity.
  - reflexivity.
  - discriminate.
  - reflexivity.
  - exists σ', state'. split; [exact Hrev|]. split; [exact Hc|].
    split; [exact Hh | exact Hu].
Defined.

Lemma updateProgress_saves_passed_card_witness :
  exists σ' state',
    review ReviewExamples.store0 ReviewExamples.asking (PASS_CARD 0)
    = Some (σ', state')
    /\ updateProgress_card state' (PASS_CARD 0) = JCard 3%nat
    /\ cards σ' !! 3%nat
       = Some {| _id := "a"; question := "qa"; answer := "aa";
                 progress := 0%nat |}.
Proof.
  destruct (updateProgress_saves_passed_card ReviewExamples.store0
              ReviewExamples.asking 0 0%nat
              {| _id := "a"; question := "qa"; answer := "aa";
                 progress := 0%nat |}
              {| level := 3; reviewed := Some 0 |})
    as (σ' & state' & Hrev & _ & Hu & Hc).
  - left; reflexivity.
  - reflexivity.
  - apply not_elem_of_nil.
  - reflexivity.
  - reflexivity.
  - reflexivity.
  - exists σ', state'. split; [exact Hrev|]. split; [exact Hu | exact Hc].
Defined.

Lemma updateProgress_saves_failed_card_witness :
  exists σ' state',
    review ReviewExamples.store0 ReviewExamples.asking (FAIL_CARD 0)
    = Some (σ', state')
    /\ currentCard state' = JCard 1%nat
    /\ updateProgress_card state' (FAIL_CARD 0) = JCard 3%nat
    /\ exists n', nextCard state' = JCard n'.
Proof.
  destruct (updateProgress_saves_failed_card ReviewExamples.store0
              ReviewExamples.asking 0 0%nat 1%nat
              {| _id := "a"; question := "qa"; answer := "aa";
                 progress := 0%nat |}
              {| level := 3; reviewed := Some 0 |})
    as (σ' & state' & Hrev & Hc & _ & _ & Hu & _ & Hn).
  - left; reflexivity.
  - reflexivity.
  - reflexivity.
  - reflexivity.
  - reflexivity.
  - reflexivity.
  - exists σ', state'. split; [exact Hrev|]. split; [exact Hc|].
    split; [exact Hu|]. apply Hn; [discriminate | reflexivity].
Defined.

Lemma pass_last_failed_card_not_in_history_witness :
  exists σ' state',
    review ReviewExamples.store0 SagaExamples.askingFailed (PASS_CARD 0)
    = Some (σ', state')
    /\ currentCard state' = JCard 3%nat
    /\ history state' = []
    /\ updateProgress_card state' (PASS_CARD 0) <> JCard 3%nat.
Proof.
  destruct (pass_last_failed_card_not_in_history ReviewExamples.store0
              SagaExamples.askingFailed 0 0%nat
              {| _id := "a"; question := "qa"; answer := "aa";
                 progress := 0%nat |}
              {| level := 3; reviewed := Some 0 |})
    as (σ' & state' & Hrev & Hc & _ & _ & _ & Hh & _ & _ & Hu).
  - left; reflexivity.
  - reflexivity.
  - reflexivity.
  - reflexivity.
  - reflexivity.
  - reflexivity.
  - reflexivity.
  - reflexivity.
  - reflexivity.
  - discriminate.
  - reflexivity.
  - exists σ', state'. split; [exact Hrev|]. split; [exact Hc|].
    split; [exact Hh | exact Hu].
Defined.

End ReducerWitnesses.

Section ReducerWitnesses2.

Import Review Sagas ReviewRefs.

Lemma updateNextCard_next_is_not_current_witness :
  currentCard (updateNextCard ReviewExamples.store0 ReviewExamples.failing 0
                 UpdateCurrentCard) <> JCard 2%nat.
Proof.
  apply (updateNextCard_next_is_not_current ReviewExamples.store0
           ReviewExamples.failing 0 UpdateCurrentCard).
  - discriminate.
  - reflexivity.
  - apply (bool_decide_unpack _). reflexivity.
  - reflexivity.
Defined.

Lemma update_review_card_unknown_id_witness :
  review ReviewExamples.store0 ReviewExamples.asking (UPDATE_REVIEW_CARD 2%nat)
  = Some (ReviewExamples.store0, ReviewExamples.asking).
Proof.
  apply (update_review_card_unknown_id ReviewExamples.store0
           ReviewExamples.asking 2%nat).
  intros c [Hin | [[= <-] | [= <-]]]; [|reflexivity|reflexivity].
  apply list_elem_of_singleton in Hin. subst c. reflexivity.
Defined.

Lemma delete_review_card_unknown_id_witness :
  review ReviewExamples.store0 ReviewExamples.asking
    (DELETE_REVIEW_CARD "c" 0)
  = Some (ReviewExamples.store0, ReviewExamples.asking).
Proof.
  apply (delete_review_card_unknown_id ReviewExamples.store0
           ReviewExamples.asking "c" 0).
  intros c [Hin | [[= <-] | [= <-]]]; [|reflexivity|reflexivity].
  apply list_elem_of_singleton in Hin. subst c. reflexivity.
Defined.

Lemma review_loaded_nothing_witness :
  exists state',
    review ReviewExamples.store0 SagaExamples.loading
      (REVIEW_LOADED [] None None None 0 0 false)
    = Some (ReviewExamples.store0, state')
    /\ phase state' = COMPLETE
    /\ currentCard state' = JNull
    /\ nextCard state' = JNull
    /\ heap state' = [].
Proof.
  apply (review_loaded_nothing ReviewExamples.store0 SagaExamples.loading
           None None None 0 0 false); reflexivity.
Defined.

Lemma review_loaded_starts_witness :
  exists state' c,
    review ReviewExamples.store0 SagaExamples.loading
      (REVIEW_LOADED [0%nat; 1%nat] None None None 0 0 true)
    = Some (ReviewExamples.store0, state')
    /\ currentCard state' = JCard c
    /\ phase state' = QUESTION.
Proof.
  destruct (review_loaded_starts ReviewExamples.store0 SagaExamples.loading
              [0%nat; 1%nat] None None None 0 0 true)
    as (state' & c & Hrev & Hc & _ & Hp & _).
  - reflexivity.
  - left; reflexivity.
  - discriminate.
  - discriminate.
  - reflexivity.
  - exists state', c. split; [exact Hrev|]. split; [exact Hc | exact Hp].
Defined.

Lemma updateHeap_within_limits_witness :
  updateHeap_cards SagaExamples.getCards false SagaExamples.loading
    (NEW_REVIEW 10 5)
  = Some [1%nat; 2%nat; 0%nat]
  /\ len [1%nat; 2%nat; 0%nat] <= freeSlots SagaExamples.loading
  /\ len (List.filter (isNewCard ReviewExamples.store0)
            [1%nat; 2%nat; 0%nat])
     <= Z.max 0 (maxNewCards SagaExamples.loading
                 - newCardsInPlay SagaExamples.loading).
Proof.
  split; [reflexivity|].
  destruct (updateHeap_within_limits ReviewExamples.store0
              SagaExamples.getCards false SagaExamples.loading
              (NEW_REVIEW 10 5) [1%nat; 2%nat; 0%nat])
    as (Hfree & Hnew & _).
  - intros limit type skip Hlimit. unfold SagaExamples.getCards, len.
    destruct type; rewrite length_take; lia.
  - reflexivity.
  - split; [exact Hfree|]. apply Hnew.
    intros limit skip c Hc. unfold SagaExamples.getCards in Hc.
    apply elem_of_take_full in Hc.
    apply list_elem_of_singleton in Hc. subst c. reflexivity.
Defined.

Lemma review_pass_fail_writes_witness :
  exists σ' state',
    review ReviewExamples.store0 ReviewExamples.asking (PASS_CARD 0)
    = Some (σ', state')
    /\ length (cards σ') = 4%nat
    /\ progresses σ' !! 1%nat = Some {| level := 0; reviewed := None |}.
Proof.
  destruct (review ReviewExamples.store0 ReviewExamples.asking (PASS_CARD 0))
    as [[σ' state']|] eqn:Hrev; [|discriminate Hrev].
  destruct (review_pass_fail_writes ReviewExamples.store0
              ReviewExamples.asking (PASS_CARD 0) σ' state' 0%nat
              {| _id := "a"; question := "qa"; answer := "aa";
                 progress := 0%nat |})
    as (Hc & _ & Hp).
  - exists 0%Q. left; reflexivity.
  - reflexivity.
  - reflexivity.
  - reflexivity.
  - exact Hrev.
  - exists σ', state'. split; [reflexivity|]. split.
    + rewrite Hc. reflexivity.
    + rewrite (Hp 1%nat) by discriminate. reflexivity.
Defined.

End ReducerWitnesses2.

Section ReviewSummaryWitnesses.

Import ReviewSummary.

Lemma finishReview_nothing_to_finish_witness :
  finishReview 300
    (Some {| rev := 2; deleted := false; doc := Examples.finishedReview |})
  = Some {| rev := 2; deleted := false; doc := Examples.finishedReview |}.
Proof.
  apply (finishReview_nothing_to_finish 300
           (Some {| rev := 2; deleted := false;
                    doc := Examples.finishedReview |})).
  reflexivity.
Defined.

Lemma resolve_order_independent_witness :
  ReviewStore.resolve SummaryExamples.startedReview Examples.freshReview
  = ReviewStore.resolve Examples.freshReview SummaryExamples.startedReview.
Proof.
  apply (resolve_order_independent SummaryExamples.startedReview
           Examples.freshReview).
  - left; reflexivity.
  - discriminate.
Defined.

End ReviewSummaryWitnesses.

Section CardStoreWitnesses.

Import DocStore CardStore StoredCards CardChanges CardQueries.
Import StoreExamples MoreStoreExamples.

Lemma putCard_unknown_card_witness :
  putCard (fun s => s) dbX editY 2000 "g" [] = Some (Err NotFoundMissing, dbX)
  /\ status NotFoundMissing = 404.
Proof.
  apply (putCard_unknown_card (fun s => s) dbX editY 2000 "g" [] "y").
  - reflexivity.
  - discriminate.
  - reflexivity.
Defined.

Lemma putCard_missing_progress_still_writes_witness :
  exists db' e',
    putCard (fun s => s) dbCardOnly editX 2000 "g" []
    = Some (Err NotFoundMissing, db')
    /\ db' !! "card-x" = Some e'
    /\ content e'
       = CardDoc {| front := "Updated question"; back := "Answer";
                    keywords := None; tags := None; starred := None;
                    created := 1; modified := 2000 |}.
Proof.
  destruct (putCard_missing_progress_still_writes (fun s => s) dbCardOnly
              editX 2000 "g" [] "x" cardEntryX cardX)
    as (db' & e' & Hput & Hl & _ & Hc & _).
  - reflexivity.
  - discriminate.
  - reflexivity.
  - reflexivity.
  - reflexivity.
  - reflexivity.
  - reflexivity.
  - exists db', e'. split; [exact Hput|]. split; [exact Hl | exact Hc].
Defined.

Lemma putCard_without_change_is_a_read_witness :
  putCard (fun s => s) dbX justX 2000 "g" []
  = Some (Ok (mergeDocs "x" cardX progressX), dbX).
Proof.
  apply (putCard_without_change_is_a_read (fun s => s) dbX justX 2000 "g" []
           "x" (mergeDocs "x" cardX progressX)).
  - reflexivity.
  - discriminate.
  - reflexivity.
  - reflexivity.
  - intros p Hp. discriminate Hp.
Defined.

Lemma putCard_new_card_fields_witness :
  putCard (fun s => s) ∅ newCard 2000 "g" [] = Some (Ok cardG, dbG)
  /\ getCard dbG (Model.id cardG) = Ok cardG
  /\ Model.created cardG = 2000.
Proof.
  assert (Hput : putCard (fun s => s) ∅ newCard 2000 "g" []
                 = Some (Ok cardG, dbG)) by (vm_compute; reflexivity).
  split; [exact Hput|].
  destruct (putCard_new_card_fields (fun s => s) ∅ newCard 2000 "g" []
              cardG dbG (or_introl eq_refl) Hput)
    as (_ & Hget & Hcr & _).
  split; [exact Hget | exact Hcr].
Defined.

Lemma putCard_skips_taken_ids_witness :
  exists c db',
    putCard (fun s => s) dbX newCard 2000 "x" ["g"] = Some (Ok c, db')
    /\ Model.id c = "g"
    /\ getCard db' "g" = Ok c.
Proof.
  destruct (putCard_skips_taken_ids (fun s => s) dbX newCard 2000 "x" ["g"]
              ["x"] [] "g")
    as (c & db' & Hput & Hid & Hget & _).
  - left; reflexivity.
  - reflexivity.
  - intros t Ht. apply list_elem_of_singleton in Ht. subst t. reflexivity.
  - reflexivity.
  - reflexivity.
  - exists c, db'. split; [exact Hput|]. split; [exact Hid | exact Hget].
Defined.

Lemma putCard_keeps_documents_compact_witness :
  exists res db',
    putCard (fun s => s) ∅ newCard 2000 "g" [] = Some (res, db')
    /\ all_compact db'.
Proof.
  exists (Ok cardG), dbG.
  assert (Hput : putCard (fun s => s) ∅ newCard 2000 "g" []
                 = Some (Ok cardG, dbG)) by (vm_compute; reflexivity).
  split; [exact Hput|].
  apply (putCard_keeps_documents_compact (fun s => s) ∅ newCard 2000 "g" []
           (Ok cardG) dbG); [|exact Hput].
  intros k e c Hl. rewrite lookup_empty in Hl. discriminate Hl.
Defined.

Lemma onChange_reports_card_once_witness :
  exists returnedCards',
    onChange dbX ∅ (changeOf "card-x" cardEntryX)
    = (Ok (Some (MergedCard (mergeDocs "x" cardX progressX) false)),
       returnedCards')
    /\ onChange dbX returnedCards' (changeOf "progress-x" progressEntryX)
       = (Ok None, returnedCards').
Proof.
  refine (proj1 (onChange_reports_card_once dbX ∅ "x" cardEntryX
                   progressEntryX cardX progressX
                   eq_refl eq_refl eq_refl eq_refl eq_refl eq_refl _ _)).
  - intros revs H. rewrite lookup_empty in H. discriminate H.
  - intros revs H. rewrite lookup_empty in H. discriminate H.
Defined.

Lemma onChange_other_half_missing_witness :
  onChange ∅ ∅ (changeOf "progress-x" progressEntryX)
  = (Err NotFoundMissing, ∅).
Proof.
  refine (proj2 (onChange_other_half_missing ∅ ∅ "x" progressEntryX eq_refl)
            _).
  apply lookup_empty.
Defined.

Lemma getNewCards_sorted_and_limited_witness :
  Z.of_nat (length (getNewCards dbNewCards foundNewCards (Some 1))) <= 1
  /\ Model.id <$> getNewCards dbNewCards foundNewCards (Some 1) = ["b"].
Proof.
  split; [|vm_compute; reflexivity].
  refine (proj1 (proj2 (getNewCards_sorted_and_limited dbNewCards
                          foundNewCards (Some 1) _)) 1 eq_refl _).
  - repeat constructor.
  - lia.
Defined.

End CardStoreWitnesses.
